(** * The user data-access layer (userDb) over a model of its SQLite store

    The accessors [createUser], [getUserById], [getAllUsers], [updateUser]
    and [deleteUser], the helper [withTransaction] and [initDb] are embedded
    as computations in a state-and-exception monad over a model of the one
    table the module creates.  TypeScript's [Promise<T>] is read as such a
    computation: [await] is sequencing, a rejected promise is a thrown
    error.

    The store is the table [users] as its CREATE TABLE declares it (ids
    from AUTOINCREMENT, UNIQUE on username and on email, compared byte by
    byte), the transaction state of the one connection, and an environment
    that may reject any call of the driver.  Ids are integers; calls are
    served one after the other. *)

From Stdlib Require Import ZArith List String Ascii Bool Lia.
From Stdlib Require Import Sorted Permutation DecimalString.
Import ListNotations.

Open Scope Z_scope.

(** ** Data model *)

(** [type User]: one row of the table [users]. *)
Record User : Type := mkUser {
  id : Z;
  username : string;
  email : string;
  password_hash : string;
  created_at : string
}.

(** [type NewUser = Omit<User, 'id' | 'created_at'>]. *)
Record NewUser : Type := mkNewUser {
  new_username : string;
  new_email : string;
  new_password_hash : string
}.

(** A property of [Partial<NewUser>] as the operator [??] sees it: the
    property may be missing ([undefined]), may hold [null], or may hold a
    string. *)
Inductive Optional : Type :=
| Undefined
| Null
| Supplied (v : string).

Record PartialNewUser : Type := mkPartial {
  upd_username : Optional;
  upd_email : Optional;
  upd_password_hash : Optional
}.

(** [a ?? b]: the right operand is used exactly when the left one is
    [undefined] or [null]. *)
Definition nullish (a : Optional) (b : string) : string :=
  match a with
  | Supplied v => v
  | Undefined | Null => b
  end.

(** ** Errors *)

(** What the driver rejects with: an [Error] object with a [code]. *)
Record SqlFailure : Type := mkFailure {
  code : string;
  message : string
}.

(** The values thrown in the module: its two error classes, which have no
    [code] property, and the failures of the driver. *)
Inductive Error : Type :=
| UserNotFoundError (msg : string)
| UserAlreadyExistsError (msg : string)
| StoreError (f : SqlFailure).

(** [err.code === c] *)
Definition has_code (err : Error) (c : string) : bool :=
  match err with
  | StoreError f => String.eqb (code f) c
  | UserNotFoundError _ | UserAlreadyExistsError _ => false
  end.

Definition SQLITE_CONSTRAINT : string := "SQLITE_CONSTRAINT".
Definition SQLITE_ERROR : string := "SQLITE_ERROR".

(** ** The store *)

(** The table [users] with the counter that AUTOINCREMENT keeps in
    [sqlite_sequence] (the largest id handed out so far).  [rows] is the
    bag of stored rows; no order of storage is assumed. *)
Record Table : Type := mkTable {
  rows : list User;
  seq : Z
}.

(** The SQL texts the module passes to [db.exec] and to [db.run]. *)
Inductive ExecSql : Type := CREATE_TABLE | BEGIN | COMMIT | ROLLBACK.

Inductive RunSql : Type :=
| INSERT (u e p : string)
| UPDATE (u e p : string) (i : Z)
| DELETE (i : Z).

(** One call of the driver. *)
Inductive Call : Type :=
| Open
| Exec (q : ExecSql)
| Run (q : RunSql)
| Get (i : Z)
| All.

(** The database file, the connection and their environment.
    - [opened]: the module variable [db] is set;
    - [tbl]: the current content of the table;
    - [txn]: inside a transaction, the content at its BEGIN;
    - [clock]: what [datetime('now')] evaluates to;
    - [faults]: the environment's verdict on the coming driver calls, one
      entry per call: [Some f] makes the call reject with [f] and leave the
      data alone, [None] lets it run; once the list is used up every call
      runs;
    - [log]: the driver calls issued so far, oldest first. *)
Record Store : Type := mkStore {
  opened : bool;
  tbl : Table;
  txn : option Table;
  clock : string;
  faults : list (option SqlFailure);
  log : list Call
}.

Definition set_opened (b : bool) (s : Store) : Store :=
  mkStore b (tbl s) (txn s) (clock s) (faults s) (log s).
Definition set_tbl (t : Table) (s : Store) : Store :=
  mkStore (opened s) t (txn s) (clock s) (faults s) (log s).
Definition set_txn (x : option Table) (s : Store) : Store :=
  mkStore (opened s) (tbl s) x (clock s) (faults s) (log s).
Definition set_faults (l : list (option SqlFailure)) (s : Store) : Store :=
  mkStore (opened s) (tbl s) (txn s) (clock s) l (log s).
Definition add_log (c : Call) (s : Store) : Store :=
  mkStore (opened s) (tbl s) (txn s) (clock s) (faults s) (log s ++ [c]).

(** ** Promises as computations *)

Inductive Outcome (A : Type) : Type :=
| Returned (a : A)
| Thrown (e : Error).
Arguments Returned {A} a.
Arguments Thrown {A} e.

Definition Async (A : Type) : Type := Store -> Outcome A * Store.

Definition ret {A} (a : A) : Async A := fun s => (Returned a, s).
Definition throw {A} (e : Error) : Async A := fun s => (Thrown e, s).

Definition bind {A B} (m : Async A) (k : A -> Async B) : Async B :=
  fun s =>
    match m s with
    | (Returned a, s1) => k a s1
    | (Thrown e, s1) => (Thrown e, s1)
    end.

(** [try { m } catch (err) { h err }] *)
Definition try_catch {A} (m : Async A) (h : Error -> Async A) : Async A :=
  fun s =>
    match m s with
    | (Returned a, s1) => (Returned a, s1)
    | (Thrown e, s1) => h e s1
    end.

Declare Scope async_scope.
Delimit Scope async_scope with async.
Notation "x <- m ;; k" := (bind m (fun x => k))
  (at level 61, m at next level, right associativity) : async_scope.
Notation "m ;; k" := (bind m (fun _ => k))
  (at level 61, right associativity) : async_scope.
Open Scope async_scope.

Definition modify (f : Store -> Store) : Async unit :=
  fun s => (Returned tt, f s).
Definition read {A} (f : Store -> A) : Async A :=
  fun s => (Returned (f s), s).

(** ** SQL on the table *)

Definition has_id (i : Z) (u : User) : bool := id u =? i.

Definition find_id (i : Z) (l : list User) : option User :=
  find (has_id i) l.

Definition max_id (l : list User) : Z :=
  fold_right (fun u m => Z.max (id u) m) 0 l.

(** The id AUTOINCREMENT gives the next row: one more than the largest id
    that is or ever was in the table. *)
Definition next_id (t : Table) : Z :=
  Z.max (seq t) (max_id (rows t)) + 1.

Definition unique_failed (column : string) : SqlFailure :=
  mkFailure SQLITE_CONSTRAINT
    ("SQLITE_CONSTRAINT: UNIQUE constraint failed: users." ++ column)%string.

(** [db.run] answers with the id of the inserted row and the number of
    rows changed; [lastID] means something after an INSERT only. *)
Record RunResult : Type := mkRun {
  lastID : Z;
  changes : Z
}.

(** INSERT INTO users (username, email, password_hash) VALUES (?, ?, ?) *)
Definition sql_insert (u e p now : string) (t : Table)
  : SqlFailure + (RunResult * Table) :=
  if existsb (fun r => String.eqb (username r) u) (rows t) then
    inl (unique_failed "username")
  else if existsb (fun r => String.eqb (email r) e) (rows t) then
    inl (unique_failed "email")
  else
    let i := next_id t in
    inr (mkRun i 1, mkTable (rows t ++ [mkUser i u e p now]) i).

Definition set_fields (u e p : string) (r : User) : User :=
  mkUser (id r) u e p (created_at r).

(** What UPDATE ... WHERE id = ? does to one row. *)
Definition rewrite_row (i : Z) (u e p : string) (r : User) : User :=
  if has_id i r then set_fields u e p r else r.

(** UPDATE users SET username = ?, email = ?, password_hash = ? WHERE id = ? *)
Definition sql_update (u e p : string) (i : Z) (t : Table)
  : SqlFailure + (RunResult * Table) :=
  if negb (existsb (has_id i) (rows t)) then
    inr (mkRun 0 0, t)
  else if existsb (fun r => negb (has_id i r) && String.eqb (username r) u)
            (rows t) then
    inl (unique_failed "username")
  else if existsb (fun r => negb (has_id i r) && String.eqb (email r) e)
            (rows t) then
    inl (unique_failed "email")
  else
    inr (mkRun 0 (Z.of_nat (List.length (filter (has_id i) (rows t)))),
         mkTable (map (rewrite_row i u e p) (rows t)) (seq t)).

(** DELETE FROM users WHERE id = ? *)
Definition sql_delete (i : Z) (t : Table) : RunResult * Table :=
  (mkRun 0 (Z.of_nat (List.length (filter (has_id i) (rows t)))),
   mkTable (filter (fun r => negb (has_id i r)) (rows t)) (seq t)).

Definition sql_run (q : RunSql) (now : string) (t : Table)
  : SqlFailure + (RunResult * Table) :=
  match q with
  | INSERT u e p => sql_insert u e p now t
  | UPDATE u e p i => sql_update u e p i t
  | DELETE i => inr (sql_delete i t)
  end.

(** ORDER BY id, as an insertion sort. *)
Fixpoint insert_by_id (u : User) (l : list User) : list User :=
  match l with
  | [] => [u]
  | v :: l' => if id u <=? id v then u :: v :: l' else v :: insert_by_id u l'
  end.

Definition order_by_id (l : list User) : list User :=
  fold_right insert_by_id [] l.

(** ** The driver *)

(** Every call of the driver is logged and first meets the environment's
    verdict on it. *)
Definition issue (c : Call) : Async unit :=
  fun s =>
    let s1 := add_log c s in
    match faults s1 with
    | [] => (Returned tt, s1)
    | None :: l => (Returned tt, set_faults l s1)
    | Some f :: l => (Thrown (StoreError f), set_faults l s1)
    end.

Definition nested_begin : SqlFailure :=
  mkFailure SQLITE_ERROR
    "SQLITE_ERROR: cannot start a transaction within a transaction".

Definition no_transaction (verb : string) : SqlFailure :=
  mkFailure SQLITE_ERROR
    ("SQLITE_ERROR: cannot " ++ verb ++ " - no transaction is active")%string.

(** [db.exec(sql)] *)
Definition db_exec (q : ExecSql) : Async unit :=
  issue (Exec q) ;;
  fun s =>
    match q with
    | CREATE_TABLE => (Returned tt, s)
    | BEGIN =>
        match txn s with
        | Some _ => (Thrown (StoreError nested_begin), s)
        | None => (Returned tt, set_txn (Some (tbl s)) s)
        end
    | COMMIT =>
        match txn s with
        | Some _ => (Returned tt, set_txn None s)
        | None => (Thrown (StoreError (no_transaction "commit")), s)
        end
    | ROLLBACK =>
        match txn s with
        | Some t0 => (Returned tt, set_txn None (set_tbl t0 s))
        | None => (Thrown (StoreError (no_transaction "rollback")), s)
        end
    end.

(** [db.run(sql, ...params)] *)
Definition db_run (q : RunSql) : Async RunResult :=
  issue (Run q) ;;
  fun s =>
    match sql_run q (clock s) (tbl s) with
    | inl f => (Thrown (StoreError f), s)
    | inr (r, t) => (Returned r, set_tbl t s)
    end.

(** [db.get<User>(`SELECT * FROM users WHERE id = ?`, i)] *)
Definition db_get (i : Z) : Async (option User) :=
  issue (Get i) ;;
  read (fun s => find_id i (rows (tbl s))).

(** [db.all<User[]>(`SELECT * FROM users ORDER BY id`)] *)
Definition db_all : Async (list User) :=
  issue All ;;
  read (fun s => order_by_id (rows (tbl s))).

(** ** The module *)

Definition dquote : string := String (ascii_of_nat 34) EmptyString.

(** A number in a template literal: ids are integers, printed in decimal. *)
Definition number_to_string (n : Z) : string :=
  NilZero.string_of_int (Z.to_int n).

Definition not_found_message (i : Z) : string :=
  ("User with ID " ++ number_to_string i ++ " not found")%string.

Definition already_exists_message (user : NewUser) : string :=
  ("User with username " ++ dquote ++ new_username user ++ dquote
   ++ " or email " ++ dquote ++ new_email user ++ dquote
   ++ " already exists")%string.

Definition creation_failed_message : string :=
  "User creation failed unexpectedly".

Definition withTransaction {T} (fn : Async T) : Async T :=
  db_exec BEGIN ;;
  try_catch
    (result <- fn ;;
     db_exec COMMIT ;;
     ret result)
    (fun err =>
       db_exec ROLLBACK ;;
       throw err).

Definition initDb : Async unit :=
  fun s =>
    if opened s then ret tt s
    else
      (issue Open ;;
       modify (set_opened true) ;;
       db_exec CREATE_TABLE) s.

(** The [try] block of [createUser]: the insertion and the read-back. *)
Definition create_try (user : NewUser) : Async User :=
  result <- db_run (INSERT (new_username user) (new_email user)
                      (new_password_hash user)) ;;
  newUser <- db_get (lastID result) ;;
  match newUser with
  | None => throw (UserNotFoundError creation_failed_message)
  | Some u => ret u
  end.

(** Its [catch] block. *)
Definition create_catch (user : NewUser) (err : Error) : Async User :=
  if has_code err SQLITE_CONSTRAINT then
    throw (UserAlreadyExistsError (already_exists_message user))
  else throw err.

Definition createUser (user : NewUser) : Async User :=
  initDb ;;
  withTransaction (try_catch (create_try user) (create_catch user)).

Definition getUserById (i : Z) : Async User :=
  initDb ;;
  user <- db_get i ;;
  match user with
  | None => throw (UserNotFoundError (not_found_message i))
  | Some u => ret u
  end.

Definition getAllUsers : Async (list User) :=
  initDb ;;
  db_all.

(** The declared result is [User | null]: [None] stands for [null]. *)
Definition updateUser (i : Z) (updates : PartialNewUser)
  : Async (option User) :=
  initDb ;;
  withTransaction
    (current <- getUserById i ;;
     let updated :=
       mkNewUser
         (nullish (upd_username updates) (username current))
         (nullish (upd_email updates) (email current))
         (nullish (upd_password_hash updates) (password_hash current)) in
     db_run (UPDATE (new_username updated) (new_email updated)
               (new_password_hash updated) i) ;;
     u <- getUserById i ;;
     ret (Some u)).

Definition deleteUser (i : Z) : Async User :=
  initDb ;;
  withTransaction
    (user <- db_get i ;;
     match user with
     | None => throw (UserNotFoundError (not_found_message i))
     | Some u =>
         result <- db_run (DELETE i) ;;
         if changes result =? 0 then
           throw (UserNotFoundError creation_failed_message)
         else ret u
     end).

(** ** Stores in working order *)

(** No failure is pending and no transaction is open. *)
Definition healthy (s : Store) : Prop :=
  faults s = [] /\ txn s = None.

(** The constraints of the schema: PRIMARY KEY, the two UNIQUE constraints,
    and AUTOINCREMENT's counter being at least every id in use. *)
Definition integrity (t : Table) : Prop :=
  NoDup (map id (rows t))
  /\ NoDup (map username (rows t))
  /\ NoDup (map email (rows t))
  /\ (forall r, In r (rows t) -> id r <= seq t).

(** The id [i] is in no row and AUTOINCREMENT is past it. *)
Definition gone (i : Z) (t : Table) : Prop :=
  find_id i (rows t) = None /\ i <= seq t.

(** The driver calls [initDb] makes. *)
Definition boot (s : Store) : list Call :=
  if opened s then [] else [Open; Exec CREATE_TABLE].

(** ** Notions the statements are written with *)

(** Nobody holds the username [u] nor the email [e]. *)
Definition unused (u e : string) (l : list User) : Prop :=
  forall r, In r l -> username r <> u /\ email r <> e.

(** No row other than row [i] holds the username [u] or the email [e]. *)
Definition unused_by_others (i : Z) (u e : string) (l : list User) : Prop :=
  forall r, In r l -> id r <> i -> username r <> u /\ email r <> e.

(** The INSERT of [createUser]. *)
Definition insert_of (user : NewUser) : RunSql :=
  INSERT (new_username user) (new_email user) (new_password_hash user).

(** The row [createUser] stores for [user] in the table [t] at time [now]. *)
Definition created (user : NewUser) (t : Table) (now : string) : User :=
  mkUser (next_id t) (new_username user) (new_email user)
    (new_password_hash user) now.

(** The row [updateUser] makes of [current]: the object [updated] of the
    source with the id and the time of creation that UPDATE leaves alone. *)
Definition merged (updates : PartialNewUser) (current : User) : User :=
  mkUser (id current)
    (nullish (upd_username updates) (username current))
    (nullish (upd_email updates) (email current))
    (nullish (upd_password_hash updates) (password_hash current))
    (created_at current).

(** Neither supplied nor a value: [undefined] or [null]. *)
Definition not_supplied (o : Optional) : Prop :=
  o = Undefined \/ o = Null.

Definition id_le (a b : User) : Prop := id a <= id b.

(** The text [x] occurs in [msg]. *)
Definition mentions (msg x : string) : Prop :=
  exists pre post, msg = (pre ++ x ++ post)%string.

(** [raises P m]: whatever [m] throws satisfies [P]. *)
Definition raises {A} (P : Error -> Prop) (m : Async A) : Prop :=
  forall s e s', m s = (Thrown e, s') -> P e.

Definition is_store_error (e : Error) : Prop :=
  exists f, e = StoreError f.

(** The errors of [updateUser]: those of the store and [UserNotFoundError]. *)
Definition store_or_not_found (e : Error) : Prop :=
  is_store_error e \/ exists msg, e = UserNotFoundError msg.

(** ** Sequences of requests *)

Definition set_clock (now : string) (s : Store) : Store :=
  mkStore (opened s) (tbl s) (txn s) now (faults s) (log s).

(** A call of one of the accessors, or time passing. *)
Inductive Request : Type :=
| CreateUser (user : NewUser)
| GetUserById (i : Z)
| GetAllUsers
| UpdateUser (i : Z) (updates : PartialNewUser)
| DeleteUser (i : Z)
| Tick (now : string).

Definition serve (r : Request) (s : Store) : Store :=
  match r with
  | CreateUser user => snd (createUser user s)
  | GetUserById i => snd (getUserById i s)
  | GetAllUsers => snd (getAllUsers s)
  | UpdateUser i updates => snd (updateUser i updates s)
  | DeleteUser i => snd (deleteUser i s)
  | Tick now => set_clock now s
  end.

Definition serve_all (l : list Request) (s : Store) : Store :=
  fold_left (fun s r => serve r s) l s.

(** ** Stores and inputs of the examples *)

Definition clock0 : string := "2025-01-01 00:00:00".

(** The store before the module is first used: nothing opened, no table
    yet, which the idempotent CREATE TABLE makes the empty table. *)
Definition empty_store : Store :=
  mkStore false (mkTable [] 0) None clock0 [] [].

(** An opened store with an empty table on which the coming driver calls
    meet the verdicts [fl]. *)
Definition fresh_store (fl : list (option SqlFailure)) : Store :=
  mkStore true (mkTable [] 0) None clock0 fl [].

Definition alice : NewUser := mkNewUser "alice" "a@x.com" "h1".
Definition alice2 : NewUser := mkNewUser "alice" "b@x.com" "h2".
Definition bob : NewUser := mkNewUser "bob" "b@x.com" "h2".

Definition two_users : Store :=
  snd ((createUser alice ;; createUser bob) (fresh_store [])).

(** Three rows stored out of order. *)
Definition shuffled : Store :=
  mkStore true
    (mkTable [mkUser 3 "carol" "c@x.com" "h3" clock0;
              mkUser 1 "alice" "a@x.com" "h1" clock0;
              mkUser 2 "bob" "b@x.com" "h2" clock0] 3)
    None clock0 [] [].

(** A failure of the medium. *)
Definition disk_io : SqlFailure :=
  mkFailure "SQLITE_IOERR" "SQLITE_IOERR: disk I/O error".

(** What SQLite rejects a statement with when a NOT NULL column would get
    NULL (an argument that is [null] at run time, where the types are gone):
    a failure with the same code as a breach of UNIQUE.  The table computes
    the two UNIQUE checks only; a failure such as this one reaches the
    module as a verdict of [faults]. *)
Definition not_null_failed (column : string) : SqlFailure :=
  mkFailure SQLITE_CONSTRAINT
    ("SQLITE_CONSTRAINT: NOT NULL constraint failed: users." ++ column)%string.

(** An operation that throws without touching the store. *)
Definition failing_operation : Async User :=
  throw (UserNotFoundError (not_found_message 7)).

(** ** The controllers *)

Local Unset Elimination Schemes.

(** What [res.json] is given. *)
Inductive Json : Type :=
| JNull
| JBool (b : bool)
| JNumber (n : Z)
| JString (v : string)
| JArray (items : list Json)
| JObject (members : list (string * Json)).

Local Set Elimination Schemes.

(** A row as [res.json] gets it: the columns in the order of the table. *)
Definition user_json (u : User) : Json :=
  JObject [("id"%string, JNumber (id u));
           ("username"%string, JString (username u));
           ("email"%string, JString (email u));
           ("password_hash"%string, JString (password_hash u));
           ("created_at"%string, JString (created_at u))].

(** [res.status(code).json(body)] *)
Record Response : Type := mkResponse {
  status : Z;
  body : Json
}.

(** A request ends with a response sent, or with an error handed to
    [next]. *)
Inductive Reply : Type :=
| Sent (r : Response)
| Next (err : Error).

(** [asyncHandler(fn)]: [fn(req, res, next).catch(next)]. *)
Definition asyncHandler {Req : Type} (fn : Req -> Async Response) (req : Req)
  : Store -> Reply * Store :=
  fun s =>
    match fn req s with
    | (Returned r, s') => (Sent r, s')
    | (Thrown e, s') => (Next e, s')
    end.

(** [!x] is false: a property of [req.body] that is there, not [null] and
    not the empty string.  The bodies covered are those whose three
    properties are strings, [null] or missing. *)
Definition truthy (x : Optional) : bool :=
  match x with
  | Supplied v => negb (String.eqb v EmptyString)
  | Undefined | Null => false
  end.

(** The string a property holds; used where the property is truthy. *)
Definition text (x : Optional) : string :=
  match x with
  | Supplied v => v
  | Undefined | Null => EmptyString
  end.

(** An object, such as a row, is truthy. *)
Definition truthy_row (u : User) : bool := true.

(** [import * as db from '../db/userDb'] *)
Module db.
Definition getAllUsers : Async (list User) := getAllUsers.
Definition createUser : NewUser -> Async User := createUser.
Definition getUserById : Z -> Async User := getUserById.
Definition deleteUser : Z -> Async User := deleteUser.
End db.

Definition required_message : string :=
  "username, email, password_hash are required".

(** The controller of src/apps/server/src/controllers/userController.ts.
    [req.body] is read as its three properties; [req.params.id] as the
    integer [parseInt] makes of it. *)
Module Controller.

Definition getAllUsers : unit -> Store -> Reply * Store :=
  asyncHandler (fun _ =>
    users <- db.getAllUsers ;;
    ret (mkResponse 200
           (JObject [("success"%string, JBool true);
                     ("data"%string, JArray (map user_json users));
                     ("message"%string,
                      JString "Users retrieved successfully")]))).

Definition createUser : PartialNewUser -> Store -> Reply * Store :=
  asyncHandler (fun req_body =>
    let username := upd_username req_body in
    let email := upd_email req_body in
    let password_hash := upd_password_hash req_body in
    if negb (truthy username) || negb (truthy email)
       || negb (truthy password_hash) then
      ret (mkResponse 400
             (JObject [("success"%string, JBool false);
                       ("message"%string, JString required_message)]))
    else
      try_catch
        (user <- db.createUser
                   (mkNewUser (text username) (text email)
                      (text password_hash)) ;;
         ret (mkResponse 201
                (JObject [("success"%string, JBool true);
                          ("data"%string, user_json user);
                          ("message"%string,
                           JString "User created successfully")])))
        (fun error =>
           match error with
           | UserAlreadyExistsError _ =>
               ret (mkResponse 409
                      (JObject [("success"%string, JBool false);
                                ("message"%string,
                                 JString "User already exists")]))
           | _ =>
               ret (mkResponse 500
                      (JObject [("success"%string, JBool false);
                                ("message"%string,
                                 JString "Internal server error")]))
           end)).

Definition getUserById : Z -> Store -> Reply * Store :=
  asyncHandler (fun userId =>
    try_catch
      (user <- db.getUserById userId ;;
       ret (mkResponse 200
              (JObject [("success"%string, JBool true);
                        ("data"%string, user_json user);
                        ("message"%string,
                         JString "User retrieved successfully")])))
      (fun error =>
         match error with
         | UserNotFoundError msg =>
             ret (mkResponse 404
                    (JObject [("success"%string, JBool false);
                              ("message"%string, JString msg)]))
         | _ =>
             ret (mkResponse 500
                    (JObject [("success"%string, JBool false);
                              ("message"%string,
                               JString "Internal server error")]))
         end)).

Definition deleteUserById : Z -> Store -> Reply * Store :=
  asyncHandler (fun userId =>
    user <- db.deleteUser userId ;;
    if truthy_row user then
      ret (mkResponse 200
             (JObject [("success"%string, JBool true);
                       ("message"%string,
                        JString "User deleted successfully")]))
    else
      ret (mkResponse 404
             (JObject [("success"%string, JBool false);
                       ("message"%string, JString "User not found")]))).

End Controller.

(** The controller of src/unnamed/part_000: the same routes, the bodies
    without the envelope, and a deletion that catches. *)
Module PlainController.

Definition getAllUsers : unit -> Store -> Reply * Store :=
  asyncHandler (fun _ =>
    users <- db.getAllUsers ;;
    ret (mkResponse 200
           (JObject [("success"%string, JBool true);
                     ("data"%string, JArray (map user_json users));
                     ("message"%string,
                      JString "Users retrieved successfully")]))).

Definition createUser : PartialNewUser -> Store -> Reply * Store :=
  asyncHandler (fun req_body =>
    let username := upd_username req_body in
    let email := upd_email req_body in
    let password_hash := upd_password_hash req_body in
    if negb (truthy username) || negb (truthy email)
       || negb (truthy password_hash) then
      ret (mkResponse 400
             (JObject [("message"%string, JString required_message)]))
    else
      try_catch
        (user <- db.createUser
                   (mkNewUser (text username) (text email)
                      (text password_hash)) ;;
         ret (mkResponse 201 (user_json user)))
        (fun error =>
           match error with
           | UserAlreadyExistsError _ =>
               ret (mkResponse 409
                      (JObject [("message"%string,
                                 JString "User already exists")]))
           | _ =>
               ret (mkResponse 500
                      (JObject [("message"%string,
                                 JString "Internal server error")]))
           end)).

Definition getUserById : Z -> Store -> Reply * Store :=
  asyncHandler (fun userId =>
    try_catch
      (user <- db.getUserById userId ;;
       ret (mkResponse 200 (user_json user)))
      (fun error =>
         match error with
         | UserNotFoundError msg =>
             ret (mkResponse 404
                    (JObject [("message"%string, JString msg)]))
         | _ =>
             ret (mkResponse 500
                    (JObject [("message"%string,
                               JString "Internal server error")]))
         end)).

Definition deleteUserById : Z -> Store -> Reply * Store :=
  asyncHandler (fun userId =>
    try_catch
      (user <- db.deleteUser userId ;;
       ret (mkResponse 200 (user_json user)))
      (fun error =>
         match error with
         | UserNotFoundError msg =>
             ret (mkResponse 404
                    (JObject [("message"%string, JString msg)]))
         | _ =>
             ret (mkResponse 500
                    (JObject [("message"%string,
                               JString "Internal server error")]))
         end)).

End PlainController.

(** The user a complete body asks for. *)
Definition requested (req_body : PartialNewUser) : NewUser :=
  mkNewUser (text (upd_username req_body)) (text (upd_email req_body))
    (text (upd_password_hash req_body)).

(** The status of a response sent; none when the error went to [next]. *)
Definition reply_status (r : Reply) : option Z :=
  match r with
  | Sent x => Some (status x)
  | Next _ => None
  end.

(** ** The exercises of src/apps/server/tests/async.test.ts *)

(** The functions of the exercises that run one step after the other.  A
    promise is a computation over a world: the state [W] the operations of
    the caller act on, the delays that were awaited and the timers that
    were started without being awaited.  How long anything takes is not
    modelled. *)
Module Exercise.

(** [interface User] *)
Record User : Type := mkUser {
  id : Z;
  name : string;
  email : string
}.

(** What a promise is rejected with: the two error classes of the file,
    [new Error(msg)], and the TypeError of a call of [undefined]. *)
Inductive Failure : Type :=
| NetworkError (statusCode : Z) (msg : string)
| TimeoutError (msg : string)
| PlainError (msg : string)
| TypeError.

Inductive Settled (A : Type) : Type :=
| Fulfilled (a : A)
| Rejected (e : Failure).
Arguments Fulfilled {A} a.
Arguments Rejected {A} e.

Record World (W : Type) : Type := mkWorld {
  state : W;
  awaited : list Z;
  started : list Z
}.
Arguments mkWorld {W} state awaited started.
Arguments state {W} w.
Arguments awaited {W} w.
Arguments started {W} w.

Definition Task (W A : Type) : Type := World W -> Settled A * World W.

Definition resolve {W A} (a : A) : Task W A := fun w => (Fulfilled a, w).
Definition reject {W A} (e : Failure) : Task W A := fun w => (Rejected e, w).

(** [await m], then [k]. *)
Definition andThen {W A B} (m : Task W A) (k : A -> Task W B) : Task W B :=
  fun w =>
    match m w with
    | (Fulfilled a, w1) => k a w1
    | (Rejected e, w1) => (Rejected e, w1)
    end.

(** [await MockApiService.delay(ms)] *)
Definition await_delay {W} (ms : Z) : Task W unit :=
  fun w => (Fulfilled tt, mkWorld (state w) (awaited w ++ [ms]) (started w)).

(** [MockApiService.delay(ms)] with nothing awaiting it. *)
Definition start_delay {W} (ms : Z) (w : World W) : World W :=
  mkWorld (state w) (awaited w) (started w ++ [ms]).

(** An operation of the caller: it acts on the state and on nothing else. *)
Definition lift {W A} (operation : W -> Settled A * W) : Task W A :=
  fun w =>
    let (r, x) := operation (state w) in
    (r, mkWorld x (awaited w) (started w)).

(** The user [fetchUser] answers with for a valid id. *)
Definition user_of (i : Z) : User :=
  mkUser i ("User" ++ number_to_string i)%string
    ("user" ++ number_to_string i ++ "@example.com")%string.

(** [MockApiService.fetchUser(id, delay)] *)
Definition fetchUser {W} (i : Z) (delay : Z) : Task W User :=
  andThen (await_delay delay) (fun _ =>
    if i <=? 0 then reject (NetworkError 400 "Invalid user ID")
    else resolve (user_of i)).

(** The loop of [fetchUsersSequentially], [users] being the array so far. *)
Fixpoint fetch_each {W} (ids : list Z) (users : list User)
  : Task W (list User) :=
  match ids with
  | [] => resolve users
  | i :: rest =>
      andThen (fetchUser i 100) (fun u => fetch_each rest (users ++ [u]))
  end.

Definition fetchUsersSequentially {W} (ids : list Z) : Task W (list User) :=
  fetch_each ids [].

(** [interface RetryOptions] *)
Record RetryOptions : Type := mkOptions {
  maxRetries : Z;
  baseDelayMs : Z
}.

Definition unavailable : string := "Service temporarily unavailable".

(** The do-while loop of [withRetry], entered with [attempts] attempts
    made; [fuel] bounds the number of rounds, [None] is running out of it. *)
Fixpoint retry_loop {W T} (fuel : nat) (operation : Task W T)
    (options : RetryOptions) (attempts : Z) (w : World W)
  : option (Settled T * World W) :=
  match fuel with
  | O => None
  | S fuel' =>
      let attempts := attempts + 1 in
      match operation w with
      | (Fulfilled v, w1) => Some (Fulfilled v, w1)
      | (Rejected _, w1) =>
          let w2 :=
            start_delay (baseDelayMs options * 2 ^ (attempts - 1)) w1 in
          if attempts <=? maxRetries options then
            retry_loop fuel' operation options attempts w2
          else Some (Rejected (PlainError unavailable), w2)
      end
  end.

(** The rounds of the loop: one, and one more for each retry allowed. *)
Definition rounds (options : RetryOptions) : nat :=
  S (Z.to_nat (maxRetries options)).

Definition withRetry {W T} (operation : Task W T) (options : RetryOptions)
  : World W -> option (Settled T * World W) :=
  retry_loop (rounds options) operation options 0.

(** The [for] loop of the function [createPipeline] returns, with [n]
    rounds to go: each round calls [operations[1]]. *)
Fixpoint pipeline_loop {W A} (n : nat) (operations : list (A -> Task W A))
    (ret : A) : Task W A :=
  match n with
  | O => resolve ret
  | S n' =>
      match nth_error operations 1 with
      | Some operation =>
          andThen (operation ret) (fun r => pipeline_loop n' operations r)
      | None => reject TypeError
      end
  end.

Definition createPipeline {W A} (operations : list (A -> Task W A))
    (input : A) : Task W A :=
  match nth_error operations 0 with
  | Some operation =>
      andThen (operation input) (fun ret =>
        pipeline_loop (List.length operations - 1) operations ret)
  | None => reject TypeError
  end.

End Exercise.

(** The state after [n] runs of an operation. *)
Definition after_runs {W T} (operation : W -> Exercise.Settled T * W)
    (n : nat) (x : W) : W :=
  Nat.iter n (fun y => snd (operation y)) x.

(** The delays of the first [n] rounds of [withRetry]. *)
Definition backoff (options : Exercise.RetryOptions) (n : nat) : list Z :=
  map (fun k => Exercise.baseDelayMs options * 2 ^ Z.of_nat k)
    (List.seq 0 n).

(** [n] runs of [g], one after the other, on what [m] resolves with. *)
Definition repeated {W A} (g : A -> Exercise.Task W A) (n : nat)
    (m : Exercise.Task W A) : Exercise.Task W A :=
  Nat.iter n (fun t => Exercise.andThen t g) m.

(** An operation that counts its runs and is always rejected with a
    NetworkError. *)
Definition always_down (runs : nat)
  : Exercise.Settled string * nat :=
  (Exercise.Rejected (Exercise.NetworkError 500 Exercise.unavailable),
   S runs).

(** An operation that counts its runs: a TimeoutError, then a plain
    error, then a value. *)
Definition third_time_lucky (runs : nat)
  : Exercise.Settled string * nat :=
  (match runs with
   | O => Exercise.Rejected (Exercise.TimeoutError "Operation timed out")
   | S O => Exercise.Rejected (Exercise.PlainError "boom")
   | _ => Exercise.Fulfilled "Success!"%string
   end, S runs).

(** ** What a computation leaves alone *)

(** [frame m]: whatever its outcome, [m] leaves the table, the transaction
    state and the clock as they were. *)
Definition frame {A} (m : Async A) : Prop :=
  forall s o s',
    m s = (o, s') -> tbl s' = tbl s /\ txn s' = txn s /\ clock s' = clock s.

(** [keeps_txn m]: whatever its outcome, [m] neither opens nor ends a
    transaction. *)
Definition keeps_txn {A} (m : Async A) : Prop :=
  forall s o s', m s = (o, s') -> txn s' = txn s.

(** The errors of [createUser]: those of the store and
    [UserAlreadyExistsError]. *)
Definition store_or_already_exists (e : Error) : Prop :=
  is_store_error e \/ exists msg, e = UserAlreadyExistsError msg.

(** The request neither deletes nor updates the user [i]. *)
Definition spares (i : Z) (r : Request) : Prop :=
  match r with
  | UpdateUser j _ | DeleteUser j => j <> i
  | CreateUser _ | GetUserById _ | GetAllUsers | Tick _ => True
  end.

(** The request does not delete the user [i]. *)
Definition keeps_alive (i : Z) (r : Request) : Prop :=
  match r with
  | DeleteUser j => j <> i
  | _ => True
  end.

(** ** Proof support *)

Arguments sql_insert : simpl never.
Arguments sql_update : simpl never.
Arguments sql_delete : simpl never.
Arguments find_id : simpl never.
Arguments order_by_id : simpl never.
Arguments not_found_message : simpl never.
Arguments already_exists_message : simpl never.

Ltac run_healthy s :=
  let op := fresh "op" in
  destruct s as [op ? ? ? ? ?];
  unfold healthy in *; cbn [faults txn tbl clock opened log] in *;
  repeat match goal with H : _ /\ _ |- _ => destruct H end; subst;
  destruct op.

Ltac unfold_async :=
  unfold withTransaction, initDb, db_exec, db_run, db_get, db_all, issue,
    bind, try_catch, ret, throw, read, modify, sql_run.

(** * Properties *)

(** ** The accessors on a store in working order *)

Lemma sql_insert_code (u e p now : string) (t : Table) (f : SqlFailure) :
  sql_insert u e p now t = inl f -> code f = SQLITE_CONSTRAINT.
Proof.
  unfold sql_insert.
  destruct (existsb _ _); [intros [= <-]; reflexivity |].
  destruct (existsb _ _); [intros [= <-]; reflexivity | discriminate].
Qed.

Lemma createUser_eval (user : NewUser) (s : Store) :
  healthy s ->
  let r := createUser user s in
  let q := INSERT (new_username user) (new_email user)
             (new_password_hash user) in
  healthy (snd r) /\ clock (snd r) = clock s /\
  match sql_insert (new_username user) (new_email user)
          (new_password_hash user) (clock s) (tbl s) with
  | inl f =>
      fst r = Thrown (UserAlreadyExistsError (already_exists_message user))
      /\ tbl (snd r) = tbl s
      /\ log (snd r) = log s ++ boot s ++ [Exec BEGIN; Run q; Exec ROLLBACK]
  | inr (res, t) =>
      match find_id (lastID res) (rows t) with
      | Some u =>
          fst r = Returned u /\ tbl (snd r) = t
          /\ log (snd r) =
               log s ++ boot s
               ++ [Exec BEGIN; Run q; Get (lastID res); Exec COMMIT]
      | None =>
          fst r = Thrown (UserNotFoundError creation_failed_message)
          /\ tbl (snd r) = tbl s
          /\ log (snd r) =
               log s ++ boot s
               ++ [Exec BEGIN; Run q; Get (lastID res); Exec ROLLBACK]
      end
  end.
Proof.
  intros H. unfold createUser, create_try, create_catch.
  run_healthy s; unfold_async; cbn;
    (destruct (sql_insert _ _ _ _ _) as [f | [res t']] eqn:E; cbn;
     [ apply sql_insert_code in E; destruct f as [c m]; cbn in E; subst c;
       cbn
     | destruct (find_id _ _); cbn ];
     rewrite <- ?app_assoc; repeat split; reflexivity).
Qed.

Lemma getUserById_eval (i : Z) (s : Store) :
  faults s = [] ->
  let r := getUserById i s in
  faults (snd r) = [] /\ txn (snd r) = txn s /\ clock (snd r) = clock s
  /\ tbl (snd r) = tbl s
  /\ log (snd r) = log s ++ boot s ++ [Get i]
  /\ fst r = match find_id i (rows (tbl s)) with
             | Some u => Returned u
             | None => Thrown (UserNotFoundError (not_found_message i))
             end.
Proof.
  intros H. unfold getUserById.
  destruct s as [op t x c fl lg]; cbn in H; subst; destruct op;
    unfold_async; cbn; destruct (find_id _ _); cbn;
    rewrite <- ?app_assoc; repeat split; reflexivity.
Qed.

Lemma getAllUsers_eval (s : Store) :
  faults s = [] ->
  let r := getAllUsers s in
  faults (snd r) = [] /\ txn (snd r) = txn s /\ clock (snd r) = clock s
  /\ tbl (snd r) = tbl s
  /\ log (snd r) = log s ++ boot s ++ [All]
  /\ fst r = Returned (order_by_id (rows (tbl s))).
Proof.
  intros H. unfold getAllUsers.
  destruct s as [op t x c fl lg]; cbn in H; subst; destruct op;
    unfold_async; cbn; rewrite <- ?app_assoc; repeat split; reflexivity.
Qed.

Lemma updateUser_eval (i : Z) (updates : PartialNewUser) (s : Store) :
  healthy s ->
  let r := updateUser i updates s in
  healthy (snd r) /\ clock (snd r) = clock s /\
  match find_id i (rows (tbl s)) with
  | None =>
      fst r = Thrown (UserNotFoundError (not_found_message i))
      /\ tbl (snd r) = tbl s
      /\ log (snd r) = log s ++ boot s ++ [Exec BEGIN; Get i; Exec ROLLBACK]
  | Some current =>
      let m := merged updates current in
      let q := UPDATE (username m) (email m) (password_hash m) i in
      match sql_update (username m) (email m) (password_hash m) i (tbl s)
      with
      | inl f =>
          fst r = Thrown (StoreError f) /\ tbl (snd r) = tbl s
          /\ log (snd r) =
               log s ++ boot s ++ [Exec BEGIN; Get i; Run q; Exec ROLLBACK]
      | inr (res, t) =>
          match find_id i (rows t) with
          | Some u =>
              fst r = Returned (Some u) /\ tbl (snd r) = t
              /\ log (snd r) =
                   log s ++ boot s
                   ++ [Exec BEGIN; Get i; Run q; Get i; Exec COMMIT]
          | None =>
              fst r = Thrown (UserNotFoundError (not_found_message i))
              /\ tbl (snd r) = tbl s
              /\ log (snd r) =
                   log s ++ boot s
                   ++ [Exec BEGIN; Get i; Run q; Get i; Exec ROLLBACK]
          end
      end
  end.
Proof.
  intros H. unfold updateUser, getUserById, merged.
  run_healthy s; unfold_async; cbn;
    (destruct (find_id i (rows _)) as [cur |]; cbn;
     [ destruct (sql_update _ _ _ _ _) as [f | [res t']]; cbn;
       [ | destruct (find_id _ _); cbn ] | ];
     rewrite <- ?app_assoc; repeat split; reflexivity).
Qed.

Lemma find_id_changes (i : Z) (t : Table) (u : User) :
  find_id i (rows t) = Some u ->
  (changes (fst (sql_delete i t)) =? 0) = false.
Proof.
  unfold find_id, sql_delete. cbn. destruct t as [l sq]. cbn.
  induction l as [| v l IH]; cbn; [discriminate |].
  destruct (has_id i v); [| exact IH].
  intros _. cbn [List.length]. apply Z.eqb_neq. lia.
Qed.

Lemma deleteUser_eval (i : Z) (s : Store) :
  healthy s ->
  let r := deleteUser i s in
  healthy (snd r) /\ clock (snd r) = clock s /\
  match find_id i (rows (tbl s)) with
  | None =>
      fst r = Thrown (UserNotFoundError (not_found_message i))
      /\ tbl (snd r) = tbl s
      /\ log (snd r) = log s ++ boot s ++ [Exec BEGIN; Get i; Exec ROLLBACK]
  | Some u =>
      fst r = Returned u
      /\ tbl (snd r) = snd (sql_delete i (tbl s))
      /\ log (snd r) =
           log s ++ boot s
           ++ [Exec BEGIN; Get i; Run (DELETE i); Exec COMMIT]
  end.
Proof.
  intros H. unfold deleteUser.
  run_healthy s; unfold_async; cbn;
    (destruct (find_id i (rows _)) as [u |] eqn:E; cbn;
     [ destruct (sql_delete i _) as [res t'] eqn:D; cbn;
       pose proof (find_id_changes _ _ _ E) as C; rewrite D in C;
       cbn in C; rewrite C; cbn | ];
     rewrite <- ?app_assoc; repeat split; reflexivity).
Qed.

(** ** Facts about the table *)

Lemma has_id_true (i : Z) (u : User) : has_id i u = true <-> id u = i.
Proof. unfold has_id. apply Z.eqb_eq. Qed.

Lemma has_id_false (i : Z) (u : User) : has_id i u = false <-> id u <> i.
Proof. unfold has_id. apply Z.eqb_neq. Qed.

Lemma find_id_some (i : Z) (l : list User) (u : User) :
  find_id i l = Some u -> In u l /\ id u = i.
Proof.
  unfold find_id. intros H. apply find_some in H.
  destruct H as [H1 H2]. split; [exact H1 | now apply has_id_true].
Qed.

Lemma find_id_none (i : Z) (l : list User) :
  find_id i l = None <-> (forall u, In u l -> id u <> i).
Proof.
  unfold find_id. split.
  - intros H u Hu. apply has_id_false. exact (find_none _ _ H u Hu).
  - intros H. induction l as [| v l IH]; [reflexivity |]. cbn.
    destruct (has_id i v) eqn:E.
    + apply has_id_true in E. exfalso. apply (H v); [now left | exact E].
    + apply IH. intros u Hu. apply H. now right.
Qed.

Lemma find_id_app_fresh (i : Z) (l : list User) (u : User) :
  (forall v, In v l -> id v <> i) -> id u = i ->
  find_id i (l ++ [u]) = Some u.
Proof.
  unfold find_id. intros H E. induction l as [| v l IH]; cbn.
  - now rewrite (proj2 (has_id_true i u) E).
  - rewrite (proj2 (has_id_false i v)) by (apply H; now left).
    apply IH. intros w Hw. apply H. now right.
Qed.

Lemma find_id_unique (i : Z) (l : list User) (u : User) :
  NoDup (map id l) -> In u l -> id u = i -> find_id i l = Some u.
Proof.
  unfold find_id. intros N Hin E. subst i.
  induction l as [| v l IH]; cbn; [destruct Hin |].
  inversion N as [| ? ? Hn N']; subst. destruct Hin as [-> | Hu].
  - now rewrite (proj2 (has_id_true _ u) eq_refl).
  - destruct (has_id (id u) v) eqn:F.
    + apply has_id_true in F. exfalso. apply Hn. rewrite F.
      now apply in_map.
    + now apply IH.
Qed.

Lemma max_id_cons (v : User) (l : list User) :
  max_id (v :: l) = Z.max (id v) (max_id l).
Proof. reflexivity. Qed.

Lemma max_id_ge (l : list User) (u : User) : In u l -> id u <= max_id l.
Proof.
  induction l as [| v l IH]; [intros [] |].
  rewrite max_id_cons. intros [-> | H]; [lia | specialize (IH H); lia].
Qed.

Lemma next_id_fresh (t : Table) (u : User) : In u (rows t) -> id u <> next_id t.
Proof. intros H. apply max_id_ge in H. unfold next_id. lia. Qed.

Lemma next_id_above_seq (t : Table) : seq t < next_id t.
Proof. unfold next_id. lia. Qed.

Lemma existsb_false_iff {A} (f : A -> bool) (l : list A) :
  existsb f l = false <-> (forall x, In x l -> f x = false).
Proof.
  split.
  - intros H x Hx. destruct (f x) eqn:E; [| reflexivity].
    rewrite <- H. symmetry. apply existsb_exists. now exists x.
  - intros H. destruct (existsb f l) eqn:E; [| reflexivity].
    apply existsb_exists in E. destruct E as [x [Hx Fx]].
    now rewrite (H x Hx) in Fx.
Qed.

Lemma sql_insert_unused (u e p now : string) (t : Table) :
  unused u e (rows t) ->
  sql_insert u e p now t =
    inr (mkRun (next_id t) 1,
         mkTable (rows t ++ [mkUser (next_id t) u e p now]) (next_id t)).
Proof.
  intros H. unfold sql_insert.
  rewrite (proj2 (existsb_false_iff _ _)).
  2:{ intros r Hr. apply String.eqb_neq. now apply H. }
  rewrite (proj2 (existsb_false_iff _ _)).
  2:{ intros r Hr. apply String.eqb_neq. now apply H. }
  reflexivity.
Qed.

Lemma sql_insert_taken (u e p now : string) (t : Table) (r : User) :
  In r (rows t) -> username r = u \/ email r = e ->
  exists column, sql_insert u e p now t = inl (unique_failed column).
Proof.
  intros Hr H. unfold sql_insert.
  destruct (existsb (fun r0 => String.eqb (username r0) u) (rows t)) eqn:E1.
  - now exists "username"%string.
  - destruct (existsb (fun r0 => String.eqb (email r0) e) (rows t)) eqn:E2.
    + now exists "email"%string.
    + exfalso.
      pose proof (proj1 (existsb_false_iff _ _) E1 r Hr) as F1.
      pose proof (proj1 (existsb_false_iff _ _) E2 r Hr) as F2.
      cbn in F1, F2. apply String.eqb_neq in F1, F2. tauto.
Qed.

Lemma sql_insert_inr (u e p now : string) (t t' : Table) (res : RunResult) :
  sql_insert u e p now t = inr (res, t') ->
  unused u e (rows t)
  /\ res = mkRun (next_id t) 1
  /\ t' = mkTable (rows t ++ [mkUser (next_id t) u e p now]) (next_id t).
Proof.
  unfold sql_insert.
  destruct (existsb (fun r0 => String.eqb (username r0) u) (rows t)) eqn:E1;
    [discriminate |].
  destruct (existsb (fun r0 => String.eqb (email r0) e) (rows t)) eqn:E2;
    [discriminate |].
  intros [= <- <-]. split; [| split; reflexivity].
  intros r Hr.
  pose proof (proj1 (existsb_false_iff _ _) E1 r Hr) as F1.
  pose proof (proj1 (existsb_false_iff _ _) E2 r Hr) as F2.
  cbn in F1, F2. apply String.eqb_neq in F1, F2. tauto.
Qed.

Lemma find_id_deleted (i : Z) (t : Table) :
  find_id i (rows (snd (sql_delete i t))) = None.
Proof.
  apply find_id_none. unfold sql_delete. cbn. intros u Hu.
  apply filter_In in Hu. destruct Hu as [_ Hu].
  apply has_id_false. now destruct (has_id i u).
Qed.

(** ** ORDER BY id *)

Lemma insert_by_id_perm (u : User) (l : list User) :
  Permutation (insert_by_id u l) (u :: l).
Proof.
  induction l as [| v l IH]; cbn; [apply Permutation_refl |].
  destruct (id u <=? id v); [apply Permutation_refl |].
  eapply perm_trans; [apply perm_skip, IH | apply perm_swap].
Qed.

Lemma order_by_id_perm (l : list User) : Permutation (order_by_id l) l.
Proof.
  unfold order_by_id. induction l as [| u l IH]; cbn; [constructor |].
  eapply perm_trans; [apply insert_by_id_perm | now apply perm_skip].
Qed.

Lemma insert_by_id_hd (a u : User) (l : list User) :
  id_le a u -> HdRel id_le a l -> HdRel id_le a (insert_by_id u l).
Proof.
  intros Hu Hl. destruct l as [| v l]; cbn; [now constructor |].
  destruct (id u <=? id v); constructor; [exact Hu |].
  now inversion Hl.
Qed.

Lemma insert_by_id_sorted (u : User) (l : list User) :
  Sorted id_le l -> Sorted id_le (insert_by_id u l).
Proof.
  induction l as [| v l IH]; cbn; intros S.
  - repeat constructor.
  - inversion S as [| ? ? S' H]; subst.
    destruct (Z.leb_spec (id u) (id v)) as [L | L].
    + constructor; [exact S |]. now constructor.
    + constructor; [now apply IH |].
      apply insert_by_id_hd; [unfold id_le; lia | exact H].
Qed.

Lemma order_by_id_sorted (l : list User) : Sorted id_le (order_by_id l).
Proof.
  unfold order_by_id. induction l as [| u l IH]; cbn; [constructor |].
  now apply insert_by_id_sorted.
Qed.

(** Every row of the result has an id at most that of every later row. *)
Lemma order_by_id_ascending (l : list User) :
  StronglySorted id_le (order_by_id l).
Proof.
  apply Sorted_StronglySorted; [| apply order_by_id_sorted].
  intros x y z. unfold id_le. lia.
Qed.

Lemma insert_by_id_comm (a b : User) (l : list User) :
  id a <> id b ->
  insert_by_id a (insert_by_id b l) = insert_by_id b (insert_by_id a l).
Proof.
  intros N. induction l as [| v l IH]; cbn.
  - destruct (Z.leb_spec (id a) (id b)), (Z.leb_spec (id b) (id a));
      try reflexivity; lia.
  - destruct (Z.leb_spec (id b) (id v)) as [Lb | Lb],
             (Z.leb_spec (id a) (id v)) as [La | La]; cbn.
    + destruct (Z.leb_spec (id a) (id b)), (Z.leb_spec (id b) (id a));
        try lia;
        repeat match goal with
               | |- context [id ?x <=? id ?y] =>
                   destruct (Z.leb_spec (id x) (id y)); try lia
               end; reflexivity.
    + repeat match goal with
             | |- context [id ?x <=? id ?y] =>
                 destruct (Z.leb_spec (id x) (id y)); try lia
             end; reflexivity.
    + repeat match goal with
             | |- context [id ?x <=? id ?y] =>
                 destruct (Z.leb_spec (id x) (id y)); try lia
             end; reflexivity.
    + repeat match goal with
             | |- context [id ?x <=? id ?y] =>
                 destruct (Z.leb_spec (id x) (id y)); try lia
             end. now rewrite IH.
Qed.

(** With ids that are all different, the order the rows are stored in does
    not show in the result. *)
Lemma order_by_id_storage (l l' : list User) :
  Permutation l l' -> NoDup (map id l) -> order_by_id l = order_by_id l'.
Proof.
  unfold order_by_id.
  induction 1 as [| x l l' P IH | x y l | l l' l'' P1 IH1 P2 IH2];
    intros N; cbn.
  - reflexivity.
  - inversion N; subst. now rewrite IH.
  - inversion N as [| ? ? Hn N']; subst. apply insert_by_id_comm.
    intros E. apply Hn. cbn. left. now symmetry.
  - rewrite IH1 by exact N. apply IH2.
    eapply Permutation_NoDup; [| exact N]. now apply Permutation_map.
Qed.

(** ** UPDATE *)

Lemma rewrite_row_id (i : Z) (u e p : string) (r : User) :
  id (rewrite_row i u e p r) = id r.
Proof. unfold rewrite_row. now destruct (has_id i r). Qed.

Lemma find_id_existsb (i : Z) (l : list User) (cur : User) :
  find_id i l = Some cur -> existsb (has_id i) l = true.
Proof.
  intros H. apply find_id_some in H. destruct H as [H1 H2].
  apply existsb_exists. exists cur. split; [exact H1 | now apply has_id_true].
Qed.

Lemma find_id_existsb_none (i : Z) (l : list User) :
  find_id i l = None -> existsb (has_id i) l = false.
Proof.
  intros H. apply existsb_false_iff. intros u Hu. apply has_id_false.
  now apply (proj1 (find_id_none i l) H).
Qed.

Lemma sql_update_free (u e p : string) (i : Z) (t : Table) (cur : User) :
  find_id i (rows t) = Some cur ->
  unused_by_others i u e (rows t) ->
  sql_update u e p i t =
    inr (mkRun 0 (Z.of_nat (List.length (filter (has_id i) (rows t)))),
         mkTable (map (rewrite_row i u e p) (rows t)) (seq t)).
Proof.
  intros F H. unfold sql_update.
  rewrite (find_id_existsb _ _ _ F). cbn [negb].
  rewrite (proj2 (existsb_false_iff _ _)).
  2:{ intros r Hr. destruct (has_id i r) eqn:E; [reflexivity |]. cbn.
      apply has_id_false in E. apply String.eqb_neq. now apply (H r). }
  rewrite (proj2 (existsb_false_iff _ _)).
  2:{ intros r Hr. destruct (has_id i r) eqn:E; [reflexivity |]. cbn.
      apply has_id_false in E. apply String.eqb_neq. now apply (H r). }
  reflexivity.
Qed.

Lemma sql_update_taken (u e p : string) (i : Z) (t : Table) (cur r : User) :
  find_id i (rows t) = Some cur ->
  In r (rows t) -> id r <> i -> username r = u \/ email r = e ->
  exists column, sql_update u e p i t = inl (unique_failed column).
Proof.
  intros F Hr Hi H. unfold sql_update.
  rewrite (find_id_existsb _ _ _ F). cbn [negb].
  destruct (existsb (fun r0 => negb (has_id i r0)
                               && String.eqb (username r0) u) (rows t)) eqn:E1.
  - now exists "username"%string.
  - destruct (existsb (fun r0 => negb (has_id i r0)
                                 && String.eqb (email r0) e) (rows t)) eqn:E2.
    + now exists "email"%string.
    + exfalso.
      pose proof (proj1 (existsb_false_iff _ _) E1 r Hr) as F1.
      pose proof (proj1 (existsb_false_iff _ _) E2 r Hr) as F2.
      cbn in F1, F2. rewrite (proj2 (has_id_false i r) Hi) in F1, F2.
      cbn in F1, F2. apply String.eqb_neq in F1, F2. tauto.
Qed.

Lemma sql_update_inr (u e p : string) (i : Z) (t t' : Table)
    (res : RunResult) (cur : User) :
  find_id i (rows t) = Some cur ->
  sql_update u e p i t = inr (res, t') ->
  unused_by_others i u e (rows t)
  /\ t' = mkTable (map (rewrite_row i u e p) (rows t)) (seq t).
Proof.
  intros F. unfold sql_update.
  rewrite (find_id_existsb _ _ _ F). cbn [negb].
  destruct (existsb (fun r0 => negb (has_id i r0)
                               && String.eqb (username r0) u) (rows t)) eqn:E1;
    [discriminate |].
  destruct (existsb (fun r0 => negb (has_id i r0)
                               && String.eqb (email r0) e) (rows t)) eqn:E2;
    [discriminate |].
  intros [= <- <-]. split; [| reflexivity].
  intros r Hr Hi.
  pose proof (proj1 (existsb_false_iff _ _) E1 r Hr) as F1.
  pose proof (proj1 (existsb_false_iff _ _) E2 r Hr) as F2.
  cbn in F1, F2. rewrite (proj2 (has_id_false i r) Hi) in F1, F2.
  cbn in F1, F2. apply String.eqb_neq in F1, F2. tauto.
Qed.

Lemma sql_update_absent (u e p : string) (i : Z) (t : Table) :
  find_id i (rows t) = None ->
  sql_update u e p i t = inr (mkRun 0 0, t).
Proof.
  intros F. unfold sql_update.
  now rewrite (find_id_existsb_none _ _ F).
Qed.

Lemma find_id_rewritten (i : Z) (u e p : string) (l : list User) (cur : User) :
  find_id i l = Some cur ->
  find_id i (map (rewrite_row i u e p) l) = Some (set_fields u e p cur).
Proof.
  unfold find_id. induction l as [| v l IH]; [discriminate |].
  cbn [map find].
  assert (K : has_id i (rewrite_row i u e p v) = has_id i v)
    by (unfold has_id; now rewrite rewrite_row_id).
  rewrite K. destruct (has_id i v) eqn:E.
  - intros [= ->]. unfold rewrite_row. now rewrite E.
  - exact IH.
Qed.

Lemma rewrite_row_others (i : Z) (u e p : string) (l : list User) (r : User) :
  id r <> i -> (In r (map (rewrite_row i u e p) l) <-> In r l).
Proof.
  intros N. rewrite in_map_iff. split.
  - intros [x [Hx Hin]]. unfold rewrite_row in Hx.
    destruct (has_id i x) eqn:E.
    + apply has_id_true in E. subst r. cbn in N. contradiction.
    + now subst x.
  - intros Hin. exists r. split; [| exact Hin]. unfold rewrite_row.
    now rewrite (proj2 (has_id_false i r) N).
Qed.

(** ** The constraints of the schema *)

Lemma NoDup_map_eq {A B} (f : A -> B) (l : list A) (a b : A) :
  NoDup (map f l) -> In a l -> In b l -> f a = f b -> a = b.
Proof.
  induction l as [| x l IH]; cbn; [tauto |].
  intros N Ha Hb E. inversion N as [| ? ? Hn N']; subst.
  destruct Ha as [-> | Ha], Hb as [-> | Hb].
  - reflexivity.
  - exfalso. apply Hn. rewrite E. now apply in_map.
  - exfalso. apply Hn. rewrite <- E. now apply in_map.
  - now apply IH.
Qed.

Lemma NoDup_map_snoc {A B} (f : A -> B) (l : list A) (x : A) :
  NoDup (map f l) -> (forall a, In a l -> f a <> f x) ->
  NoDup (map f (l ++ [x])).
Proof.
  induction l as [| y l IH]; cbn; intros N H.
  - constructor; [intros [] | constructor].
  - inversion N as [| ? ? Hn N']; subst. constructor.
    + rewrite map_app, in_app_iff. cbn. intros [K | [K | []]].
      * now apply Hn.
      * apply (H y); [now left | now symmetry].
    + apply IH; [exact N' |]. intros a Ha. apply H. now right.
Qed.

Lemma NoDup_map_filter {A B} (f : A -> B) (g : A -> bool) (l : list A) :
  NoDup (map f l) -> NoDup (map f (filter g l)).
Proof.
  induction l as [| y l IH]; cbn; intros N; [constructor |].
  inversion N as [| ? ? Hn N']; subst.
  destruct (g y); cbn; [| now apply IH].
  constructor; [| now apply IH].
  rewrite in_map_iff. intros [a [Ea Ha]]. apply Hn.
  rewrite <- Ea. apply in_map. apply filter_In in Ha. tauto.
Qed.

(** Rewriting the row with id [i] keeps a column free of duplicates when
    no other row holds the new value. *)
Lemma NoDup_map_rewrite (f : User -> string) (g : User -> User) (i : Z)
    (x : string) (l : list User) :
  (forall r, has_id i r = true -> f (g r) = x) ->
  (forall r, has_id i r = false -> g r = r) ->
  NoDup (map id l) -> NoDup (map f l) ->
  (forall r, In r l -> id r <> i -> f r <> x) ->
  NoDup (map f (map g l)).
Proof.
  intros G1 G2. induction l as [| v l IH]; cbn; intros Ni Nf H;
    [constructor |].
  inversion Ni as [| ? ? Hi Ni']; inversion Nf as [| ? ? Hf Nf']; subst.
  constructor.
  - rewrite map_map, in_map_iff. intros [r [Er Hr]].
    destruct (has_id i v) eqn:Ev, (has_id i r) eqn:Erid.
    + apply has_id_true in Ev, Erid. apply Hi. rewrite Ev, <- Erid.
      now apply in_map.
    + rewrite (G2 r Erid), (G1 v Ev) in Er. apply has_id_false in Erid.
      apply (H r); [now right | exact Erid | exact Er].
    + rewrite (G1 r Erid), (G2 v Ev) in Er. apply has_id_false in Ev.
      apply (H v); [now left | exact Ev | now symmetry].
    + rewrite (G2 r Erid), (G2 v Ev) in Er. apply Hf. rewrite <- Er.
      now apply in_map.
  - apply IH; [exact Ni' | exact Nf' |]. intros r Hr. apply H. now right.
Qed.

Lemma integrity_empty : integrity (mkTable [] 0).
Proof. repeat split; cbn; try constructor. intros r []. Qed.

Lemma integrity_insert (u e p now : string) (t t' : Table) (res : RunResult) :
  integrity t -> sql_insert u e p now t = inr (res, t') -> integrity t'.
Proof.
  intros [Ni [Nu [Ne Hs]]] E. apply sql_insert_inr in E.
  destruct E as [U [_ ->]]. unfold integrity. cbn [rows seq].
  split; [| split; [| split]].
  - apply NoDup_map_snoc; [exact Ni |]. intros a Ha. cbn.
    now apply next_id_fresh.
  - apply NoDup_map_snoc; [exact Nu |]. intros a Ha. cbn. now apply U.
  - apply NoDup_map_snoc; [exact Ne |]. intros a Ha. cbn. now apply U.
  - intros r Hr. cbn [seq]. apply in_app_iff in Hr.
    destruct Hr as [Hr | [<- | []]].
    + specialize (Hs r Hr). pose proof (next_id_above_seq t). lia.
    + cbn [id]. lia.
Qed.

Lemma integrity_update (u e p : string) (i : Z) (t t' : Table)
    (res : RunResult) :
  integrity t -> sql_update u e p i t = inr (res, t') -> integrity t'.
Proof.
  intros I E. destruct (find_id i (rows t)) as [cur |] eqn:F.
  - destruct (sql_update_inr _ _ _ _ _ _ _ _ F E) as [U ->].
    destruct I as [Ni [Nu [Ne Hs]]]. unfold integrity. cbn [rows seq].
    split; [| split; [| split]].
    + rewrite map_map.
      rewrite (map_ext _ id (fun r => rewrite_row_id i u e p r)). exact Ni.
    + apply (NoDup_map_rewrite username _ i u); try assumption.
      * intros r Hr. unfold rewrite_row. now rewrite Hr.
      * intros r Hr. unfold rewrite_row. now rewrite Hr.
      * intros r Hr Hi. now apply (U r).
    + apply (NoDup_map_rewrite email _ i e); try assumption.
      * intros r Hr. unfold rewrite_row. now rewrite Hr.
      * intros r Hr. unfold rewrite_row. now rewrite Hr.
      * intros r Hr Hi. now apply (U r).
    + intros r Hr. apply in_map_iff in Hr. destruct Hr as [x [<- Hx]].
      rewrite rewrite_row_id. now apply Hs.
  - rewrite (sql_update_absent _ _ _ _ _ F) in E. now inversion E; subst.
Qed.

Lemma integrity_delete (i : Z) (t : Table) :
  integrity t -> integrity (snd (sql_delete i t)).
Proof.
  intros [Ni [Nu [Ne Hs]]]. unfold sql_delete, integrity.
  cbn [snd rows seq].
  repeat split; try now apply NoDup_map_filter.
  intros r Hr. apply filter_In in Hr. now apply Hs.
Qed.

(** ** Reasoning about computations on any store *)

Lemma bind_returned {A B} (m : Async A) (k : A -> Async B) s v s' :
  bind m k s = (Returned v, s') ->
  exists a s1, m s = (Returned a, s1) /\ k a s1 = (Returned v, s').
Proof.
  unfold bind. destruct (m s) as [[a | e] s1]; [| discriminate].
  intros H. now exists a, s1.
Qed.

Lemma bind_thrown {A B} (m : Async A) (k : A -> Async B) s e s' :
  bind m k s = (Thrown e, s') ->
  m s = (Thrown e, s')
  \/ exists a s1, m s = (Returned a, s1) /\ k a s1 = (Thrown e, s').
Proof.
  unfold bind. destruct (m s) as [[a | e0] s1]; intros H.
  - right. now exists a, s1.
  - left. now injection H as -> ->.
Qed.

Lemma bind_step {A B} (m : Async A) (k : A -> Async B) s a s1 :
  m s = (Returned a, s1) -> bind m k s = k a s1.
Proof. unfold bind. now intros ->. Qed.

Lemma bind_fail {A B} (m : Async A) (k : A -> Async B) s e s1 :
  m s = (Thrown e, s1) -> bind m k s = (Thrown e, s1).
Proof. unfold bind. now intros ->. Qed.

Lemma try_catch_step {A} (m : Async A) (h : Error -> Async A) s a s1 :
  m s = (Returned a, s1) -> try_catch m h s = (Returned a, s1).
Proof. unfold try_catch. now intros ->. Qed.

Lemma try_catch_fail {A} (m : Async A) (h : Error -> Async A) s e s1 :
  m s = (Thrown e, s1) -> try_catch m h s = h e s1.
Proof. unfold try_catch. now intros ->. Qed.

Lemma raises_ret {A} (P : Error -> Prop) (a : A) : raises P (ret a).
Proof. intros s e s'. discriminate. Qed.

Lemma raises_throw {A} (P : Error -> Prop) (e : Error) :
  P e -> raises P (@throw A e).
Proof. intros H s e' s'. unfold throw. now intros [= <- _]. Qed.

Lemma raises_bind {A B} (P : Error -> Prop) (m : Async A) (k : A -> Async B) :
  raises P m -> (forall a, raises P (k a)) -> raises P (bind m k).
Proof.
  intros Hm Hk s e s' H. apply bind_thrown in H.
  destruct H as [H | [a [s1 [_ H]]]];
    [exact (Hm _ _ _ H) | exact (Hk _ _ _ _ H)].
Qed.

Lemma raises_try_catch {A} (P : Error -> Prop) (m : Async A)
    (h : Error -> Async A) :
  (forall e, raises P (h e)) -> raises P (try_catch m h).
Proof.
  intros Hh s e s'. unfold try_catch.
  destruct (m s) as [[a | e0] s1]; [discriminate | apply Hh].
Qed.

Lemma raises_weaken {A} (P Q : Error -> Prop) (m : Async A) :
  (forall e, P e -> Q e) -> raises P m -> raises Q m.
Proof. intros H Hm s e s' E. apply H. exact (Hm _ _ _ E). Qed.

Lemma raises_issue (c : Call) : raises is_store_error (issue c).
Proof.
  intros s e s'. unfold issue.
  destruct (faults (add_log c s)) as [| [f |] l]; try discriminate.
  intros [= <- _]. now exists f.
Qed.

Lemma raises_db_exec (q : ExecSql) : raises is_store_error (db_exec q).
Proof.
  unfold db_exec. apply raises_bind; [apply raises_issue |].
  intros _ s e s'. destruct q; [discriminate | | |];
    destruct (txn s); try discriminate; intros [= <- _]; eexists; reflexivity.
Qed.

Lemma raises_db_run (q : RunSql) : raises is_store_error (db_run q).
Proof.
  unfold db_run. apply raises_bind; [apply raises_issue |].
  intros _ s e s'. destruct (sql_run q (clock s) (tbl s)) as [f | [r t]];
    [| discriminate].
  intros [= <- _]. now exists f.
Qed.

Lemma raises_db_get (i : Z) : raises is_store_error (db_get i).
Proof.
  unfold db_get. apply raises_bind; [apply raises_issue |].
  intros _ s e s'. discriminate.
Qed.

Lemma raises_initDb : raises is_store_error initDb.
Proof.
  intros s e s'. unfold initDb. destruct (opened s); [discriminate |].
  revert s e s'. apply raises_bind; [apply raises_issue |]. intros _.
  apply raises_bind; [intros s e s'; discriminate |]. intros _.
  apply raises_db_exec.
Qed.

Lemma raises_withTransaction {T} (P : Error -> Prop) (fn : Async T) :
  (forall e, is_store_error e -> P e) -> raises P fn ->
  raises P (withTransaction fn).
Proof.
  intros HP Hfn. unfold withTransaction.
  apply raises_bind.
  { eapply raises_weaken; [exact HP | apply raises_db_exec]. }
  intros _ s e s'. unfold try_catch.
  destruct (bind fn _ s) as [[a | e0] s1] eqn:E; [discriminate |].
  intros H. apply bind_thrown in H. destruct H as [H | [a [s2 [_ H]]]].
  - apply HP. exact (raises_db_exec _ _ _ _ H).
  - unfold throw in H. injection H as <- _.
    revert E. revert s e0 s1. apply raises_bind; [exact Hfn |].
    intros a0. apply raises_bind.
    + eapply raises_weaken; [exact HP | apply raises_db_exec].
    + intros _. apply raises_ret.
Qed.

(** What [db.exec] does when it goes through. *)
Lemma db_exec_returned (q : ExecSql) (s s' : Store) :
  db_exec q s = (Returned tt, s') ->
  log s' = log s ++ [Exec q]
  /\ clock s' = clock s
  /\ match q with
     | CREATE_TABLE => tbl s' = tbl s /\ txn s' = txn s
     | BEGIN => txn s = None /\ tbl s' = tbl s /\ txn s' = Some (tbl s)
     | COMMIT => txn s <> None /\ tbl s' = tbl s /\ txn s' = None
     | ROLLBACK => txn s = Some (tbl s') /\ txn s' = None
     end.
Proof.
  unfold db_exec, bind, issue.
  destruct s as [op t x c fl lg]. cbn.
  destruct fl as [| [f |] l]; cbn; try discriminate;
    destruct q; cbn; try (destruct x; try discriminate);
    intros [= <-]; cbn; repeat split; congruence.
Qed.

Lemma db_exec_thrown (q : ExecSql) (s s' : Store) (e : Error) :
  db_exec q s = (Thrown e, s') ->
  log s' = log s ++ [Exec q] /\ tbl s' = tbl s /\ txn s' = txn s.
Proof.
  unfold db_exec, bind, issue.
  destruct s as [op t x c fl lg]. cbn.
  destruct fl as [| [f |] l]; cbn;
    destruct q; cbn; try (destruct x); try discriminate;
    intros [= <- <-]; cbn; repeat split; congruence.
Qed.

(** ** withTransaction *)

Lemma withTransaction_begin_fails {T} (fn : Async T) (s s1 : Store) e :
  db_exec BEGIN s = (Thrown e, s1) -> withTransaction fn s = (Thrown e, s1).
Proof. intros H. unfold withTransaction. now apply bind_fail. Qed.

Lemma withTransaction_commit_fails {T} (fn : Async T) (s s1 s2 s3 : Store)
    (v : T) (e : Error) :
  db_exec BEGIN s = (Returned tt, s1) ->
  fn s1 = (Returned v, s2) ->
  db_exec COMMIT s2 = (Thrown e, s3) ->
  withTransaction fn s = bind (db_exec ROLLBACK) (fun _ => throw e) s3.
Proof.
  intros B F C. unfold withTransaction. rewrite (bind_step _ _ _ _ _ B).
  rewrite (try_catch_fail _ _ _ e s3); [reflexivity |].
  rewrite (bind_step _ _ _ _ _ F). now apply bind_fail.
Qed.

Lemma withTransaction_commits {T} (fn : Async T) (s s1 s2 s3 : Store) (v : T) :
  db_exec BEGIN s = (Returned tt, s1) ->
  fn s1 = (Returned v, s2) ->
  db_exec COMMIT s2 = (Returned tt, s3) ->
  withTransaction fn s = (Returned v, s3).
Proof.
  intros B F C. unfold withTransaction. rewrite (bind_step _ _ _ _ _ B).
  apply try_catch_step. rewrite (bind_step _ _ _ _ _ F).
  now rewrite (bind_step _ _ _ _ _ C).
Qed.

Lemma withTransaction_rolls_back {T} (fn : Async T) (s s1 s2 s3 : Store)
    (e : Error) :
  db_exec BEGIN s = (Returned tt, s1) ->
  fn s1 = (Thrown e, s2) ->
  db_exec ROLLBACK s2 = (Returned tt, s3) ->
  withTransaction fn s = (Thrown e, s3).
Proof.
  intros B F R. unfold withTransaction. rewrite (bind_step _ _ _ _ _ B).
  rewrite (try_catch_fail _ _ _ e s2) by now apply bind_fail.
  now rewrite (bind_step _ _ _ _ _ R).
Qed.

Lemma withTransaction_rollback_fails {T} (fn : Async T) (s s1 s2 s3 : Store)
    (e e' : Error) :
  db_exec BEGIN s = (Returned tt, s1) ->
  fn s1 = (Thrown e, s2) ->
  db_exec ROLLBACK s2 = (Thrown e', s3) ->
  withTransaction fn s = (Thrown e', s3).
Proof.
  intros B F R. unfold withTransaction. rewrite (bind_step _ _ _ _ _ B).
  rewrite (try_catch_fail _ _ _ e s2) by now apply bind_fail.
  now apply bind_fail.
Qed.

(** C7, as the code has it: after a BEGIN that went through,
    [withTransaction] runs the operation; when the operation returns it
    issues COMMIT and returns the operation's result; when the operation
    throws it issues ROLLBACK, and then throws the operation's error
    unchanged if the ROLLBACK went through (the table is back at its content
    at BEGIN), but throws the ROLLBACK's own failure in its place if the
    ROLLBACK was rejected. *)
Theorem withTransaction_bracket {T} (fn : Async T) (s s1 : Store) :
  db_exec BEGIN s = (Returned tt, s1) ->
  log s1 = log s ++ [Exec BEGIN]
  /\ (forall v s2 s3,
        fn s1 = (Returned v, s2) ->
        db_exec COMMIT s2 = (Returned tt, s3) ->
        withTransaction fn s = (Returned v, s3)
        /\ log s3 = log s2 ++ [Exec COMMIT]
        /\ tbl s3 = tbl s2)
  /\ (forall e s2 s3,
        fn s1 = (Thrown e, s2) ->
        db_exec ROLLBACK s2 = (Returned tt, s3) ->
        withTransaction fn s = (Thrown e, s3)
        /\ log s3 = log s2 ++ [Exec ROLLBACK]
        /\ txn s2 = Some (tbl s3))
  /\ (forall e s2 e' s3,
        fn s1 = (Thrown e, s2) ->
        db_exec ROLLBACK s2 = (Thrown e', s3) ->
        withTransaction fn s = (Thrown e', s3)
        /\ log s3 = log s2 ++ [Exec ROLLBACK]
        /\ tbl s3 = tbl s2).
Proof.
  intros B. split; [apply (db_exec_returned _ _ _ B) |].
  split; [| split].
  - intros v s2 s3 F C.
    destruct (db_exec_returned _ _ _ C) as [L [_ [_ [K _]]]].
    split; [| now split]. exact (withTransaction_commits _ _ _ _ _ _ B F C).
  - intros e s2 s3 F R. destruct (db_exec_returned _ _ _ R) as [L [_ [K _]]].
    split; [| now split].
    exact (withTransaction_rolls_back _ _ _ _ _ _ B F R).
  - intros e s2 e' s3 F R. destruct (db_exec_thrown _ _ _ _ R) as [L [K _]].
    split; [| now split].
    exact (withTransaction_rollback_fails _ _ _ _ _ _ _ B F R).
Qed.

Lemma withTransaction_bracket_witness :
  withTransaction failing_operation (fresh_store [])
  = (Thrown (UserNotFoundError (not_found_message 7)),
     mkStore true (mkTable [] 0) None clock0 []
       [Exec BEGIN; Exec ROLLBACK]).
Proof.
  refine (proj1 (proj1 (proj2 (proj2
    (withTransaction_bracket failing_operation (fresh_store []) _ _)))
    _ _ _ _ _)); reflexivity.
Defined.

(** C7 as the spec words it fails where the ROLLBACK is rejected: the
    operation's error is lost and the ROLLBACK's failure is thrown. *)
Lemma withTransaction_rollback_rejected :
  let s := fresh_store [None; Some disk_io] in
  let original := UserNotFoundError (not_found_message 7) in
  (exists s1,
      db_exec BEGIN s = (Returned tt, s1)
      /\ failing_operation s1 = (Thrown original, s1))
  /\ fst (withTransaction failing_operation s) = Thrown (StoreError disk_io)
  /\ fst (withTransaction failing_operation s) <> Thrown original
  /\ log (snd (withTransaction failing_operation s))
     = [Exec BEGIN; Exec ROLLBACK].
Proof.
  cbn zeta. split; [| split; [| split]].
  - eexists. split; reflexivity.
  - reflexivity.
  - discriminate.
  - reflexivity.
Qed.

(** The same loss without any failure of the store: an operation that ends
    the transaction itself before it throws. *)
Example withTransaction_rollback_without_transaction :
  let operation : Async User :=
    db_exec COMMIT ;; throw (UserNotFoundError (not_found_message 7)) in
  fst (withTransaction operation (fresh_store []))
  = Thrown (StoreError (no_transaction "rollback")).
Proof. reflexivity. Qed.

(** ** createUser *)

Lemma string_app_assoc (a b c : string) :
  ((a ++ b) ++ c = a ++ (b ++ c))%string.
Proof. induction a as [| x a IH]; cbn; [reflexivity | now rewrite IH]. Qed.

Lemma already_exists_message_mentions (user : NewUser) :
  mentions (already_exists_message user) (new_username user)
  /\ mentions (already_exists_message user) (new_email user).
Proof.
  unfold already_exists_message, mentions. split.
  - exists ("User with username " ++ dquote)%string. eexists.
    rewrite string_app_assoc. reflexivity.
  - exists ("User with username " ++ dquote ++ new_username user ++ dquote
            ++ " or email " ++ dquote)%string. eexists.
    rewrite !string_app_assoc. reflexivity.
Qed.

Lemma create_catch_constraint (user : NewUser) (e : Error) (s : Store) :
  has_code e SQLITE_CONSTRAINT = true ->
  create_catch user e s
  = (Thrown (UserAlreadyExistsError (already_exists_message user)), s).
Proof. unfold create_catch. now intros ->. Qed.

Lemma create_catch_other (user : NewUser) (e : Error) (s : Store) :
  has_code e SQLITE_CONSTRAINT = false ->
  create_catch user e s = (Thrown e, s).
Proof. unfold create_catch. now intros ->. Qed.

Lemma createUser_unused (user : NewUser) (s : Store) :
  healthy s ->
  unused (new_username user) (new_email user) (rows (tbl s)) ->
  let r := createUser user s in
  let u := created user (tbl s) (clock s) in
  fst r = Returned u
  /\ healthy (snd r) /\ clock (snd r) = clock s
  /\ tbl (snd r) = mkTable (rows (tbl s) ++ [u]) (id u)
  /\ log (snd r) =
       log s ++ boot s
       ++ [Exec BEGIN; Run (insert_of user); Get (id u); Exec COMMIT].
Proof.
  intros H U. pose proof (createUser_eval user s H) as E. cbn zeta in E |- *.
  rewrite (sql_insert_unused _ _ _ _ _ U) in E. cbn [lastID rows] in E.
  rewrite (find_id_app_fresh (next_id (tbl s)) (rows (tbl s))) in E.
  - destruct E as [E1 [E2 [E3 [E4 E5]]]].
    split; [exact E3 |]. split; [exact E1 |]. split; [exact E2 |].
    split; [exact E4 | exact E5].
  - intros v Hv. now apply next_id_fresh.
  - reflexivity.
Qed.

Lemma createUser_taken (user : NewUser) (s : Store) (r : User) :
  healthy s -> In r (rows (tbl s)) ->
  username r = new_username user \/ email r = new_email user ->
  let o := createUser user s in
  fst o = Thrown (UserAlreadyExistsError (already_exists_message user))
  /\ healthy (snd o) /\ clock (snd o) = clock s /\ tbl (snd o) = tbl s
  /\ log (snd o) =
       log s ++ boot s ++ [Exec BEGIN; Run (insert_of user); Exec ROLLBACK].
Proof.
  intros H Hr T. pose proof (createUser_eval user s H) as E.
  cbn zeta in E |- *.
  destruct (sql_insert_taken _ _ (new_password_hash user) (clock s) _ _ Hr T)
    as [column K].
  rewrite K in E. destruct E as [E1 [E2 [E3 [E4 E5]]]].
  split; [exact E3 |]. split; [exact E1 |]. split; [exact E2 |].
  split; [exact E4 | exact E5].
Qed.

Lemma createUser_returned (user : NewUser) (s s1 : Store) (u : User) :
  healthy s -> createUser user s = (Returned u, s1) ->
  unused (new_username user) (new_email user) (rows (tbl s))
  /\ u = created user (tbl s) (clock s)
  /\ healthy s1
  /\ tbl s1 = mkTable (rows (tbl s) ++ [u]) (id u).
Proof.
  intros H R. pose proof (createUser_eval user s H) as E. cbn zeta in E.
  rewrite R in E. cbn [fst snd] in E.
  destruct (sql_insert _ _ _ _ _) as [f | [res t]] eqn:I.
  - destruct E as [_ [_ [E _]]]. discriminate.
  - destruct (sql_insert_inr _ _ _ _ _ _ _ I) as [U _].
    pose proof (createUser_unused user s H U) as K. cbn zeta in K.
    rewrite R in K. cbn [fst snd] in K.
    destruct K as [K1 [K2 [_ [K3 _]]]]. injection K1 as ->.
    split; [exact U |]. split; [reflexivity |]. split; [exact K2 | exact K3].
Qed.

Lemma createUser_after_initDb (user : NewUser) (s s0 : Store) :
  initDb s = (Returned tt, s0) ->
  createUser user s
  = withTransaction (try_catch (create_try user) (create_catch user)) s0.
Proof. intros I. unfold createUser. now rewrite (bind_step _ _ _ _ _ I). Qed.

Lemma create_try_thrown (user : NewUser) (s1 s2 : Store) (e : Error) :
  db_run (insert_of user) s1 = (Thrown e, s2)
  \/ (exists res s',
         db_run (insert_of user) s1 = (Returned res, s')
         /\ db_get (lastID res) s' = (Thrown e, s2)) ->
  create_try user s1 = (Thrown e, s2).
Proof.
  unfold create_try. fold (insert_of user).
  intros [R | [res [s' [R G]]]].
  - now apply bind_fail.
  - rewrite (bind_step _ _ _ _ _ R). now apply bind_fail.
Qed.

(** C9: whatever the insertion or the read-back of [createUser] is rejected
    with, if it carries the code SQLITE_CONSTRAINT (the failure of a UNIQUE
    constraint, of a NOT NULL constraint, or of anything else that has the
    code) the body of the transaction throws [UserAlreadyExistsError] in its
    place, and that is what [createUser] throws once the ROLLBACK has gone
    through. *)
Theorem createUser_remaps_constraint_code
    (user : NewUser) (s s0 s1 s2 : Store) (e : Error) :
  initDb s = (Returned tt, s0) ->
  db_exec BEGIN s0 = (Returned tt, s1) ->
  has_code e SQLITE_CONSTRAINT = true ->
  (db_run (insert_of user) s1 = (Thrown e, s2)
   \/ exists res s',
        db_run (insert_of user) s1 = (Returned res, s')
        /\ db_get (lastID res) s' = (Thrown e, s2)) ->
  try_catch (create_try user) (create_catch user) s1
  = (Thrown (UserAlreadyExistsError (already_exists_message user)), s2)
  /\ forall s3,
       db_exec ROLLBACK s2 = (Returned tt, s3) ->
       createUser user s
       = (Thrown (UserAlreadyExistsError (already_exists_message user)), s3).
Proof.
  intros I B C T. apply create_try_thrown in T.
  assert (K : try_catch (create_try user) (create_catch user) s1
              = (Thrown (UserAlreadyExistsError (already_exists_message user)),
                 s2)).
  { rewrite (try_catch_fail _ _ _ _ _ T). now apply create_catch_constraint. }
  split; [exact K |]. intros s3 R.
  rewrite (createUser_after_initDb _ _ _ I).
  exact (withTransaction_rolls_back _ _ _ _ _ _ B K R).
Qed.

(** A NOT NULL failure of the insertion comes out as
    [UserAlreadyExistsError]. *)
Lemma createUser_remaps_constraint_code_witness :
  createUser alice (fresh_store [None; Some (not_null_failed "username")])
  = (Thrown (UserAlreadyExistsError (already_exists_message alice)),
     mkStore true (mkTable [] 0) None clock0 []
       [Exec BEGIN; Run (insert_of alice); Exec ROLLBACK]).
Proof.
  refine (proj2 (createUser_remaps_constraint_code alice
            (fresh_store [None; Some (not_null_failed "username")])
            _ _ _ (StoreError (not_null_failed "username"))
            eq_refl eq_refl eq_refl (or_introl eq_refl)) _ eq_refl).
Defined.

(** So does a failure with that code that the read-back is rejected with,
    after an insertion that went through. *)
Example createUser_remaps_read_back :
  fst (createUser alice
         (fresh_store [None; None; Some (not_null_failed "username")]))
  = Thrown (UserAlreadyExistsError (already_exists_message alice)).
Proof. reflexivity. Qed.

(** C1, as the code has it.  On a store in working order an insertion that
    meets a row with the same username or the same email makes [createUser]
    throw [UserAlreadyExistsError] with a message that quotes the username
    and the email it was called with, and leaves the table as it was.  A
    failure of [initDb] or of BEGIN is thrown on unchanged; an error of the
    insertion or of the read-back that does not carry the code
    SQLITE_CONSTRAINT, and a failure of COMMIT, are thrown on unchanged when
    the ROLLBACK that follows goes through.  After a [createUser] that
    returned, a second one with the same username or the same email throws
    [UserAlreadyExistsError], leaves the table as it was, and [getUserById]
    still returns the first record. *)
Theorem createUser_failures (user : NewUser) :
  (forall s r,
      healthy s -> In r (rows (tbl s)) ->
      username r = new_username user \/ email r = new_email user ->
      exists s',
        createUser user s
        = (Thrown (UserAlreadyExistsError (already_exists_message user)), s')
        /\ tbl s' = tbl s)
  /\ (mentions (already_exists_message user) (new_username user)
      /\ mentions (already_exists_message user) (new_email user))
  /\ (forall s e s',
        initDb s = (Thrown e, s') -> createUser user s = (Thrown e, s'))
  /\ (forall s s0 e s1,
        initDb s = (Returned tt, s0) ->
        db_exec BEGIN s0 = (Thrown e, s1) ->
        createUser user s = (Thrown e, s1))
  /\ (forall s s0 s1 e s2 s3,
        initDb s = (Returned tt, s0) ->
        db_exec BEGIN s0 = (Returned tt, s1) ->
        create_try user s1 = (Thrown e, s2) ->
        has_code e SQLITE_CONSTRAINT = false ->
        db_exec ROLLBACK s2 = (Returned tt, s3) ->
        createUser user s = (Thrown e, s3))
  /\ (forall s s0 s1 u s2 e s3 s4,
        initDb s = (Returned tt, s0) ->
        db_exec BEGIN s0 = (Returned tt, s1) ->
        create_try user s1 = (Returned u, s2) ->
        db_exec COMMIT s2 = (Thrown e, s3) ->
        db_exec ROLLBACK s3 = (Returned tt, s4) ->
        createUser user s = (Thrown e, s4))
  /\ (forall s first u1 s1,
        healthy s ->
        createUser first s = (Returned u1, s1) ->
        new_username user = new_username first
        \/ new_email user = new_email first ->
        exists s2 s3,
          createUser user s1
          = (Thrown (UserAlreadyExistsError (already_exists_message user)), s2)
          /\ tbl s2 = tbl s1
          /\ getUserById (id u1) s2 = (Returned u1, s3)).
Proof.
  split; [| split; [| split; [| split; [| split; [| split]]]]].
  - intros s r H Hr T.
    destruct (createUser_taken user s r H Hr T) as [E1 [_ [_ [E2 _]]]].
    exists (snd (createUser user s)). split; [| exact E2].
    rewrite <- E1. apply surjective_pairing.
  - apply already_exists_message_mentions.
  - intros s e s' I. unfold createUser. now apply bind_fail.
  - intros s s0 e s1 I B. rewrite (createUser_after_initDb _ _ _ I).
    now apply withTransaction_begin_fails.
  - intros s s0 s1 e s2 s3 I B T C R.
    rewrite (createUser_after_initDb _ _ _ I).
    refine (withTransaction_rolls_back _ _ _ _ _ _ B _ R).
    rewrite (try_catch_fail _ _ _ _ _ T). now apply create_catch_other.
  - intros s s0 s1 u s2 e s3 s4 I B T C R.
    rewrite (createUser_after_initDb _ _ _ I).
    rewrite (withTransaction_commit_fails _ _ _ _ _ u e B
               (try_catch_step _ _ _ _ _ T) C).
    now rewrite (bind_step _ _ _ _ _ R).
  - intros s first u1 s1 H R Same.
    destruct (createUser_returned first s s1 u1 H R) as [_ [Eu [H1 Et]]].
    assert (Hin : In u1 (rows (tbl s1))).
    { rewrite Et. cbn [rows]. apply in_app_iff. right. now left. }
    assert (T : username u1 = new_username user
                \/ email u1 = new_email user).
    { rewrite Eu. cbn [username email created].
      destruct Same as [-> | ->]; auto. }
    destruct (createUser_taken user s1 u1 H1 Hin T) as [E1 [[F2 _] [_ [E2 _]]]].
    exists (snd (createUser user s1)).
    exists (snd (getUserById (id u1) (snd (createUser user s1)))).
    split; [rewrite <- E1; apply surjective_pairing |]. split; [exact E2 |].
    destruct (getUserById_eval (id u1) _ F2) as [_ [_ [_ [_ [_ G]]]]].
    rewrite E2, Et in G. cbn [rows] in G.
    rewrite find_id_app_fresh in G.
    + rewrite <- G. apply surjective_pairing.
    + intros v Hv. rewrite Eu. now apply next_id_fresh.
    + reflexivity.
Qed.

Lemma healthy_fresh_store : healthy (fresh_store []).
Proof. split; reflexivity. Qed.

Lemma createUser_failures_witness :
  exists s2 s3,
    createUser alice2 (snd (createUser alice (fresh_store [])))
    = (Thrown (UserAlreadyExistsError (already_exists_message alice2)), s2)
    /\ tbl s2 = tbl (snd (createUser alice (fresh_store [])))
    /\ getUserById 1 s2
       = (Returned (mkUser 1 "alice" "a@x.com" "h1" clock0), s3).
Proof.
  exact (proj2 (proj2 (proj2 (proj2 (proj2 (proj2
           (createUser_failures alice2))))))
           (fresh_store []) alice _ _
           (conj eq_refl eq_refl) eq_refl (or_introl eq_refl)).
Defined.

(** C1 as the spec words it fails for a failure of the insertion that is
    not a breach of uniqueness but carries the code SQLITE_CONSTRAINT: it is
    not thrown on unchanged, [UserAlreadyExistsError] is thrown instead. *)
Lemma createUser_constraint_not_propagated :
  let f := not_null_failed "password_hash" in
  let s := fresh_store [None; Some f] in
  unused (new_username alice) (new_email alice) (rows (tbl s))
  /\ (exists s1 s2,
         db_exec BEGIN s = (Returned tt, s1)
         /\ db_run (insert_of alice) s1 = (Thrown (StoreError f), s2))
  /\ fst (createUser alice s)
     = Thrown (UserAlreadyExistsError (already_exists_message alice))
  /\ fst (createUser alice s) <> Thrown (StoreError f).
Proof.
  cbn zeta. split; [| split; [| split]].
  - intros r [].
  - do 2 eexists. split; reflexivity.
  - reflexivity.
  - discriminate.
Qed.

(** C2: on a store in working order, a [createUser] whose username and
    email nobody holds returns a user made of the three fields, the next id
    and the time of the store, and [getUserById] on that id right after
    returns the same record. *)
Theorem createUser_then_getUserById (user : NewUser) (s : Store) :
  healthy s ->
  unused (new_username user) (new_email user) (rows (tbl s)) ->
  exists u s1 s2,
    createUser user s = (Returned u, s1)
    /\ u = created user (tbl s) (clock s)
    /\ getUserById (id u) s1 = (Returned u, s2).
Proof.
  intros H U.
  destruct (createUser_unused user s H U) as [E1 [[F1 _] [_ [Et _]]]].
  set (u := created user (tbl s) (clock s)) in *.
  exists u, (snd (createUser user s)),
    (snd (getUserById (id u) (snd (createUser user s)))).
  split; [rewrite <- E1; apply surjective_pairing |].
  split; [reflexivity |].
  destruct (getUserById_eval (id u) _ F1) as [_ [_ [_ [_ [_ G]]]]].
  rewrite Et in G. cbn [rows] in G. rewrite find_id_app_fresh in G.
  - rewrite <- G. apply surjective_pairing.
  - intros v Hv. now apply next_id_fresh.
  - reflexivity.
Qed.

Lemma createUser_then_getUserById_witness :
  exists u s1 s2,
    createUser alice (fresh_store []) = (Returned u, s1)
    /\ u = mkUser 1 "alice" "a@x.com" "h1" clock0
    /\ getUserById (id u) s1 = (Returned u, s2).
Proof.
  apply (createUser_then_getUserById alice (fresh_store [])).
  - split; reflexivity.
  - intros r [].
Defined.

(** ** Ids that are gone stay gone *)

Lemma gone_insert (i : Z) (u e p now : string) (t t' : Table)
    (res : RunResult) :
  gone i t -> sql_insert u e p now t = inr (res, t') -> gone i t'.
Proof.
  intros [F L] E. apply sql_insert_inr in E. destruct E as [_ [_ ->]].
  pose proof (next_id_above_seq t) as N. unfold gone. cbn [rows seq].
  split; [| lia]. apply find_id_none. intros r Hr.
  apply in_app_iff in Hr. destruct Hr as [Hr | [<- | []]].
  - now apply (proj1 (find_id_none i (rows t)) F).
  - cbn [id]. lia.
Qed.

Lemma gone_update (i j : Z) (u e p : string) (t t' : Table)
    (res : RunResult) :
  gone i t -> sql_update u e p j t = inr (res, t') -> gone i t'.
Proof.
  intros [F L] E. destruct (find_id j (rows t)) as [cur |] eqn:Fj.
  - destruct (sql_update_inr _ _ _ _ _ _ _ _ Fj E) as [_ ->].
    unfold gone. cbn [rows seq]. split; [| exact L].
    apply find_id_none. intros r Hr. apply in_map_iff in Hr.
    destruct Hr as [x [<- Hx]]. rewrite rewrite_row_id.
    now apply (proj1 (find_id_none i (rows t)) F).
  - rewrite (sql_update_absent _ _ _ _ _ Fj) in E. inversion E; subst.
    now split.
Qed.

Lemma gone_delete (i j : Z) (t : Table) :
  gone i t -> gone i (snd (sql_delete j t)).
Proof.
  intros [F L]. unfold gone, sql_delete. cbn [snd rows seq].
  split; [| exact L]. apply find_id_none. intros r Hr.
  apply filter_In in Hr. now apply (proj1 (find_id_none i (rows t)) F).
Qed.

Lemma serve_gone (i : Z) (r : Request) (s : Store) :
  healthy s -> gone i (tbl s) ->
  healthy (serve r s) /\ gone i (tbl (serve r s)).
Proof.
  intros H G. destruct r as [user | j | | j updates | j | now]; cbn [serve].
  - pose proof (createUser_eval user s H) as E. cbn zeta in E.
    destruct E as [E1 [_ E]]. split; [exact E1 |].
    destruct (sql_insert _ _ _ _ _) as [f | [res t]] eqn:I.
    + destruct E as [_ [-> _]]. exact G.
    + pose proof (gone_insert _ _ _ _ _ _ _ _ G I) as G'.
      destruct (find_id (lastID res) (rows t));
        destruct E as [_ [-> _]]; assumption.
  - destruct H as [Hf Ht].
    destruct (getUserById_eval j s Hf) as [E1 [E2 [_ [E3 _]]]].
    rewrite E3. split; [split; congruence | exact G].
  - destruct H as [Hf Ht].
    destruct (getAllUsers_eval s Hf) as [E1 [E2 [_ [E3 _]]]].
    rewrite E3. split; [split; congruence | exact G].
  - pose proof (updateUser_eval j updates s H) as E. cbn zeta in E.
    destruct E as [E1 [_ E]]. split; [exact E1 |].
    destruct (find_id j (rows (tbl s))) as [cur |].
    + destruct (sql_update _ _ _ _ _) as [f | [res t]] eqn:I.
      * destruct E as [_ [-> _]]. exact G.
      * pose proof (gone_update _ _ _ _ _ _ _ _ G I) as G'.
        destruct (find_id j (rows t));
          destruct E as [_ [-> _]]; assumption.
    + destruct E as [_ [-> _]]. exact G.
  - pose proof (deleteUser_eval j s H) as E. cbn zeta in E.
    destruct E as [E1 [_ E]]. split; [exact E1 |].
    destruct (find_id j (rows (tbl s))) as [u |].
    + destruct E as [_ [-> _]]. now apply gone_delete.
    + destruct E as [_ [-> _]]. exact G.
  - split; [exact H | exact G].
Qed.

Lemma serve_all_gone (i : Z) (l : list Request) (s : Store) :
  healthy s -> gone i (tbl s) ->
  healthy (serve_all l s) /\ gone i (tbl (serve_all l s)).
Proof.
  revert s. induction l as [| r l IH]; intros s H G; [now split |].
  cbn [serve_all fold_left]. destruct (serve_gone i r s H G) as [H' G'].
  exact (IH _ H' G').
Qed.

(** ** deleteUser *)

(** C3: on a store in working order [deleteUser i] throws [UserNotFoundError]
    when no row has the id [i] and leaves the table alone; when a row has
    it, [deleteUser] returns that row as [getUserById] saw it just before,
    removes it and nothing else, and [getUserById i] throws
    [UserNotFoundError] right after and, on a table that met the constraints
    of the schema, after any further requests: the id is not given out
    again. *)
Theorem deleteUser_removes (i : Z) (s : Store) :
  healthy s ->
  (find_id i (rows (tbl s)) = None ->
   exists s',
     deleteUser i s = (Thrown (UserNotFoundError (not_found_message i)), s')
     /\ tbl s' = tbl s)
  /\ (forall u,
        find_id i (rows (tbl s)) = Some u ->
        exists s1,
          deleteUser i s = (Returned u, s1)
          /\ fst (getUserById i s) = Returned u
          /\ fst (getUserById i s1)
             = Thrown (UserNotFoundError (not_found_message i))
          /\ (forall r, In r (rows (tbl s1))
                        <-> In r (rows (tbl s)) /\ id r <> i)
          /\ (integrity (tbl s) ->
              forall later,
                fst (getUserById i (serve_all later s1))
                = Thrown (UserNotFoundError (not_found_message i)))).
Proof.
  intros H. pose proof (deleteUser_eval i s H) as E. cbn zeta in E.
  destruct E as [H1 [_ E]]. split.
  - intros F. rewrite F in E. destruct E as [E1 [E2 _]].
    exists (snd (deleteUser i s)). split; [| exact E2].
    rewrite <- E1. apply surjective_pairing.
  - intros u F. rewrite F in E. destruct E as [E1 [E2 _]].
    exists (snd (deleteUser i s)).
    split; [rewrite <- E1; apply surjective_pairing |].
    split.
    { destruct (getUserById_eval i s (proj1 H)) as [_ [_ [_ [_ [_ G]]]]].
      now rewrite F in G. }
    split.
    { destruct (getUserById_eval i _ (proj1 H1)) as [_ [_ [_ [_ [_ G]]]]].
      now rewrite E2, find_id_deleted in G. }
    split.
    { intros r. rewrite E2. unfold sql_delete. cbn [snd rows].
      rewrite filter_In. rewrite <- has_id_false.
      destruct (has_id i r); cbn; intuition congruence. }
    intros I later.
    assert (G : gone i (tbl (snd (deleteUser i s)))).
    { rewrite E2. split; [apply find_id_deleted |].
      unfold sql_delete. cbn [snd seq].
      destruct (find_id_some _ _ _ F) as [Hin <-].
      now apply (proj2 (proj2 (proj2 I))). }
    destruct (serve_all_gone i later _ H1 G) as [[Hf _] [Gf _]].
    destruct (getUserById_eval i _ Hf) as [_ [_ [_ [_ [_ K]]]]].
    now rewrite Gf in K.
Qed.

Lemma deleteUser_removes_witness :
  exists s1,
    deleteUser 1 two_users
    = (Returned (mkUser 1 "alice" "a@x.com" "h1" clock0), s1)
    /\ fst (getUserById 1 s1)
       = Thrown (UserNotFoundError (not_found_message 1)).
Proof.
  destruct (proj2 (deleteUser_removes 1 two_users (conj eq_refl eq_refl))
              (mkUser 1 "alice" "a@x.com" "h1" clock0) eq_refl)
    as [s1 [D [_ [G _]]]].
  exists s1. split; [exact D | exact G].
Defined.

(** ** Reads *)

Lemma issue_returned (c : Call) (s s' : Store) (a : unit) :
  issue c s = (Returned a, s') ->
  tbl s' = tbl s /\ txn s' = txn s /\ clock s' = clock s
  /\ opened s' = opened s.
Proof.
  unfold issue. destruct s as [op t x ck fl lg]. cbn.
  destruct fl as [| [f |] l]; cbn; try discriminate;
    intros [= _ <-]; cbn; repeat split.
Qed.

Lemma initDb_returned (s s' : Store) (a : unit) :
  initDb s = (Returned a, s') ->
  tbl s' = tbl s /\ txn s' = txn s /\ clock s' = clock s.
Proof.
  unfold initDb. destruct (opened s) eqn:O.
  - unfold ret. intros [= _ <-]. repeat split.
  - intros H. apply bind_returned in H. destruct H as [a1 [s1 [H1 H]]].
    apply bind_returned in H. destruct H as [a2 [s2 [H2 H]]].
    apply issue_returned in H1. unfold modify in H2. injection H2 as _ <-.
    destruct a. apply db_exec_returned in H.
    destruct H as [_ [Hc [Ht Hx]]]. cbn in Hc, Ht, Hx.
    destruct H1 as [K1 [K2 [K3 _]]]. repeat split; congruence.
Qed.

Lemma db_get_returned (i : Z) (s s' : Store) (o : option User) :
  db_get i s = (Returned o, s') ->
  o = find_id i (rows (tbl s')) /\ tbl s' = tbl s /\ txn s' = txn s.
Proof.
  unfold db_get. intros H. apply bind_returned in H.
  destruct H as [a [s1 [H1 H]]]. apply issue_returned in H1.
  unfold read in H. injection H as <- <-. destruct H1 as [K1 [K2 _]].
  repeat split; assumption.
Qed.

Lemma getUserById_returned (i : Z) (s s' : Store) (u : User) :
  getUserById i s = (Returned u, s') ->
  find_id i (rows (tbl s')) = Some u /\ tbl s' = tbl s /\ txn s' = txn s.
Proof.
  unfold getUserById. intros H. apply bind_returned in H.
  destruct H as [a [s0 [H0 H]]]. apply bind_returned in H.
  destruct H as [o [s1 [H1 H]]]. apply initDb_returned in H0.
  apply db_get_returned in H1. destruct H1 as [-> [K1 K2]].
  destruct (find_id i (rows (tbl s1))) as [v |] eqn:F; [| discriminate].
  unfold ret in H. injection H as <- <-.
  destruct H0 as [L1 [L2 _]]. repeat split; congruence.
Qed.

Lemma withTransaction_returned {T} (fn : Async T) (s s' : Store) (v : T) :
  withTransaction fn s = (Returned v, s') ->
  exists s1 s2,
    db_exec BEGIN s = (Returned tt, s1)
    /\ fn s1 = (Returned v, s2)
    /\ db_exec COMMIT s2 = (Returned tt, s').
Proof.
  unfold withTransaction. intros H. apply bind_returned in H.
  destruct H as [[] [s1 [B H]]]. exists s1. unfold try_catch in H.
  destruct (bind fn _ s1) as [[a | e] s2] eqn:E.
  - injection H as <- <-. apply bind_returned in E.
    destruct E as [a' [s3 [F E]]]. apply bind_returned in E.
    destruct E as [[] [s4 [C E]]]. unfold ret in E. injection E as <- <-.
    now exists s3.
  - apply bind_returned in H. destruct H as [a [s3 [_ H]]]. discriminate.
Qed.

(** ** updateUser *)

(** C5: on a store in working order [updateUser i] throws
    [UserNotFoundError] when no row has the id [i]; and on any store
    whatever, what [updateUser] returns is never [null]: it is the row with
    the id [i] as the table holds it when [updateUser] is done. *)
Theorem updateUser_result (i : Z) (updates : PartialNewUser) :
  (forall s,
      healthy s -> find_id i (rows (tbl s)) = None ->
      exists s',
        updateUser i updates s
        = (Thrown (UserNotFoundError (not_found_message i)), s')
        /\ tbl s' = tbl s)
  /\ (forall s v s',
        updateUser i updates s = (Returned v, s') ->
        exists u, v = Some u /\ find_id i (rows (tbl s')) = Some u).
Proof.
  split.
  - intros s H F. pose proof (updateUser_eval i updates s H) as E.
    cbn zeta in E. rewrite F in E. destruct E as [_ [_ [E1 [E2 _]]]].
    exists (snd (updateUser i updates s)). split; [| exact E2].
    rewrite <- E1. apply surjective_pairing.
  - intros s v s' H. unfold updateUser in H. apply bind_returned in H.
    destruct H as [a [s0 [_ H]]]. apply withTransaction_returned in H.
    destruct H as [s1 [s2 [_ [F C]]]].
    apply bind_returned in F. destruct F as [cur [s3 [_ F]]].
    apply bind_returned in F. destruct F as [res [s4 [_ F]]].
    apply bind_returned in F. destruct F as [u [s5 [G F]]].
    unfold ret in F. injection F as <- <-. exists u. split; [reflexivity |].
    apply getUserById_returned in G. destruct G as [G _].
    apply db_exec_returned in C. destruct C as [_ [_ [_ [C _]]]].
    now rewrite C.
Qed.

Lemma updateUser_result_witness :
  exists s',
    updateUser 9 (mkPartial Undefined (Supplied "z@x.com") Undefined)
      two_users
    = (Thrown (UserNotFoundError (not_found_message 9)), s')
    /\ tbl s' = tbl two_users.
Proof.
  exact (proj1 (updateUser_result 9 _) two_users
           (conj eq_refl eq_refl) eq_refl).
Defined.

(** ** getAllUsers *)

(** C6: on a store without a pending failure [getAllUsers] returns the rows
    of the table, all of them and no other, in ascending order of id; the
    empty list when the table is empty; and, the ids being all different,
    the same list whatever the order the rows are stored in.  It leaves the
    table alone. *)
Theorem getAllUsers_ordered (s : Store) :
  faults s = [] ->
  exists users s',
    getAllUsers s = (Returned users, s')
    /\ Permutation users (rows (tbl s))
    /\ StronglySorted id_le users
    /\ (rows (tbl s) = [] -> users = [])
    /\ (forall stored,
          NoDup (map id (rows (tbl s))) ->
          Permutation (rows (tbl s)) (rows (tbl stored)) ->
          faults stored = [] ->
          fst (getAllUsers stored) = Returned users)
    /\ tbl s' = tbl s.
Proof.
  intros H. destruct (getAllUsers_eval s H) as [_ [_ [_ [E1 [_ E2]]]]].
  exists (order_by_id (rows (tbl s))), (snd (getAllUsers s)).
  split; [rewrite <- E2; apply surjective_pairing |].
  split; [apply order_by_id_perm |].
  split; [apply order_by_id_ascending |].
  split; [now intros -> |].
  split; [| exact E1].
  intros stored N P Hs.
  destruct (getAllUsers_eval stored Hs) as [_ [_ [_ [_ [_ K]]]]].
  rewrite K. f_equal. symmetry. now apply order_by_id_storage.
Qed.

Lemma getAllUsers_ordered_witness :
  exists users s',
    getAllUsers shuffled = (Returned users, s')
    /\ Permutation users (rows (tbl shuffled))
    /\ StronglySorted id_le users.
Proof.
  destruct (getAllUsers_ordered shuffled eq_refl)
    as [users [s' [E [P [S _]]]]].
  exists users, s'. repeat split; assumption.
Defined.

Example getAllUsers_shuffled :
  fst (getAllUsers shuffled)
  = Returned [mkUser 1 "alice" "a@x.com" "h1" clock0;
              mkUser 2 "bob" "b@x.com" "h2" clock0;
              mkUser 3 "carol" "c@x.com" "h3" clock0].
Proof. reflexivity. Qed.

Example getAllUsers_empty : fst (getAllUsers (fresh_store [])) = Returned [].
Proof. reflexivity. Qed.

Lemma updateUser_healthy_run (i : Z) (updates : PartialNewUser) (s : Store)
    (current : User) :
  healthy s -> find_id i (rows (tbl s)) = Some current ->
  let m := merged updates current in
  let q := UPDATE (username m) (email m) (password_hash m) i in
  let r := updateUser i updates s in
  (unused_by_others i (username m) (email m) (rows (tbl s))
   /\ fst r = Returned (Some m)
   /\ tbl (snd r)
      = mkTable
          (map (rewrite_row i (username m) (email m) (password_hash m))
             (rows (tbl s)))
          (seq (tbl s))
   /\ log (snd r) =
        log s ++ boot s ++ [Exec BEGIN; Get i; Run q; Get i; Exec COMMIT])
  \/ (exists column,
         sql_update (username m) (email m) (password_hash m) i (tbl s)
         = inl (unique_failed column)
         /\ fst r = Thrown (StoreError (unique_failed column))
         /\ tbl (snd r) = tbl s
         /\ log (snd r) =
              log s ++ boot s ++ [Exec BEGIN; Get i; Run q; Exec ROLLBACK]).
Proof.
  intros H F. pose proof (updateUser_eval i updates s H) as E.
  cbn zeta in E |- *. rewrite F in E. destruct E as [_ [_ E]].
  set (m := merged updates current) in *.
  destruct (sql_update (username m) (email m) (password_hash m) i (tbl s))
    as [f | [res t]] eqn:U.
  - right. assert (K : exists column, f = unique_failed column).
    { revert U. unfold sql_update.
      rewrite (find_id_existsb _ _ _ F). cbn [negb].
      destruct (existsb _ _); [intros [= <-]; now eexists |].
      destruct (existsb _ _); [intros [= <-]; now eexists | discriminate]. }
    destruct K as [column ->]. exists column.
    destruct E as [E1 [E2 E3]]. repeat split; assumption.
  - left. destruct (sql_update_inr _ _ _ _ _ _ _ _ F U) as [Un ->].
    cbn [rows] in E. rewrite (find_id_rewritten _ _ _ _ _ _ F) in E.
    destruct E as [E1 [E2 E3]].
    assert (M : set_fields (username m) (email m) (password_hash m) current
                = m) by reflexivity.
    rewrite M in E1. repeat split; try assumption; now apply Un.
Qed.

(** C4: on a store in working order, for a row [current] with the id [i],
    the UPDATE that [updateUser i updates] issues binds, for each of
    username, email and password_hash, the value of [updates] when there is
    one and the value of [current] otherwise; whenever [updateUser] returns,
    it returns [current] with just these three fields replaced, id and
    created_at as they were, that is the row the table then holds under [i],
    and the other rows are as before; it does return when no other row
    holds the username and the email bound.  With only an email supplied the
    record returned differs from [current] in the email alone. *)
Theorem updateUser_merges (i : Z) (updates : PartialNewUser) (s : Store)
    (current : User) :
  healthy s ->
  find_id i (rows (tbl s)) = Some current ->
  let m :=
    mkUser (id current)
      (nullish (upd_username updates) (username current))
      (nullish (upd_email updates) (email current))
      (nullish (upd_password_hash updates) (password_hash current))
      (created_at current) in
  let r := updateUser i updates s in
  (exists rest,
      log (snd r) =
        log s ++ boot s
        ++ [Exec BEGIN; Get i;
            Run (UPDATE (username m) (email m) (password_hash m) i)]
        ++ rest)
  /\ (forall v,
        fst r = Returned v ->
        v = Some m
        /\ find_id i (rows (tbl (snd r))) = Some m
        /\ forall x, id x <> i ->
             (In x (rows (tbl (snd r))) <-> In x (rows (tbl s))))
  /\ (unused_by_others i (username m) (email m) (rows (tbl s)) ->
      fst r = Returned (Some m))
  /\ (forall newEmail,
        updates = mkPartial Undefined (Supplied newEmail) Undefined ->
        m = mkUser (id current) (username current) newEmail
              (password_hash current) (created_at current)).
Proof.
  intros H F. cbn zeta.
  pose proof (updateUser_healthy_run i updates s current H F) as R.
  cbn zeta in R. unfold merged in R. cbn [username email password_hash] in R.
  split; [| split; [| split]].
  - destruct R as [[_ [_ [_ L]]] | [column [_ [_ [_ L]]]]]; rewrite L.
    + now exists [Get i; Exec COMMIT].
    + now exists [Exec ROLLBACK].
  - intros v V.
    destruct R as [[_ [E [T _]]] | [column [_ [E _]]]];
      [| rewrite E in V; discriminate].
    rewrite E in V. injection V as <-. split; [reflexivity |].
    rewrite T. cbn [rows]. split.
    + now rewrite (find_id_rewritten _ _ _ _ _ _ F).
    + intros x Hx. now apply rewrite_row_others.
  - intros Un.
    destruct R as [[_ [E _]] | [column [U _]]]; [exact E |].
    rewrite (sql_update_free _ _ _ _ _ _ F Un) in U. discriminate.
  - intros newEmail ->. reflexivity.
Qed.

Lemma updateUser_merges_witness :
  fst (updateUser 2 (mkPartial Undefined (Supplied "bob@y.org") Undefined)
         two_users)
  = Returned (Some (mkUser 2 "bob" "bob@y.org" "h2" clock0)).
Proof.
  refine (proj1 (proj2 (proj2
    (updateUser_merges 2 (mkPartial Undefined (Supplied "bob@y.org") Undefined)
       two_users (mkUser 2 "bob" "b@x.com" "h2" clock0)
       (conj eq_refl eq_refl) eq_refl))) _).
  intros r [<- | [<- | []]] N; cbn in *; [| congruence].
  split; discriminate.
Defined.

Lemma raises_getUserById (i : Z) : raises store_or_not_found (getUserById i).
Proof.
  unfold getUserById. apply raises_bind.
  { eapply raises_weaken; [| apply raises_initDb]. now left. }
  intros _. apply raises_bind.
  { eapply raises_weaken; [| apply raises_db_get]. now left. }
  intros [u |]; [apply raises_ret |].
  apply raises_throw. right. now eexists.
Qed.

Lemma raises_updateUser (i : Z) (updates : PartialNewUser) :
  raises store_or_not_found (updateUser i updates).
Proof.
  unfold updateUser. apply raises_bind.
  { eapply raises_weaken; [| apply raises_initDb]. now left. }
  intros _. apply raises_withTransaction; [now left |].
  apply raises_bind; [apply raises_getUserById |]. intros current.
  apply raises_bind.
  { eapply raises_weaken; [| apply raises_db_run]. now left. }
  intros _. apply raises_bind; [apply raises_getUserById |].
  intros u. apply raises_ret.
Qed.

(** C8: on a store in working order, when the username or the email that
    [updateUser] binds is held by another row, [updateUser] throws the
    failure of the store itself, the one with the code SQLITE_CONSTRAINT
    that names the UNIQUE constraint, and leaves the table alone, where
    [createUser] with the same username and email throws
    [UserAlreadyExistsError]; and on no store at all does [updateUser]
    throw [UserAlreadyExistsError]. *)
Theorem updateUser_unique_not_remapped (i : Z) (updates : PartialNewUser)
    (s : Store) (current other : User) :
  healthy s ->
  find_id i (rows (tbl s)) = Some current ->
  In other (rows (tbl s)) -> id other <> i ->
  let u := nullish (upd_username updates) (username current) in
  let e := nullish (upd_email updates) (email current) in
  let p := nullish (upd_password_hash updates) (password_hash current) in
  username other = u \/ email other = e ->
  (exists column s',
      updateUser i updates s
      = (Thrown (StoreError (unique_failed column)), s')
      /\ has_code (StoreError (unique_failed column)) SQLITE_CONSTRAINT = true
      /\ tbl s' = tbl s)
  /\ fst (createUser (mkNewUser u e p) s)
     = Thrown (UserAlreadyExistsError
                 (already_exists_message (mkNewUser u e p)))
  /\ (forall s0 err s0',
        updateUser i updates s0 = (Thrown err, s0') ->
        forall msg, err <> UserAlreadyExistsError msg).
Proof.
  intros H F Hin N. cbn zeta. intros T. split; [| split].
  - pose proof (updateUser_healthy_run i updates s current H F) as R.
    cbn zeta in R. unfold merged in R.
    cbn [username email password_hash] in R.
    destruct R as [[Un _] | [column [_ [E [K _]]]]].
    + exfalso. destruct (Un other Hin N). tauto.
    + exists column, (snd (updateUser i updates s)).
      split; [rewrite <- E; apply surjective_pairing |].
      split; [reflexivity | exact K].
  - exact (proj1 (createUser_taken
                    (mkNewUser _ _
                       (nullish (upd_password_hash updates)
                          (password_hash current))) s other H Hin T)).
  - intros s0 err s0' E msg ->.
    destruct (raises_updateUser i updates _ _ _ E) as [[f K] | [m K]];
      discriminate.
Qed.

Lemma updateUser_unique_not_remapped_witness :
  exists column s',
    updateUser 2 (mkPartial (Supplied "alice") Undefined Undefined) two_users
    = (Thrown (StoreError (unique_failed column)), s')
    /\ has_code (StoreError (unique_failed column)) SQLITE_CONSTRAINT = true
    /\ tbl s' = tbl two_users.
Proof.
  refine (proj1
    (updateUser_unique_not_remapped 2
       (mkPartial (Supplied "alice") Undefined Undefined) two_users
       (mkUser 2 "bob" "b@x.com" "h2" clock0)
       (mkUser 1 "alice" "a@x.com" "h1" clock0)
       (conj eq_refl eq_refl) eq_refl _ _ (or_introl eq_refl))).
  - left. reflexivity.
  - discriminate.
Defined.

Lemma nullish_not_supplied (o : Optional) (b : string) :
  not_supplied o -> nullish o b = b.
Proof. now intros [-> | ->]. Qed.

Lemma rewrite_row_same (i : Z) (l : list User) (current : User) :
  NoDup (map id l) -> In current l -> id current = i ->
  map (rewrite_row i (username current) (email current)
         (password_hash current)) l = l.
Proof.
  intros N Hin E. rewrite <- (map_id l) at 2. apply map_ext_in.
  intros r Hr. unfold rewrite_row. destruct (has_id i r) eqn:K;
    [| reflexivity].
  apply has_id_true in K.
  assert (r = current) as ->
    by (apply (NoDup_map_eq id l); [assumption .. | congruence]).
  now destruct current.
Qed.

(** C10: on a store in working order whose table meets the constraints of
    the schema, [updateUser i updates] with nothing supplied (each of the
    three properties missing or [null]) rewrites the row with the id [i]
    with the values it has, returns that row as it was, and leaves the
    table as it was. *)
Theorem updateUser_nothing_supplied (i : Z) (updates : PartialNewUser)
    (s : Store) (current : User) :
  healthy s -> integrity (tbl s) ->
  find_id i (rows (tbl s)) = Some current ->
  not_supplied (upd_username updates) ->
  not_supplied (upd_email updates) ->
  not_supplied (upd_password_hash updates) ->
  exists s',
    updateUser i updates s = (Returned (Some current), s')
    /\ tbl s' = tbl s
    /\ log s' =
         log s ++ boot s
         ++ [Exec BEGIN; Get i;
             Run (UPDATE (username current) (email current)
                    (password_hash current) i);
             Get i; Exec COMMIT].
Proof.
  intros H I F Nu Ne Np.
  pose proof (updateUser_healthy_run i updates s current H F) as R.
  cbn zeta in R. unfold merged in R. cbn [username email password_hash] in R.
  rewrite (nullish_not_supplied _ _ Nu), (nullish_not_supplied _ _ Ne),
    (nullish_not_supplied _ _ Np) in R.
  destruct (find_id_some _ _ _ F) as [Hin Hid].
  destruct I as [Ni [Nn [Nm _]]].
  assert (Un : unused_by_others i (username current) (email current)
                 (rows (tbl s))).
  { intros r Hr Hne. split; intros E; apply Hne; rewrite <- Hid; f_equal.
    - now apply (NoDup_map_eq username (rows (tbl s))).
    - now apply (NoDup_map_eq email (rows (tbl s))). }
  destruct R as [[_ [E [T L]]] | [column [U _]]].
  - exists (snd (updateUser i updates s)).
    split; [| split; [| exact L]].
    + rewrite (surjective_pairing (updateUser i updates s)), E.
      now destruct current.
    + rewrite T, (rewrite_row_same i _ current Ni Hin Hid).
      now destruct (tbl s).
  - rewrite (sql_update_free _ _ _ _ _ _ F Un) in U. discriminate.
Qed.

Lemma integrity_two_users : integrity (tbl two_users).
Proof.
  set (t := tbl two_users). vm_compute in t. subst t.
  unfold integrity. cbn [rows seq map id username email].
  repeat split;
    try (repeat constructor; cbn; intuition discriminate).
  intros r [<- | [<- | []]]; cbn [id]; lia.
Qed.

Lemma updateUser_nothing_supplied_witness :
  exists s',
    updateUser 2 (mkPartial Undefined Null Undefined) two_users
    = (Returned (Some (mkUser 2 "bob" "b@x.com" "h2" clock0)), s')
    /\ tbl s' = tbl two_users
    /\ log s' =
         log two_users ++ boot two_users
         ++ [Exec BEGIN; Get 2; Run (UPDATE "bob" "b@x.com" "h2" 2);
             Get 2; Exec COMMIT].
Proof.
  apply (updateUser_nothing_supplied 2 (mkPartial Undefined Null Undefined)
           two_users (mkUser 2 "bob" "b@x.com" "h2" clock0)).
  - split; reflexivity.
  - exact integrity_two_users.
  - reflexivity.
  - left; reflexivity.
  - right; reflexivity.
  - left; reflexivity.
Defined.

(** ** The stores the module reaches *)

Lemma serve_integrity (r : Request) (s : Store) :
  healthy s -> integrity (tbl s) -> integrity (tbl (serve r s)).
Proof.
  intros H G. destruct r as [user | j | | j updates | j | now]; cbn [serve].
  - pose proof (createUser_eval user s H) as E. cbn zeta in E.
    destruct E as [_ [_ E]].
    destruct (sql_insert _ _ _ _ _) as [f | [res t]] eqn:I.
    + destruct E as [_ [-> _]]. exact G.
    + pose proof (integrity_insert _ _ _ _ _ _ _ G I) as G'.
      destruct (find_id (lastID res) (rows t));
        destruct E as [_ [-> _]]; assumption.
  - destruct (getUserById_eval j s (proj1 H)) as [_ [_ [_ [-> _]]]].
    exact G.
  - destruct (getAllUsers_eval s (proj1 H)) as [_ [_ [_ [-> _]]]]. exact G.
  - pose proof (updateUser_eval j updates s H) as E. cbn zeta in E.
    destruct E as [_ [_ E]].
    destruct (find_id j (rows (tbl s))) as [cur |].
    + destruct (sql_update _ _ _ _ _) as [f | [res t]] eqn:I.
      * destruct E as [_ [-> _]]. exact G.
      * pose proof (integrity_update _ _ _ _ _ _ _ G I) as G'.
        destruct (find_id j (rows t));
          destruct E as [_ [-> _]]; assumption.
    + destruct E as [_ [-> _]]. exact G.
  - pose proof (deleteUser_eval j s H) as E. cbn zeta in E.
    destruct E as [_ [_ E]].
    destruct (find_id j (rows (tbl s))) as [u |].
    + destruct E as [_ [-> _]]. now apply integrity_delete.
    + destruct E as [_ [-> _]]. exact G.
  - exact G.
Qed.

Lemma serve_healthy (r : Request) (s : Store) :
  healthy s -> healthy (serve r s).
Proof.
  intros H. destruct r as [user | j | | j updates | j | now]; cbn [serve].
  - exact (proj1 (createUser_eval user s H)).
  - destruct H as [Hf Ht].
    destruct (getUserById_eval j s Hf) as [E1 [E2 _]]. split; congruence.
  - destruct H as [Hf Ht].
    destruct (getAllUsers_eval s Hf) as [E1 [E2 _]]. split; congruence.
  - exact (proj1 (updateUser_eval j updates s H)).
  - exact (proj1 (deleteUser_eval j s H)).
  - exact H.
Qed.

(** Starting from a database that is new, with a store that never fails,
    every sequence of requests ends on a store in working order whose table
    meets the constraints of the schema. *)
Lemma serve_all_sound (l : list Request) :
  healthy (serve_all l empty_store)
  /\ integrity (tbl (serve_all l empty_store)).
Proof.
  assert (K : forall s, healthy s -> integrity (tbl s) ->
                        healthy (serve_all l s)
                        /\ integrity (tbl (serve_all l s))).
  { induction l as [| r l IH]; intros s H G; [now split |].
    cbn [serve_all fold_left].
    exact (IH _ (serve_healthy r s H) (serve_integrity r s H G)). }
  apply K; [split; reflexivity | apply integrity_empty].
Qed.

(** The scenario of a repeated username, from the first use of the module
    on: the first user gets the id 1, the second call is refused, and the
    list holds the first user only. *)
Example scenario_same_username :
  let first := createUser alice empty_store in
  let second := createUser alice2 (snd first) in
  let listing := getAllUsers (snd second) in
  fst first = Returned (mkUser 1 "alice" "a@x.com" "h1" clock0)
  /\ fst second
     = Thrown (UserAlreadyExistsError (already_exists_message alice2))
  /\ fst listing = Returned [mkUser 1 "alice" "a@x.com" "h1" clock0]
  /\ log (snd listing)
     = [Open; Exec CREATE_TABLE;
        Exec BEGIN; Run (insert_of alice); Get 1; Exec COMMIT;
        Exec BEGIN; Run (insert_of alice2); Exec ROLLBACK;
        All].
Proof. cbn zeta. repeat split; reflexivity. Qed.

(** An id is not handed out a second time. *)
Example scenario_id_not_reused :
  fst ((createUser alice ;; createUser bob ;; deleteUser 2 ;; createUser bob)
         empty_store)
  = Returned (mkUser 3 "bob" "b@x.com" "h2" clock0).
Proof. reflexivity. Qed.

(** * Further properties of the module *)

(** ** What the driver calls leave alone *)

Lemma issue_any (c : Call) (s s' : Store) (o : Outcome unit) :
  issue c s = (o, s') ->
  tbl s' = tbl s /\ txn s' = txn s /\ clock s' = clock s
  /\ opened s' = opened s /\ log s' = log s ++ [c].
Proof.
  unfold issue. destruct s as [op t x ck fl lg]. cbn.
  destruct fl as [| [f |] l]; cbn; intros [= _ <-]; cbn; repeat split.
Qed.

Lemma frame_ret {A} (a : A) : frame (ret a).
Proof. intros s o s'. unfold ret. intros [= _ <-]. repeat split. Qed.

Lemma frame_throw {A} (e : Error) : frame (@throw A e).
Proof. intros s o s'. unfold throw. intros [= _ <-]. repeat split. Qed.

Lemma frame_bind {A B} (m : Async A) (k : A -> Async B) :
  frame m -> (forall a, frame (k a)) -> frame (bind m k).
Proof.
  intros Hm Hk s o s'. unfold bind.
  destruct (m s) as [[a | e] s1] eqn:E; intros H.
  - destruct (Hm _ _ _ E) as [M1 [M2 M3]].
    destruct (Hk _ _ _ _ H) as [K1 [K2 K3]]. repeat split; congruence.
  - injection H as _ <-. exact (Hm _ _ _ E).
Qed.

Lemma frame_issue (c : Call) : frame (issue c).
Proof.
  intros s o s' H. destruct (issue_any _ _ _ _ H) as [H1 [H2 [H3 _]]].
  now repeat split.
Qed.

Lemma frame_db_get (i : Z) : frame (db_get i).
Proof.
  unfold db_get. apply frame_bind; [apply frame_issue |].
  intros _ s o s'. unfold read. intros [= _ <-]. repeat split.
Qed.

Lemma frame_db_all : frame db_all.
Proof.
  unfold db_all. apply frame_bind; [apply frame_issue |].
  intros _ s o s'. unfold read. intros [= _ <-]. repeat split.
Qed.

Lemma frame_initDb : frame initDb.
Proof.
  intros s o s'. unfold initDb. destruct (opened s).
  - unfold ret. intros [= _ <-]. repeat split.
  - revert s o s'. apply frame_bind; [apply frame_issue |]. intros _.
    apply frame_bind.
    { intros s o s'. unfold modify. intros [= _ <-]. repeat split. }
    intros _. unfold db_exec. apply frame_bind; [apply frame_issue |].
    intros _ s o s'. intros [= _ <-]. repeat split.
Qed.

Lemma frame_getUserById (i : Z) : frame (getUserById i).
Proof.
  unfold getUserById. apply frame_bind; [apply frame_initDb |]. intros _.
  apply frame_bind; [apply frame_db_get |].
  intros [u |]; [apply frame_ret | apply frame_throw].
Qed.

Lemma frame_getAllUsers : frame getAllUsers.
Proof.
  unfold getAllUsers. apply frame_bind; [apply frame_initDb |]. intros _.
  apply frame_db_all.
Qed.

Lemma frame_keeps_txn {A} (m : Async A) : frame m -> keeps_txn m.
Proof. intros H s o s' E. exact (proj1 (proj2 (H _ _ _ E))). Qed.

Lemma keeps_txn_ret {A} (a : A) : keeps_txn (ret a).
Proof. apply frame_keeps_txn, frame_ret. Qed.

Lemma keeps_txn_throw {A} (e : Error) : keeps_txn (@throw A e).
Proof. apply frame_keeps_txn, frame_throw. Qed.

Lemma keeps_txn_bind {A B} (m : Async A) (k : A -> Async B) :
  keeps_txn m -> (forall a, keeps_txn (k a)) -> keeps_txn (bind m k).
Proof.
  intros Hm Hk s o s'. unfold bind.
  destruct (m s) as [[a | e] s1] eqn:E; intros H.
  - rewrite (Hk _ _ _ _ H). exact (Hm _ _ _ E).
  - injection H as _ <-. exact (Hm _ _ _ E).
Qed.

Lemma keeps_txn_try_catch {A} (m : Async A) (h : Error -> Async A) :
  keeps_txn m -> (forall e, keeps_txn (h e)) -> keeps_txn (try_catch m h).
Proof.
  intros Hm Hh s o s'. unfold try_catch.
  destruct (m s) as [[a | e] s1] eqn:E; intros H.
  - injection H as _ <-. exact (Hm _ _ _ E).
  - rewrite (Hh _ _ _ _ H). exact (Hm _ _ _ E).
Qed.

Lemma db_run_any (q : RunSql) (s s' : Store) (o : Outcome RunResult) :
  db_run q s = (o, s') ->
  txn s' = txn s /\ clock s' = clock s
  /\ match o with
     | Returned r => sql_run q (clock s) (tbl s) = inr (r, tbl s')
     | Thrown _ => tbl s' = tbl s
     end.
Proof.
  unfold db_run, bind. destruct (issue (Run q) s) as [[[] | e] s1] eqn:I.
  - destruct (issue_any _ _ _ _ I) as [I1 [I2 [I3 _]]]. rewrite I1, I3.
    destruct (sql_run q (clock s) (tbl s)) as [f | [r t]];
      intros [= <- <-]; cbn; repeat split; assumption.
  - destruct (issue_any _ _ _ _ I) as [I1 [I2 [I3 _]]].
    intros [= <- <-]. repeat split; assumption.
Qed.

Lemma keeps_txn_db_run (q : RunSql) : keeps_txn (db_run q).
Proof. intros s o s' H. exact (proj1 (db_run_any _ _ _ _ H)). Qed.

(** ** The reads *)

(** On any store, with any failure pending, and whatever they end with,
    [getUserById] and [getAllUsers] leave the table, the transaction state
    and the clock as they were: they write nothing and open no
    transaction, also when they are the first to call [initDb]. *)
Theorem reads_change_nothing (i : Z) (s : Store) :
  (forall o s',
      getUserById i s = (o, s') ->
      tbl s' = tbl s /\ txn s' = txn s /\ clock s' = clock s)
  /\ (forall o s',
        getAllUsers s = (o, s') ->
        tbl s' = tbl s /\ txn s' = txn s /\ clock s' = clock s).
Proof.
  split; intros o s' H.
  - exact (frame_getUserById i _ _ _ H).
  - exact (frame_getAllUsers _ _ _ H).
Qed.

(** ** initDb *)

Lemma initDb_opened (s : Store) :
  opened s = true -> initDb s = (Returned tt, s).
Proof. intros O. unfold initDb. now rewrite O. Qed.

(** Once [initDb] has returned, on whatever store, the handle is kept: any
    further [initDb] returns at once, without a call of the driver and
    without a change of the store. *)
Theorem initDb_memoised (s s' : Store) :
  initDb s = (Returned tt, s') ->
  opened s' = true /\ initDb s' = (Returned tt, s').
Proof.
  intros H. assert (O : opened s' = true).
  { unfold initDb in H. destruct (opened s) eqn:O.
    - unfold ret in H. now injection H as <-.
    - apply bind_returned in H. destruct H as [a1 [s1 [H1 H]]].
      apply bind_returned in H. destruct H as [a2 [s2 [H2 H]]].
      unfold modify in H2. injection H2 as _ <-.
      unfold db_exec in H. apply bind_returned in H.
      destruct H as [a3 [s3 [H3 H]]]. injection H as <-.
      destruct (issue_any _ _ _ _ H3) as [_ [_ [_ [K _]]]].
      rewrite K. reflexivity. }
  split; [exact O | now apply initDb_opened].
Qed.

Lemma initDb_memoised_witness :
  opened (snd (initDb empty_store)) = true
  /\ initDb (snd (initDb empty_store))
     = (Returned tt, snd (initDb empty_store)).
Proof. exact (initDb_memoised empty_store _ eq_refl). Defined.

(** On first use, when opening goes through and CREATE TABLE is rejected,
    [initDb] throws that failure but keeps the handle: every later [initDb]
    returns without issuing CREATE TABLE again.  When opening itself is
    rejected nothing is kept, and the next [initDb] opens again. *)
Theorem initDb_bootstrap_not_retried (s : Store) (f : SqlFailure)
    (rest : list (option SqlFailure)) :
  opened s = false ->
  (faults s = None :: Some f :: rest ->
   exists s',
     initDb s = (Thrown (StoreError f), s')
     /\ log s' = log s ++ [Open; Exec CREATE_TABLE]
     /\ opened s' = true
     /\ initDb s' = (Returned tt, s'))
  /\ (faults s = Some f :: rest ->
      exists s',
        initDb s = (Thrown (StoreError f), s')
        /\ log s' = log s ++ [Open]
        /\ opened s' = false
        /\ exists rest', log (snd (initDb s')) = log s' ++ Open :: rest').
Proof.
  intros O. destruct s as [op t x ck fl lg]. cbn in O. subst op. split.
  - cbn. intros ->. eexists. split; [reflexivity |]. cbn.
    rewrite <- app_assoc. repeat split.
  - cbn. intros ->. eexists. split; [reflexivity |]. cbn.
    split; [reflexivity |]. split; [reflexivity |].
    unfold initDb, bind, issue, modify, db_exec. cbn.
    destruct rest as [| [g |] rest]; cbn.
    + exists [Exec CREATE_TABLE]. now rewrite <- app_assoc.
    + now exists [].
    + destruct rest as [| [g |] rest]; cbn;
        exists [Exec CREATE_TABLE]; now rewrite <- app_assoc.
Qed.

Lemma initDb_bootstrap_not_retried_witness :
  exists s',
    initDb (mkStore false (mkTable [] 0) None clock0 [None; Some disk_io] [])
    = (Thrown (StoreError disk_io), s')
    /\ log s' = [Open; Exec CREATE_TABLE]
    /\ opened s' = true
    /\ initDb s' = (Returned tt, s').
Proof.
  exact (proj1 (initDb_bootstrap_not_retried
                  (mkStore false (mkTable [] 0) None clock0
                     [None; Some disk_io] [])
                  disk_io [] eq_refl) eq_refl).
Defined.

(** ** All or nothing *)

Lemma withTransaction_atomic {T} (fn : Async T) (s s' : Store)
    (o : Outcome T) :
  keeps_txn fn -> txn s = None ->
  withTransaction fn s = (o, s') ->
  match o with
  | Returned _ => txn s' = None
  | Thrown _ =>
      (txn s' = None /\ tbl s' = tbl s) \/ txn s' = Some (tbl s)
  end.
Proof.
  intros K N. unfold withTransaction, bind at 1.
  destruct (db_exec BEGIN s) as [[[] | e] s1] eqn:B.
  2:{ intros [= <- <-]. left.
      destruct (db_exec_thrown _ _ _ _ B) as [_ [B1 B2]].
      split; congruence. }
  destruct (db_exec_returned _ _ _ B) as [_ [_ [_ [B1 B2]]]].
  unfold try_catch, bind.
  destruct (fn s1) as [[v | e] s2] eqn:F.
  - pose proof (K _ _ _ F) as K2.
    destruct (db_exec COMMIT s2) as [[[] | e] s3] eqn:C.
    + intros [= <- <-]. now destruct (db_exec_returned _ _ _ C) as [_ [_ [_ [_ ?]]]].
    + destruct (db_exec_thrown _ _ _ _ C) as [_ [C1 C2]].
      destruct (db_exec ROLLBACK s3) as [[[] | e'] s4] eqn:R.
      * unfold throw. intros [= <- <-]. left.
        destruct (db_exec_returned _ _ _ R) as [_ [_ [R1 R2]]].
        split; [exact R2 |]. congruence.
      * intros [= <- <-]. right.
        destruct (db_exec_thrown _ _ _ _ R) as [_ [_ R2]]. congruence.
  - pose proof (K _ _ _ F) as K2.
    destruct (db_exec ROLLBACK s2) as [[[] | e'] s3] eqn:R.
    + unfold throw. intros [= <- <-]. left.
      destruct (db_exec_returned _ _ _ R) as [_ [_ [R1 R2]]].
      split; [exact R2 |]. congruence.
    + intros [= <- <-]. right.
      destruct (db_exec_thrown _ _ _ _ R) as [_ [_ R2]]. congruence.
Qed.

Lemma keeps_txn_create_body (user : NewUser) :
  keeps_txn (try_catch (create_try user) (create_catch user)).
Proof.
  apply keeps_txn_try_catch.
  - unfold create_try. apply keeps_txn_bind; [apply keeps_txn_db_run |].
    intros res. apply keeps_txn_bind.
    + apply frame_keeps_txn, frame_db_get.
    + intros [u |]; [apply keeps_txn_ret | apply keeps_txn_throw].
  - intros e. unfold create_catch.
    destruct (has_code e SQLITE_CONSTRAINT); apply keeps_txn_throw.
Qed.

Lemma keeps_txn_update_body (i : Z) (updates : PartialNewUser) :
  keeps_txn
    (current <- getUserById i ;;
     let updated :=
       mkNewUser
         (nullish (upd_username updates) (username current))
         (nullish (upd_email updates) (email current))
         (nullish (upd_password_hash updates) (password_hash current)) in
     db_run (UPDATE (new_username updated) (new_email updated)
               (new_password_hash updated) i) ;;
     u <- getUserById i ;;
     ret (Some u)).
Proof.
  apply keeps_txn_bind; [apply frame_keeps_txn, frame_getUserById |].
  intros current. apply keeps_txn_bind; [apply keeps_txn_db_run |].
  intros _. apply keeps_txn_bind; [apply frame_keeps_txn, frame_getUserById |].
  intros u. apply keeps_txn_ret.
Qed.

Lemma keeps_txn_delete_body (i : Z) :
  keeps_txn
    (user <- db_get i ;;
     match user with
     | None => throw (UserNotFoundError (not_found_message i))
     | Some u =>
         result <- db_run (DELETE i) ;;
         if changes result =? 0 then
           throw (UserNotFoundError creation_failed_message)
         else ret u
     end).
Proof.
  apply keeps_txn_bind; [apply frame_keeps_txn, frame_db_get |].
  intros [u |]; [| apply keeps_txn_throw].
  apply keeps_txn_bind; [apply keeps_txn_db_run |]. intros res.
  destruct (changes res =? 0); [apply keeps_txn_throw | apply keeps_txn_ret].
Qed.

Lemma after_initDb_atomic {T} (fn : Async T) (s s' : Store) (o : Outcome T) :
  keeps_txn fn -> txn s = None ->
  bind initDb (fun _ => withTransaction fn) s = (o, s') ->
  match o with
  | Returned _ => txn s' = None
  | Thrown _ =>
      (txn s' = None /\ tbl s' = tbl s) \/ txn s' = Some (tbl s)
  end.
Proof.
  intros K N. unfold bind. destruct (initDb s) as [[[] | e] s0] eqn:I.
  - destruct (frame_initDb _ _ _ I) as [I1 [I2 _]]. intros H.
    rewrite <- I1. apply (withTransaction_atomic fn s0 s' o K); congruence.
  - destruct (frame_initDb _ _ _ I) as [I1 [I2 _]]. intros [= <- <-].
    left. split; congruence.
Qed.

(** On a store with no transaction open, whatever failures are pending:
    when [createUser], [updateUser] or [deleteUser] returns, the
    transaction is closed; when it throws, either the transaction is closed
    and the table is exactly as it was before the call, or the ROLLBACK was
    rejected and the transaction is still open with the content at BEGIN
    kept for it.  A failed call never leaves a half-done change committed. *)
Theorem writes_all_or_nothing (s : Store) :
  txn s = None ->
  (forall user o s',
      createUser user s = (o, s') ->
      match o with
      | Returned _ => txn s' = None
      | Thrown _ =>
          (txn s' = None /\ tbl s' = tbl s) \/ txn s' = Some (tbl s)
      end)
  /\ (forall i updates o s',
        updateUser i updates s = (o, s') ->
        match o with
        | Returned _ => txn s' = None
        | Thrown _ =>
            (txn s' = None /\ tbl s' = tbl s) \/ txn s' = Some (tbl s)
        end)
  /\ (forall i o s',
        deleteUser i s = (o, s') ->
        match o with
        | Returned _ => txn s' = None
        | Thrown _ =>
            (txn s' = None /\ tbl s' = tbl s) \/ txn s' = Some (tbl s)
        end).
Proof.
  intros N. split; [| split].
  - intros user o s' H.
    exact (after_initDb_atomic _ s s' o (keeps_txn_create_body user) N H).
  - intros i updates o s' H.
    exact (after_initDb_atomic _ s s' o (keeps_txn_update_body i updates) N H).
  - intros i o s' H.
    exact (after_initDb_atomic _ s s' o (keeps_txn_delete_body i) N H).
Qed.

(** An insertion that went through, then a COMMIT that is rejected: the
    row is gone again. *)
Lemma writes_all_or_nothing_witness :
  let s := fresh_store [None; None; None; Some disk_io] in
  (txn (snd (createUser alice s)) = None
   /\ tbl (snd (createUser alice s)) = tbl s)
  \/ txn (snd (createUser alice s)) = Some (tbl s).
Proof.
  cbn zeta.
  apply (proj1 (writes_all_or_nothing
                  (fresh_store [None; None; None; Some disk_io]) eq_refl)
           alice (Thrown (StoreError disk_io))
           (snd (createUser alice
                   (fresh_store [None; None; None; Some disk_io])))).
  vm_compute. reflexivity.
Defined.

(** ** Where the errors come from *)

Lemma store_error_not_user (e : Error) :
  is_store_error e ->
  (forall m, e <> UserNotFoundError m)
  /\ (forall m, e <> UserAlreadyExistsError m).
Proof. intros [f ->]. split; intros m; discriminate. Qed.

Lemma withTransaction_thrown {T} (fn : Async T) (s s' : Store) (e : Error) :
  withTransaction fn s = (Thrown e, s') ->
  is_store_error e
  \/ exists s1 s2, db_exec BEGIN s = (Returned tt, s1)
                   /\ fn s1 = (Thrown e, s2).
Proof.
  unfold withTransaction. intros H. apply bind_thrown in H.
  destruct H as [H | [[] [s1 [B H]]]];
    [left; exact (raises_db_exec _ _ _ _ H) |].
  unfold try_catch in H.
  destruct (bind fn _ s1) as [[v | e0] s2] eqn:E; [discriminate |].
  apply bind_thrown in E. apply bind_thrown in H.
  destruct H as [H | [[] [s3 [_ H]]]];
    [left; exact (raises_db_exec _ _ _ _ H) |].
  unfold throw in H. injection H as <- _.
  destruct E as [E | [v [s4 [_ E]]]].
  - right. now exists s1, s2.
  - apply bind_thrown in E. destruct E as [E | [[] [s5 [_ E]]]];
      [left; exact (raises_db_exec _ _ _ _ E) | discriminate].
Qed.

Lemma db_get_any (i : Z) (s s' : Store) (o : Outcome (option User)) :
  db_get i s = (o, s') ->
  tbl s' = tbl s
  /\ match o with
     | Returned r => r = find_id i (rows (tbl s))
     | Thrown e => is_store_error e
     end.
Proof.
  intros H. split; [exact (proj1 (frame_db_get i _ _ _ H)) |].
  destruct o as [r | e].
  - destruct (db_get_returned _ _ _ _ H) as [-> [K _]]. now rewrite K.
  - exact (raises_db_get _ _ _ _ H).
Qed.

Lemma getUserById_thrown (i : Z) (s s' : Store) (e : Error) :
  getUserById i s = (Thrown e, s') ->
  is_store_error e
  \/ (e = UserNotFoundError (not_found_message i)
      /\ find_id i (rows (tbl s)) = None).
Proof.
  unfold getUserById. intros H. apply bind_thrown in H.
  destruct H as [H | [[] [s0 [I H]]]];
    [left; exact (raises_initDb _ _ _ H) |].
  destruct (frame_initDb _ _ _ I) as [I1 _].
  apply bind_thrown in H. destruct H as [H | [r [s1 [G H]]]];
    [left; exact (raises_db_get _ _ _ _ H) |].
  destruct (db_get_any _ _ _ _ G) as [_ ->]. rewrite I1 in H.
  destruct (find_id i (rows (tbl s))); [discriminate |].
  unfold throw in H. injection H as <- _. now right.
Qed.

Lemma create_try_raises (user : NewUser) :
  raises is_store_error (create_try user).
Proof.
  intros s e s' H. unfold create_try in H. apply bind_thrown in H.
  destruct H as [H | [res [s1 [R H]]]];
    [exact (raises_db_run _ _ _ _ H) |].
  apply bind_thrown in H. destruct H as [H | [r [s2 [G H]]]];
    [exact (raises_db_get _ _ _ _ H) |].
  exfalso. destruct (db_get_any _ _ _ _ G) as [_ ->].
  destruct (db_run_any _ _ _ _ R) as [_ [_ Q]]. cbn [sql_run] in Q.
  destruct (sql_insert_inr _ _ _ _ _ _ _ Q) as [_ [-> T]].
  rewrite T in H. cbn [rows lastID] in H.
  rewrite find_id_app_fresh in H; [discriminate | | reflexivity].
  intros v Hv. now apply next_id_fresh.
Qed.

Lemma raises_createUser (user : NewUser) :
  raises store_or_already_exists (createUser user).
Proof.
  unfold createUser. apply raises_bind.
  { eapply raises_weaken; [| apply raises_initDb]. now left. }
  intros _. apply raises_withTransaction; [now left |].
  intros s e s'. unfold try_catch.
  destruct (create_try user s) as [[u | e0] s1] eqn:T; [discriminate |].
  pose proof (create_try_raises _ _ _ _ T) as P. unfold create_catch.
  destruct (has_code e0 SQLITE_CONSTRAINT); unfold throw; intros [= <- _].
  - right. now eexists.
  - now left.
Qed.

(** On any store, with any failure pending, [createUser] throws nothing
    but a failure of the store or [UserAlreadyExistsError]: the row just
    inserted is always found by the read-back, and the branch that throws
    [UserNotFoundError] on a missing row is never taken. *)
Theorem createUser_never_not_found (user : NewUser) (s s' : Store)
    (e : Error) :
  createUser user s = (Thrown e, s') ->
  (is_store_error e \/ exists msg, e = UserAlreadyExistsError msg)
  /\ forall msg, e <> UserNotFoundError msg.
Proof.
  intros H. pose proof (raises_createUser user _ _ _ H) as P.
  split; [exact P |]. intros msg ->.
  destruct P as [[f K] | [m K]]; discriminate.
Qed.

Lemma createUser_never_not_found_witness :
  is_store_error (StoreError disk_io)
  \/ exists msg, StoreError disk_io = UserAlreadyExistsError msg.
Proof.
  refine (proj1 (createUser_never_not_found alice
                   (fresh_store [None; None; Some disk_io; None])
                   (snd (createUser alice
                           (fresh_store [None; None; Some disk_io; None])))
                   (StoreError disk_io) _)).
  vm_compute. reflexivity.
Defined.

Lemma not_found_message_differs (i : Z) :
  not_found_message i <> creation_failed_message.
Proof. unfold not_found_message, creation_failed_message. discriminate. Qed.

(** On any store, with any failure pending: when [deleteUser i] or
    [updateUser i] throws [UserNotFoundError], no row had the id [i] when
    it was called, and the message is the one that names [i].  The row
    found at the start of the transaction is still there for the DELETE
    and for the read-back: the second check of each is never what throws. *)
Theorem not_found_means_absent (i : Z) (s s' : Store) (msg : string) :
  (deleteUser i s = (Thrown (UserNotFoundError msg), s') ->
   msg = not_found_message i /\ find_id i (rows (tbl s)) = None)
  /\ (forall updates,
        updateUser i updates s = (Thrown (UserNotFoundError msg), s') ->
        msg = not_found_message i /\ find_id i (rows (tbl s)) = None).
Proof.
  split.
  - unfold deleteUser. intros H. apply bind_thrown in H.
    destruct H as [H | [[] [s0 [I H]]]].
    { now destruct (proj1 (store_error_not_user _ (raises_initDb _ _ _ H)) msg). }
    destruct (frame_initDb _ _ _ I) as [I1 _].
    apply withTransaction_thrown in H. destruct H as [H | [s1 [s2 [B H]]]].
    { now destruct (proj1 (store_error_not_user _ H) msg). }
    destruct (db_exec_returned _ _ _ B) as [_ [_ [_ [B1 _]]]].
    apply bind_thrown in H. destruct H as [H | [r [s3 [G H]]]].
    { now destruct (proj1 (store_error_not_user _ (raises_db_get _ _ _ _ H)) msg). }
    destruct (db_get_any _ _ _ _ G) as [G1 ->]. rewrite B1, I1 in H.
    destruct (find_id i (rows (tbl s))) as [u |] eqn:F.
    + exfalso. apply bind_thrown in H.
      destruct H as [H | [res [s4 [R H]]]].
      { now destruct (proj1 (store_error_not_user _
                               (raises_db_run _ _ _ _ H)) msg). }
      destruct (db_run_any _ _ _ _ R) as [_ [_ Q]]. cbn [sql_run] in Q.
      assert (Q' : sql_delete i (tbl s3) = (res, tbl s4)) by congruence.
      pose proof (f_equal fst Q') as Hres. cbn [fst] in Hres.
      rewrite <- Hres, G1, B1, I1 in H.
      rewrite (find_id_changes i (tbl s) u F) in H. discriminate.
    + unfold throw in H. injection H as <-. now split.
  - intros updates. unfold updateUser. intros H. apply bind_thrown in H.
    destruct H as [H | [[] [s0 [I H]]]].
    { now destruct (proj1 (store_error_not_user _ (raises_initDb _ _ _ H)) msg). }
    destruct (frame_initDb _ _ _ I) as [I1 _].
    apply withTransaction_thrown in H. destruct H as [H | [s1 [s2 [B H]]]].
    { now destruct (proj1 (store_error_not_user _ H) msg). }
    destruct (db_exec_returned _ _ _ B) as [_ [_ [_ [B1 _]]]].
    apply bind_thrown in H. destruct H as [H | [cur [s3 [G H]]]].
    { apply getUserById_thrown in H. destruct H as [H | [H1 H2]].
      - now destruct (proj1 (store_error_not_user _ H) msg).
      - injection H1 as ->. split; [reflexivity |]. congruence. }
    exfalso. destruct (getUserById_returned _ _ _ _ G) as [F [G1 _]].
    apply bind_thrown in H. destruct H as [H | [res [s4 [R H]]]].
    { now destruct (proj1 (store_error_not_user _
                             (raises_db_run _ _ _ _ H)) msg). }
    destruct (db_run_any _ _ _ _ R) as [_ [_ Q]]. cbn [sql_run] in Q.
    apply bind_thrown in H. destruct H as [H | [u [s5 [_ H]]]];
      [| discriminate].
    apply getUserById_thrown in H. destruct H as [H | [_ H]].
    { now destruct (proj1 (store_error_not_user _ H) msg). }
    destruct (sql_update_inr _ _ _ _ _ _ _ _ F Q) as [_ T].
    rewrite T in H. cbn [rows] in H.
    rewrite (find_id_rewritten _ _ _ _ _ _ F) in H. discriminate.
Qed.

Lemma not_found_means_absent_witness :
  not_found_message 9 = not_found_message 9
  /\ find_id 9 (rows (tbl two_users)) = None.
Proof.
  exact (proj1 (not_found_means_absent 9 two_users _ _) eq_refl).
Defined.

(** ** What a request does to the table *)

(** On a store in working order a request leaves the table alone, or
    appends the row it creates, or rewrites the rows of one id, or removes
    them. *)
Lemma serve_table (r : Request) (s : Store) :
  healthy s ->
  tbl (serve r s) = tbl s
  \/ (exists user,
         r = CreateUser user
         /\ unused (new_username user) (new_email user) (rows (tbl s))
         /\ fst (createUser user s)
            = Returned (created user (tbl s) (clock s))
         /\ tbl (serve r s)
            = mkTable (rows (tbl s) ++ [created user (tbl s) (clock s)])
                (next_id (tbl s)))
  \/ (exists j updates current,
         r = UpdateUser j updates
         /\ find_id j (rows (tbl s)) = Some current
         /\ fst (updateUser j updates s)
            = Returned (Some (merged updates current))
         /\ unused_by_others j (username (merged updates current))
              (email (merged updates current)) (rows (tbl s))
         /\ tbl (serve r s)
            = mkTable
                (map (rewrite_row j (username (merged updates current))
                        (email (merged updates current))
                        (password_hash (merged updates current)))
                   (rows (tbl s)))
                (seq (tbl s)))
  \/ (exists j u,
         r = DeleteUser j
         /\ find_id j (rows (tbl s)) = Some u
         /\ fst (deleteUser j s) = Returned u
         /\ tbl (serve r s) = snd (sql_delete j (tbl s))).
Proof.
  intros H. destruct r as [user | j | | j updates | j | now]; cbn [serve].
  - pose proof (createUser_eval user s H) as E. cbn zeta in E.
    destruct E as [_ [_ E]].
    destruct (sql_insert _ _ _ _ _) as [f | [res t]] eqn:I.
    + left. now destruct E as [_ [-> _]].
    + destruct (sql_insert_inr _ _ _ _ _ _ _ I) as [U _].
      right; left. exists user. split; [reflexivity |].
      split; [exact U |].
      destruct (createUser_unused user s H U) as [K1 [_ [_ [K2 _]]]].
      split; [exact K1 | exact K2].
  - left. exact (proj1 (frame_getUserById j s _ _
                          (surjective_pairing (getUserById j s)))).
  - left. exact (proj1 (frame_getAllUsers s _ _
                          (surjective_pairing (getAllUsers s)))).
  - destruct (find_id j (rows (tbl s))) as [current |] eqn:F.
    + destruct (updateUser_healthy_run j updates s current H F)
        as [[U [E [T _]]] | [column [_ [_ [T _]]]]].
      * right; right; left. exists j, updates, current.
        repeat split; try assumption; now apply U.
      * now left.
    + left. pose proof (updateUser_eval j updates s H) as E.
      cbn zeta in E. rewrite F in E. now destruct E as [_ [_ [_ [-> _]]]].
  - pose proof (deleteUser_eval j s H) as E. cbn zeta in E.
    destruct E as [_ [_ E]].
    destruct (find_id j (rows (tbl s))) as [u |] eqn:F.
    + right; right; right. exists j, u. destruct E as [E1 [E2 _]].
      now repeat split.
    + left. now destruct E as [_ [-> _]].
  - now left.
Qed.

Lemma find_id_app_l (i : Z) (l l' : list User) (u : User) :
  find_id i l = Some u -> find_id i (l ++ l') = Some u.
Proof.
  unfold find_id. induction l as [| v l IH]; cbn; [discriminate |].
  destruct (has_id i v); [trivial | exact IH].
Qed.

Lemma find_id_rewrite_other (i j : Z) (u e p : string) (l : list User) :
  j <> i -> find_id i (map (rewrite_row j u e p) l) = find_id i l.
Proof.
  intros N. unfold find_id. induction l as [| v l IH]; [reflexivity |].
  cbn [map find].
  assert (K : has_id i (rewrite_row j u e p v) = has_id i v)
    by (unfold has_id; now rewrite rewrite_row_id).
  rewrite K, IH. destruct (has_id i v) eqn:E; [| reflexivity].
  apply has_id_true in E. unfold rewrite_row.
  rewrite (proj2 (has_id_false j v)) by congruence. reflexivity.
Qed.

Lemma find_id_delete_other (i j : Z) (t : Table) :
  j <> i -> find_id i (rows (snd (sql_delete j t))) = find_id i (rows t).
Proof.
  intros N. unfold sql_delete, find_id. cbn [snd rows].
  induction (rows t) as [| v l IH]; [reflexivity |]. cbn [filter find].
  destruct (has_id j v) eqn:J; cbn [negb].
  - apply has_id_true in J.
    rewrite (proj2 (has_id_false i v)) by congruence. exact IH.
  - cbn [find]. now rewrite IH.
Qed.

(** ** One user's record and the requests about the others *)

Lemma serve_spares (i : Z) (u : User) (r : Request) (s : Store) :
  healthy s -> spares i r ->
  find_id i (rows (tbl s)) = Some u ->
  find_id i (rows (tbl (serve r s))) = Some u.
Proof.
  intros H Sp F.
  destruct (serve_table r s H)
    as [T | [[user [-> [_ [_ T]]]] | [[j [upd [cur [-> [_ [_ [_ T]]]]]]]
                                      | [j [v [-> [_ [_ T]]]]]]]];
    rewrite T; cbn [rows].
  - exact F.
  - now apply find_id_app_l.
  - rewrite find_id_rewrite_other; [exact F | exact Sp].
  - rewrite find_id_delete_other; [exact F | exact Sp].
Qed.

(** On a store in working order, whatever requests are served that neither
    update nor delete the user [i] (creations, reads, updates and deletions
    of other users, in any number and order), [getUserById i] returns
    afterwards the very record it returned before. *)
Theorem other_requests_spare_record (i : Z) (u : User) (s : Store)
    (later : list Request) :
  healthy s ->
  fst (getUserById i s) = Returned u ->
  Forall (spares i) later ->
  fst (getUserById i (serve_all later s)) = Returned u.
Proof.
  intros H G Sp.
  assert (F : find_id i (rows (tbl s)) = Some u).
  { destruct (getUserById_eval i s (proj1 H)) as [_ [_ [_ [_ [_ K]]]]].
    rewrite G in K. destruct (find_id i (rows (tbl s))); congruence. }
  clear G. revert s H F. induction Sp as [| r later Hr _ IH]; intros s H F.
  - destruct (getUserById_eval i s (proj1 H)) as [_ [_ [_ [_ [_ K]]]]].
    now rewrite F in K.
  - cbn [serve_all fold_left].
    exact (IH _ (serve_healthy r s H) (serve_spares i u r s H Hr F)).
Qed.

Lemma other_requests_spare_record_witness :
  fst (getUserById 1
         (serve_all
            [CreateUser (mkNewUser "carol" "c@x.com" "h3");
             UpdateUser 2 (mkPartial (Supplied "robert") Undefined Undefined);
             DeleteUser 3; GetAllUsers; Tick "2026-01-01 00:00:00"]
            two_users))
  = Returned (mkUser 1 "alice" "a@x.com" "h1" clock0).
Proof.
  apply (other_requests_spare_record 1 _ two_users).
  - split; reflexivity.
  - reflexivity.
  - repeat constructor; cbn; discriminate.
Defined.

Lemma serve_keeps_alive (i : Z) (c : string) (r : Request) (s : Store) :
  healthy s -> keeps_alive i r ->
  (exists u, find_id i (rows (tbl s)) = Some u /\ created_at u = c) ->
  exists u, find_id i (rows (tbl (serve r s))) = Some u /\ created_at u = c.
Proof.
  intros H Ka [u [F C]].
  destruct (serve_table r s H)
    as [T | [[user [-> [_ [_ T]]]] | [[j [upd [cur [-> [Fj [_ [_ T]]]]]]]
                                      | [j [v [-> [_ [_ T]]]]]]]];
    rewrite T; cbn [rows].
  - now exists u.
  - exists u. split; [now apply find_id_app_l | exact C].
  - destruct (Z.eq_dec j i) as [-> | N].
    + rewrite (find_id_rewritten _ _ _ _ _ _ F). eexists.
      split; [reflexivity | exact C].
    + exists u. rewrite find_id_rewrite_other; [now split | exact N].
  - exists u. rewrite find_id_delete_other; [now split | exact Ka].
Qed.

(** On a store in working order, as long as no request deletes the user
    [i], the user stays retrievable under the same id with the same
    created_at, whatever updates of it and whatever other requests are
    served: no accessor changes an id or a time of creation. *)
Theorem id_and_created_at_immutable (i : Z) (u : User) (s : Store)
    (later : list Request) :
  healthy s ->
  fst (getUserById i s) = Returned u ->
  Forall (keeps_alive i) later ->
  exists u',
    fst (getUserById i (serve_all later s)) = Returned u'
    /\ id u' = id u /\ created_at u' = created_at u.
Proof.
  intros H G Ka.
  assert (F : exists v, find_id i (rows (tbl s)) = Some v
                        /\ created_at v = created_at u).
  { destruct (getUserById_eval i s (proj1 H)) as [_ [_ [_ [_ [_ K]]]]].
    rewrite G in K. exists u.
    destruct (find_id i (rows (tbl s))); [split; congruence | discriminate]. }
  assert (Hid : id u = i).
  { destruct F as [v [F C]].
    destruct (getUserById_eval i s (proj1 H)) as [_ [_ [_ [_ [_ K]]]]].
    rewrite G, F in K. injection K as ->. now destruct (find_id_some _ _ _ F). }
  clear G. revert s H F. induction Ka as [| r later Hr _ IH]; intros s H F.
  - destruct F as [v [F C]]. exists v.
    destruct (getUserById_eval i s (proj1 H)) as [_ [_ [_ [_ [_ K]]]]].
    rewrite F in K. cbn [serve_all fold_left].
    split; [exact K |]. split; [| exact C].
    destruct (find_id_some _ _ _ F) as [_ E]. congruence.
  - cbn [serve_all fold_left].
    exact (IH _ (serve_healthy r s H)
             (serve_keeps_alive i (created_at u) r s H Hr F)).
Qed.

Lemma id_and_created_at_immutable_witness :
  exists u',
    fst (getUserById 2
           (serve_all
              [Tick "2026-01-01 00:00:00";
               UpdateUser 2 (mkPartial (Supplied "robert") Null
                               (Supplied "h9"));
               DeleteUser 1]
              two_users))
    = Returned u'
    /\ id u' = 2 /\ created_at u' = clock0.
Proof.
  apply (id_and_created_at_immutable 2
           (mkUser 2 "bob" "b@x.com" "h2" clock0) two_users).
  - split; reflexivity.
  - reflexivity.
  - repeat constructor; cbn; discriminate.
Defined.

(** ** Ids *)

Lemma serve_seq (r : Request) (s : Store) :
  healthy s -> seq (tbl s) <= seq (tbl (serve r s)).
Proof.
  intros H.
  destruct (serve_table r s H)
    as [T | [[user [_ [_ [_ T]]]] | [[j [upd [cur [_ [_ [_ [_ T]]]]]]]
                                     | [j [v [_ [_ [_ T]]]]]]]];
    rewrite T; cbn [seq].
  - lia.
  - pose proof (next_id_above_seq (tbl s)). lia.
  - lia.
  - unfold sql_delete. cbn [snd seq]. lia.
Qed.

Lemma serve_all_seq (l : list Request) (s : Store) :
  healthy s ->
  healthy (serve_all l s) /\ seq (tbl s) <= seq (tbl (serve_all l s)).
Proof.
  revert s. induction l as [| r l IH]; intros s H; [split; [exact H | cbn; lia] |].
  cbn [serve_all fold_left].
  destruct (IH _ (serve_healthy r s H)) as [H' L].
  split; [exact H' |]. pose proof (serve_seq r s H). unfold serve_all in L. lia.
Qed.

(** On a store in working order, a user created later gets a strictly
    larger id than a user created before, whatever requests (deletions
    included) are served in between. *)
Theorem ids_strictly_increase (first second : NewUser) (s s1 s2 : Store)
    (u1 u2 : User) (between : list Request) :
  healthy s ->
  createUser first s = (Returned u1, s1) ->
  createUser second (serve_all between s1) = (Returned u2, s2) ->
  id u1 < id u2.
Proof.
  intros H C1 C2.
  destruct (createUser_returned first s s1 u1 H C1) as [_ [_ [H1 T1]]].
  destruct (serve_all_seq between s1 H1) as [H2 L].
  destruct (createUser_returned second _ s2 u2 H2 C2) as [_ [-> _]].
  rewrite T1 in L. cbn [seq] in L. cbn [id created].
  pose proof (next_id_above_seq (tbl (serve_all between s1))). lia.
Qed.

Lemma ids_strictly_increase_witness :
  id (mkUser 1 "alice" "a@x.com" "h1" clock0)
  < id (mkUser 2 "bob" "b@x.com" "h2" clock0).
Proof.
  apply (ids_strictly_increase alice bob (fresh_store [])
           (snd (createUser alice (fresh_store [])))
           (snd (createUser bob
                   (serve_all [DeleteUser 1; GetAllUsers]
                      (snd (createUser alice (fresh_store []))))))
           _ _ [DeleteUser 1; GetAllUsers]).
  - split; reflexivity.
  - vm_compute. reflexivity.
  - vm_compute. reflexivity.
Defined.

(** ** The listing and the other accessors *)

Lemma insert_by_id_last (v x : User) (l : list User) :
  id v <= id x -> insert_by_id v (l ++ [x]) = insert_by_id v l ++ [x].
Proof.
  intros L. induction l as [| w l IH]; cbn.
  - now rewrite (proj2 (Z.leb_le _ _) L).
  - destruct (id v <=? id w); [reflexivity | now rewrite IH].
Qed.

Lemma order_by_id_snoc (l : list User) (x : User) :
  (forall v, In v l -> id v <= id x) ->
  order_by_id (l ++ [x]) = order_by_id l ++ [x].
Proof.
  unfold order_by_id. induction l as [| v l IH]; intros H; [reflexivity |].
  cbn [app fold_right]. rewrite IH by (intros w Hw; apply H; now right).
  apply insert_by_id_last. apply H. now left.
Qed.

(** On a store in working order, after a [createUser] that returned,
    [getAllUsers] returns what it returned before with the new user added
    at the end. *)
Theorem created_user_listed_last (user : NewUser) (s s1 : Store) (u : User) :
  healthy s ->
  createUser user s = (Returned u, s1) ->
  exists before,
    fst (getAllUsers s) = Returned before
    /\ fst (getAllUsers s1) = Returned (before ++ [u]).
Proof.
  intros H C.
  destruct (createUser_returned user s s1 u H C) as [_ [E [H1 T]]].
  exists (order_by_id (rows (tbl s))).
  destruct (getAllUsers_eval s (proj1 H)) as [_ [_ [_ [_ [_ G]]]]].
  destruct (getAllUsers_eval s1 (proj1 H1)) as [_ [_ [_ [_ [_ G1]]]]].
  split; [exact G |]. rewrite G1, T. cbn [rows]. f_equal.
  apply order_by_id_snoc. intros v Hv. rewrite E. cbn [id created].
  pose proof (max_id_ge _ _ Hv). unfold next_id. lia.
Qed.

Lemma created_user_listed_last_witness :
  exists before,
    fst (getAllUsers shuffled) = Returned before
    /\ fst (getAllUsers
              (snd (createUser (mkNewUser "dave" "d@x.com" "h4") shuffled)))
       = Returned (before ++ [mkUser 4 "dave" "d@x.com" "h4" clock0]).
Proof.
  exact (created_user_listed_last (mkNewUser "dave" "d@x.com" "h4")
           shuffled _ _ (conj eq_refl eq_refl) eq_refl).
Defined.

(** On a store without a pending failure whose ids are all different, the
    users [getAllUsers] returns are exactly the records [getUserById]
    returns for their ids. *)
Theorem listing_agrees_with_lookup (s : Store) :
  faults s = [] ->
  NoDup (map id (rows (tbl s))) ->
  exists users,
    fst (getAllUsers s) = Returned users
    /\ forall u, In u users <-> fst (getUserById (id u) s) = Returned u.
Proof.
  intros H N. exists (order_by_id (rows (tbl s))).
  destruct (getAllUsers_eval s H) as [_ [_ [_ [_ [_ G]]]]].
  split; [exact G |]. intros u.
  destruct (getUserById_eval (id u) s H) as [_ [_ [_ [_ [_ K]]]]].
  rewrite K. split.
  - intros Hin.
    apply (Permutation_in _ (order_by_id_perm (rows (tbl s)))) in Hin.
    now rewrite (find_id_unique (id u) _ u N Hin eq_refl).
  - intros F. destruct (find_id (id u) (rows (tbl s))) as [v |] eqn:E;
      [| discriminate].
    injection F as ->. destruct (find_id_some _ _ _ E) as [Hin _].
    apply (Permutation_in _ (Permutation_sym (order_by_id_perm _))).
    exact Hin.
Qed.

Lemma listing_agrees_with_lookup_witness :
  exists users,
    fst (getAllUsers shuffled) = Returned users
    /\ forall u, In u users <-> fst (getUserById (id u) shuffled) = Returned u.
Proof.
  apply (listing_agrees_with_lookup shuffled eq_refl).
  cbn. repeat constructor; cbn; intuition discriminate.
Defined.

(** ** Creating and deleting *)

Lemma filter_fresh_id (i : Z) (l : list User) (x : User) :
  (forall v, In v l -> id v <> i) -> id x = i ->
  filter (fun r => negb (has_id i r)) (l ++ [x]) = l.
Proof.
  intros H E. induction l as [| v l IH]; cbn.
  - now rewrite (proj2 (has_id_true i x) E).
  - rewrite (proj2 (has_id_false i v)) by (apply H; now left). cbn.
    f_equal. apply IH. intros w Hw. apply H. now right.
Qed.

(** On a store in working order, creating a user and deleting it again by
    the id returned gives back the very record that was created and leaves
    the rows of the table exactly as they were; only the id is used up:
    the same user created once more gets the next id. *)
Theorem create_then_delete_restores (user : NewUser) (s : Store) :
  healthy s ->
  unused (new_username user) (new_email user) (rows (tbl s)) ->
  exists u s1 s2 s3,
    createUser user s = (Returned u, s1)
    /\ deleteUser (id u) s1 = (Returned u, s2)
    /\ rows (tbl s2) = rows (tbl s)
    /\ createUser user s2
       = (Returned (mkUser (id u + 1) (username u) (email u)
                      (password_hash u) (created_at u)), s3).
Proof.
  intros H U.
  destruct (createUser_unused user s H U) as [C [H1 [K1 [T1 _]]]].
  set (u := created user (tbl s) (clock s)) in *.
  assert (F1 : find_id (id u) (rows (tbl (snd (createUser user s)))) = Some u).
  { rewrite T1. cbn [rows]. apply find_id_app_fresh; [| reflexivity].
    intros v Hv. now apply next_id_fresh. }
  pose proof (deleteUser_eval (id u) _ H1) as D. cbn zeta in D.
  rewrite F1 in D. destruct D as [H2 [K2 [D [T2 _]]]].
  assert (R : rows (tbl (snd (deleteUser (id u) (snd (createUser user s)))))
              = rows (tbl s)).
  { rewrite T2, T1. unfold sql_delete. cbn [snd rows].
    apply filter_fresh_id; [| reflexivity].
    intros v Hv. now apply next_id_fresh. }
  assert (U2 : unused (new_username user) (new_email user)
                 (rows (tbl (snd (deleteUser (id u)
                                    (snd (createUser user s))))))).
  { now rewrite R. }
  destruct (createUser_unused user _ H2 U2) as [C2 _].
  exists u, (snd (createUser user s)),
    (snd (deleteUser (id u) (snd (createUser user s)))),
    (snd (createUser user (snd (deleteUser (id u) (snd (createUser user s)))))).
  split; [rewrite <- C; apply surjective_pairing |].
  split; [rewrite <- D; apply surjective_pairing |].
  split; [exact R |].
  rewrite (surjective_pairing (createUser user _)), C2. f_equal. f_equal.
  unfold created. rewrite K2, K1. f_equal.
  unfold next_id. rewrite R, T2, T1. unfold sql_delete. cbn [snd seq id u created].
  unfold next_id. lia.
Qed.

Lemma create_then_delete_restores_witness :
  exists u s1 s2 s3,
    createUser (mkNewUser "carol" "c@x.com" "h3") two_users = (Returned u, s1)
    /\ deleteUser (id u) s1 = (Returned u, s2)
    /\ rows (tbl s2) = rows (tbl two_users)
    /\ createUser (mkNewUser "carol" "c@x.com" "h3") s2
       = (Returned (mkUser (id u + 1) (username u) (email u)
                      (password_hash u) (created_at u)), s3).
Proof.
  apply (create_then_delete_restores (mkNewUser "carol" "c@x.com" "h3")
           two_users).
  - split; reflexivity.
  - intros r Hr. vm_compute in Hr.
    destruct Hr as [<- | [<- | []]]; split; discriminate.
Defined.

(** ** Updating twice *)

Lemma nullish_idem (o : Optional) (b : string) :
  nullish o (nullish o b) = nullish o b.
Proof. now destruct o. Qed.

Lemma rewrite_row_idem (i : Z) (u e p : string) (r : User) :
  rewrite_row i u e p (rewrite_row i u e p r) = rewrite_row i u e p r.
Proof.
  unfold rewrite_row. destruct (has_id i r) eqn:E; [| now rewrite E].
  unfold has_id in *. cbn [id set_fields]. now rewrite E.
Qed.

(** On a store in working order, an [updateUser] that returned, repeated
    with the same arguments, returns the same record again and leaves the
    table as the first call left it. *)
Theorem updateUser_repeated (i : Z) (updates : PartialNewUser)
    (s s1 : Store) (v : option User) :
  healthy s ->
  updateUser i updates s = (Returned v, s1) ->
  exists s2,
    updateUser i updates s1 = (Returned v, s2) /\ tbl s2 = tbl s1.
Proof.
  intros H R.
  assert (H1 : healthy s1).
  { pose proof (updateUser_eval i updates s H) as E. cbn zeta in E.
    rewrite R in E. exact (proj1 E). }
  destruct (find_id i (rows (tbl s))) as [current |] eqn:F.
  2:{ pose proof (updateUser_eval i updates s H) as E. cbn zeta in E.
      rewrite R, F in E. destruct E as [_ [_ [E _]]]. discriminate. }
  destruct (updateUser_healthy_run i updates s current H F)
    as [[U [E [T _]]] | [column [_ [E _]]]];
    [| cbn zeta in E; rewrite R in E; discriminate].
  cbn zeta in U, E, T. rewrite R in E, T. cbn [fst snd] in E, T.
  injection E as ->.
  set (m := merged updates current) in *.
  assert (F1 : find_id i (rows (tbl s1)) = Some m).
  { rewrite T. cbn [rows]. now rewrite (find_id_rewritten _ _ _ _ _ _ F). }
  assert (M : merged updates m = m).
  { unfold m, merged. cbn [id username email password_hash created_at].
    now rewrite !nullish_idem. }
  destruct (updateUser_healthy_run i updates s1 m H1 F1)
    as [[_ [E1 [T1 _]]] | [column [Uq _]]]; cbn zeta in *.
  - rewrite M in E1, T1.
    exists (snd (updateUser i updates s1)). split.
    + rewrite <- E1. apply surjective_pairing.
    + rewrite T1, T. cbn [rows seq]. f_equal. rewrite map_map.
      apply map_ext. intros r. apply rewrite_row_idem.
  - exfalso. rewrite M in Uq.
    rewrite (sql_update_free _ _ _ _ _ _ F1) in Uq; [discriminate |].
    intros r Hr Hi. rewrite T in Hr. cbn [rows] in Hr.
    apply (rewrite_row_others i (username m) (email m) (password_hash m)
             (rows (tbl s)) r Hi) in Hr. now apply (U r).
Qed.

Lemma updateUser_repeated_witness :
  exists s2,
    updateUser 2 (mkPartial Undefined (Supplied "bob@y.org") Undefined)
      (snd (updateUser 2 (mkPartial Undefined (Supplied "bob@y.org") Undefined)
              two_users))
    = (Returned (Some (mkUser 2 "bob" "bob@y.org" "h2" clock0)), s2)
    /\ tbl s2
       = tbl (snd (updateUser 2
                     (mkPartial Undefined (Supplied "bob@y.org") Undefined)
                     two_users)).
Proof.
  apply (updateUser_repeated 2 _ two_users).
  - split; reflexivity.
  - vm_compute. reflexivity.
Defined.

(** ** The constraints of the schema are kept *)

(** On a store in working order whose table meets the constraints of the
    schema (ids all different, usernames all different, emails all
    different, no id above AUTOINCREMENT's counter), every sequence of
    requests ends on a store in working order whose table meets them
    again. *)
Theorem requests_keep_constraints (later : list Request) (s : Store) :
  healthy s -> integrity (tbl s) ->
  healthy (serve_all later s) /\ integrity (tbl (serve_all later s)).
Proof.
  revert s. induction later as [| r later IH]; intros s H G; [now split |].
  cbn [serve_all fold_left].
  exact (IH _ (serve_healthy r s H) (serve_integrity r s H G)).
Qed.

Lemma requests_keep_constraints_witness :
  healthy (serve_all [CreateUser alice; CreateUser alice2; DeleteUser 1]
             two_users)
  /\ integrity (tbl (serve_all [CreateUser alice; CreateUser alice2;
                                DeleteUser 1] two_users)).
Proof.
  apply (requests_keep_constraints _ two_users).
  - split; reflexivity.
  - exact integrity_two_users.
Defined.

(** * The controllers *)

(** ** POST: validation *)

(** In both controllers, when the username, the email or the password_hash
    of the body is missing, [null] or the empty string, [createUser]
    answers 400 with the message that the three are required, and the
    store is not touched at all: no call of the driver is made, on any
    store. *)
Theorem createUser_handler_rejects_incomplete (req_body : PartialNewUser)
    (s : Store) :
  truthy (upd_username req_body) && truthy (upd_email req_body)
  && truthy (upd_password_hash req_body) = false ->
  Controller.createUser req_body s
  = (Sent (mkResponse 400
             (JObject [("success"%string, JBool false);
                       ("message"%string, JString required_message)])), s)
  /\ PlainController.createUser req_body s
     = (Sent (mkResponse 400
                (JObject [("message"%string, JString required_message)])), s).
Proof.
  intros H.
  assert (K : negb (truthy (upd_username req_body))
              || negb (truthy (upd_email req_body))
              || negb (truthy (upd_password_hash req_body)) = true).
  { destruct (truthy (upd_username req_body)),
             (truthy (upd_email req_body)),
             (truthy (upd_password_hash req_body)); cbn in *; congruence. }
  unfold Controller.createUser, PlainController.createUser, asyncHandler.
  cbn zeta. rewrite K. split; reflexivity.
Qed.

Lemma createUser_handler_rejects_incomplete_witness :
  Controller.createUser
    (mkPartial (Supplied "alice") (Supplied EmptyString) (Supplied "h1"))
    two_users
  = (Sent (mkResponse 400
             (JObject [("success"%string, JBool false);
                       ("message"%string, JString required_message)])),
     two_users).
Proof.
  exact (proj1 (createUser_handler_rejects_incomplete
                  (mkPartial (Supplied "alice") (Supplied EmptyString)
                     (Supplied "h1")) two_users eq_refl)).
Defined.

(** ** POST: the answers *)

Lemma truthy_all (req_body : PartialNewUser) :
  truthy (upd_username req_body) && truthy (upd_email req_body)
  && truthy (upd_password_hash req_body) = true ->
  negb (truthy (upd_username req_body))
  || negb (truthy (upd_email req_body))
  || negb (truthy (upd_password_hash req_body)) = false.
Proof.
  destruct (truthy (upd_username req_body)),
           (truthy (upd_email req_body)),
           (truthy (upd_password_hash req_body)); cbn; congruence.
Qed.

(** [createUser] of the controller always answers, on any store and under
    any failure of the store: it hands no error to [next], and its status
    is 400, 201, 409 or 500.  With a complete body on a store in working
    order it answers 201 with the row created when nobody holds the
    username and the email, and 409 [User already exists], the table left
    as it was, when somebody does. *)
Theorem createUser_handler_answers (req_body : PartialNewUser) (s : Store) :
  (exists r s',
      Controller.createUser req_body s = (Sent r, s')
      /\ In (status r) [400; 201; 409; 500])
  /\ (healthy s ->
      truthy (upd_username req_body) && truthy (upd_email req_body)
      && truthy (upd_password_hash req_body) = true ->
      let user := requested req_body in
      (unused (new_username user) (new_email user) (rows (tbl s)) ->
       exists s',
         Controller.createUser req_body s
         = (Sent (mkResponse 201
                    (JObject
                       [("success"%string, JBool true);
                        ("data"%string,
                         user_json (created user (tbl s) (clock s)));
                        ("message"%string,
                         JString "User created successfully")])), s')
         /\ tbl s'
            = mkTable (rows (tbl s) ++ [created user (tbl s) (clock s)])
                (next_id (tbl s)))
      /\ (forall r,
            In r (rows (tbl s)) ->
            username r = new_username user \/ email r = new_email user ->
            exists s',
              Controller.createUser req_body s
              = (Sent (mkResponse 409
                         (JObject
                            [("success"%string, JBool false);
                             ("message"%string,
                              JString "User already exists")])), s')
              /\ tbl s' = tbl s)).
Proof.
  split.
  - unfold Controller.createUser, asyncHandler. cbn zeta.
    destruct (negb (truthy (upd_username req_body))
              || negb (truthy (upd_email req_body))
              || negb (truthy (upd_password_hash req_body))).
    + do 2 eexists. split; [reflexivity |]. cbn. tauto.
    + unfold try_catch, bind, db.createUser.
      destruct (createUser _ s) as [[u | e] s1].
      * do 2 eexists. split; [reflexivity |]. cbn. tauto.
      * destruct e; do 2 eexists; (split; [reflexivity |]); cbn; tauto.
  - intros H T. cbn zeta. pose proof (truthy_all _ T) as K. split.
    + intros U.
      destruct (createUser_unused (requested req_body) s H U)
        as [C [_ [_ [Tb _]]]].
      exists (snd (createUser (requested req_body) s)).
      split; [| exact Tb].
      unfold Controller.createUser, asyncHandler. cbn zeta. rewrite K.
      unfold try_catch, bind, db.createUser. fold (requested req_body).
      rewrite (surjective_pairing (createUser (requested req_body) s)), C.
      reflexivity.
    + intros r Hr Tk.
      destruct (createUser_taken (requested req_body) s r H Hr Tk)
        as [C [_ [_ [Tb _]]]].
      exists (snd (createUser (requested req_body) s)).
      split; [| exact Tb].
      unfold Controller.createUser, asyncHandler. cbn zeta. rewrite K.
      unfold try_catch, bind, db.createUser. fold (requested req_body).
      rewrite (surjective_pairing (createUser (requested req_body) s)), C.
      reflexivity.
Qed.

Lemma createUser_handler_answers_witness :
  exists s',
    Controller.createUser
      (mkPartial (Supplied "alice") (Supplied "x@x.com") (Supplied "h9"))
      two_users
    = (Sent (mkResponse 409
               (JObject [("success"%string, JBool false);
                         ("message"%string,
                          JString "User already exists")])), s')
    /\ tbl s' = tbl two_users.
Proof.
  refine (proj2 (proj2 (createUser_handler_answers
                          (mkPartial (Supplied "alice") (Supplied "x@x.com")
                             (Supplied "h9")) two_users)
                   (conj eq_refl eq_refl) eq_refl)
            (mkUser 1 "alice" "a@x.com" "h1" clock0) _ (or_introl eq_refl)).
  vm_compute. left. reflexivity.
Defined.

(** A failure of the insertion that carries the code SQLITE_CONSTRAINT
    without being a breach of uniqueness is answered 409 as well. *)
Example createUser_handler_not_null_409 :
  reply_status
    (fst (Controller.createUser
            (mkPartial (Supplied "alice") (Supplied "a@x.com") (Supplied "h1"))
            (fresh_store [None; Some (not_null_failed "username")])))
  = Some 409.
Proof. reflexivity. Qed.

(** ** GET by id *)

(** [getUserById] of the controller always answers, on any store: it hands
    no error to [next] and its status is 200, 404 or 500; a failure of the
    store is answered 500.  On a store without a pending failure it
    answers 200 with the row that has the id, and 404 with the message
    [User with ID <id> not found] when no row has it. *)
Theorem getUserById_handler_answers (userId : Z) (s : Store) :
  (exists r s',
      Controller.getUserById userId s = (Sent r, s')
      /\ In (status r) [200; 404; 500]
      /\ tbl s' = tbl s)
  /\ (forall e s',
        getUserById userId s = (Thrown e, s') -> is_store_error e ->
        reply_status (fst (Controller.getUserById userId s)) = Some 500)
  /\ (faults s = [] ->
      fst (Controller.getUserById userId s)
      = match find_id userId (rows (tbl s)) with
        | Some u =>
            Sent (mkResponse 200
                    (JObject [("success"%string, JBool true);
                              ("data"%string, user_json u);
                              ("message"%string,
                               JString "User retrieved successfully")]))
        | None =>
            Sent (mkResponse 404
                    (JObject [("success"%string, JBool false);
                              ("message"%string,
                               JString (not_found_message userId))]))
        end).
Proof.
  split; [| split].
  - unfold Controller.getUserById, asyncHandler, try_catch, bind,
      db.getUserById.
    pose proof (frame_getUserById userId s) as Fr.
    destruct (getUserById userId s) as [[u | e] s1].
    + do 2 eexists. split; [reflexivity |].
      split; [cbn; tauto | exact (proj1 (Fr _ _ eq_refl))].
    + destruct e; do 2 eexists; (split; [reflexivity |]);
        (split; [cbn; tauto | exact (proj1 (Fr _ _ eq_refl))]).
  - intros e s' G [f ->].
    unfold Controller.getUserById, asyncHandler, try_catch, bind,
      db.getUserById. now rewrite G.
  - intros H. destruct (getUserById_eval userId s H) as [_ [_ [_ [_ [_ G]]]]].
    unfold Controller.getUserById, asyncHandler, try_catch, bind,
      db.getUserById.
    rewrite (surjective_pairing (getUserById userId s)), G.
    now destruct (find_id userId (rows (tbl s))).
Qed.

Lemma getUserById_handler_answers_witness :
  fst (Controller.getUserById 9 two_users)
  = Sent (mkResponse 404
            (JObject [("success"%string, JBool false);
                      ("message"%string,
                       JString (not_found_message 9))])).
Proof.
  exact (proj2 (proj2 (getUserById_handler_answers 9 two_users)) eq_refl).
Defined.

(** ** DELETE *)

(** [deleteUserById] of userController.ts never answers 404: on any store
    it either answers 200 or hands the error to [next].  The row returned
    by [deleteUser] is an object, so the branch that answers 404 is not
    reached, and a [UserNotFoundError] is not caught.  On a store in
    working order without a row of the id, the [UserNotFoundError] goes to
    [next] and the table is left as it was. *)
Theorem deleteUserById_never_404 (userId : Z) (s : Store) :
  (forall r s',
      Controller.deleteUserById userId s = (r, s') ->
      r = Sent (mkResponse 200
                  (JObject [("success"%string, JBool true);
                            ("message"%string,
                             JString "User deleted successfully")]))
      \/ exists e, r = Next e /\ fst (deleteUser userId s) = Thrown e)
  /\ (healthy s ->
      find_id userId (rows (tbl s)) = None ->
      exists s',
        Controller.deleteUserById userId s
        = (Next (UserNotFoundError (not_found_message userId)), s')
        /\ tbl s' = tbl s).
Proof.
  split.
  - intros r s'. unfold Controller.deleteUserById, asyncHandler, bind,
      db.deleteUser, truthy_row.
    destruct (deleteUser userId s) as [[u | e] s1]; cbn; intros [= <- _].
    + now left.
    + right. now exists e.
  - intros H F. pose proof (deleteUser_eval userId s H) as E.
    cbn zeta in E. rewrite F in E. destruct E as [_ [_ [E1 [E2 _]]]].
    exists (snd (deleteUser userId s)). split; [| exact E2].
    unfold Controller.deleteUserById, asyncHandler, bind, db.deleteUser.
    now rewrite (surjective_pairing (deleteUser userId s)), E1.
Qed.

Lemma deleteUserById_never_404_witness :
  exists s',
    Controller.deleteUserById 9 two_users
    = (Next (UserNotFoundError (not_found_message 9)), s')
    /\ tbl s' = tbl two_users.
Proof.
  exact (proj2 (deleteUserById_never_404 9 two_users)
           (conj eq_refl eq_refl) eq_refl).
Defined.

(** [deleteUserById] of src/unnamed/part_000 always answers, on any store,
    with status 200, 404 or 500.  On a store in working order it answers
    200 with the row as it was and the row is gone from the table, or 404
    with the message [User with ID <id> not found] when no row has the id,
    the table left as it was. *)
Theorem deleteUserById_plain_answers (userId : Z) (s : Store) :
  (exists r s',
      PlainController.deleteUserById userId s = (Sent r, s')
      /\ In (status r) [200; 404; 500])
  /\ (healthy s ->
      match find_id userId (rows (tbl s)) with
      | Some u =>
          exists s',
            PlainController.deleteUserById userId s
            = (Sent (mkResponse 200 (user_json u)), s')
            /\ find_id userId (rows (tbl s')) = None
      | None =>
          exists s',
            PlainController.deleteUserById userId s
            = (Sent (mkResponse 404
                       (JObject [("message"%string,
                                  JString (not_found_message userId))])),
               s')
            /\ tbl s' = tbl s
      end).
Proof.
  split.
  - unfold PlainController.deleteUserById, asyncHandler, try_catch, bind,
      db.deleteUser.
    destruct (deleteUser userId s) as [[u | e] s1].
    + do 2 eexists. split; [reflexivity |]. cbn. tauto.
    + destruct e; do 2 eexists; (split; [reflexivity |]); cbn; tauto.
  - intros H. pose proof (deleteUser_eval userId s H) as E. cbn zeta in E.
    destruct E as [_ [_ E]].
    assert (K : forall o s1,
               deleteUser userId s = (o, s1) ->
               PlainController.deleteUserById userId s
               = (match o with
                  | Returned u => Sent (mkResponse 200 (user_json u))
                  | Thrown (UserNotFoundError msg) =>
                      Sent (mkResponse 404
                              (JObject [("message"%string, JString msg)]))
                  | Thrown _ =>
                      Sent (mkResponse 500
                              (JObject [("message"%string,
                                         JString "Internal server error")]))
                  end, s1)).
    { intros o s1 D.
      unfold PlainController.deleteUserById, asyncHandler, try_catch, bind,
        db.deleteUser. rewrite D. destruct o as [u | []]; reflexivity. }
    specialize (K _ _ (surjective_pairing (deleteUser userId s))).
    destruct (find_id userId (rows (tbl s))) as [u |] eqn:F;
      destruct E as [E1 [E2 _]]; rewrite E1 in K;
      exists (snd (deleteUser userId s)); (split; [exact K |]).
    + rewrite E2. apply find_id_deleted.
    + exact E2.
Qed.

Lemma deleteUserById_plain_answers_witness :
  exists s',
    PlainController.deleteUserById 9 two_users
    = (Sent (mkResponse 404
               (JObject [("message"%string,
                          JString (not_found_message 9))])), s')
    /\ tbl s' = tbl two_users.
Proof.
  exact (proj2 (deleteUserById_plain_answers 9 two_users)
           (conj eq_refl eq_refl)).
Defined.

(** ** GET all *)

(** [getAllUsers] of the controller catches nothing: on any store it
    answers 200 or hands the failure of the store to [next], and leaves
    the table alone.  On a store without a pending failure it answers 200
    with the rows in ascending order of id, the empty array when there is
    none. *)
Theorem getAllUsers_handler_answers (s : Store) :
  (forall r s',
      Controller.getAllUsers tt s = (r, s') ->
      tbl s' = tbl s
      /\ (reply_status r = Some 200
          \/ exists e, r = Next e /\ is_store_error e))
  /\ (faults s = [] ->
      fst (Controller.getAllUsers tt s)
      = Sent (mkResponse 200
                (JObject [("success"%string, JBool true);
                          ("data"%string,
                           JArray (map user_json
                                     (order_by_id (rows (tbl s)))));
                          ("message"%string,
                           JString "Users retrieved successfully")]))).
Proof.
  split.
  - intros r s'. unfold Controller.getAllUsers, asyncHandler, bind,
      db.getAllUsers.
    pose proof (frame_getAllUsers s) as Fr.
    destruct (getAllUsers s) as [[us | e] s1] eqn:G; cbn;
      intros [= <- <-]; (split; [exact (proj1 (Fr _ _ eq_refl)) |]).
    + now left.
    + right. exists e. split; [reflexivity |].
      revert G. unfold getAllUsers. revert s Fr. intros s _.
      apply (raises_bind is_store_error initDb (fun _ => db_all)).
      * apply raises_initDb.
      * intros _. unfold db_all. apply raises_bind; [apply raises_issue |].
        intros _ s0 e0 s0'. discriminate.
  - intros H. destruct (getAllUsers_eval s H) as [_ [_ [_ [_ [_ G]]]]].
    unfold Controller.getAllUsers, asyncHandler, bind, db.getAllUsers.
    now rewrite (surjective_pairing (getAllUsers s)), G.
Qed.

Lemma getAllUsers_handler_answers_witness :
  fst (Controller.getAllUsers tt (fresh_store []))
  = Sent (mkResponse 200
            (JObject [("success"%string, JBool true);
                      ("data"%string, JArray []);
                      ("message"%string,
                       JString "Users retrieved successfully")])).
Proof.
  exact (proj2 (getAllUsers_handler_answers (fresh_store [])) eq_refl).
Defined.

(** ** POST, then GET *)

Lemma created_user_found (user : NewUser) (s : Store) :
  healthy s ->
  unused (new_username user) (new_email user) (rows (tbl s)) ->
  let u := created user (tbl s) (clock s) in
  exists s1 s2,
    createUser user s = (Returned u, s1)
    /\ getUserById (id u) s1 = (Returned u, s2).
Proof.
  intros H U. cbn zeta.
  destruct (createUser_unused user s H U) as [E1 [[F1 _] [_ [Et _]]]].
  set (u := created user (tbl s) (clock s)) in *.
  exists (snd (createUser user s)),
    (snd (getUserById (id u) (snd (createUser user s)))).
  split; [rewrite <- E1; apply surjective_pairing |].
  destruct (getUserById_eval (id u) _ F1) as [_ [_ [_ [_ [_ G]]]]].
  rewrite Et in G. cbn [rows] in G. rewrite find_id_app_fresh in G.
  - rewrite <- G. apply surjective_pairing.
  - intros v Hv. now apply next_id_fresh.
  - reflexivity.
Qed.

(** On a store in working order, a POST with a complete body whose
    username and email nobody holds is answered 201, and a GET of the id
    created is then answered 200 with the same user: in the controller of
    src/unnamed/part_000 the two bodies are the same JSON object, in that
    of userController.ts the same object is the [data] of both. *)
Theorem post_then_get (req_body : PartialNewUser) (s : Store) :
  healthy s ->
  truthy (upd_username req_body) && truthy (upd_email req_body)
  && truthy (upd_password_hash req_body) = true ->
  unused (text (upd_username req_body)) (text (upd_email req_body))
    (rows (tbl s)) ->
  let u := created (requested req_body) (tbl s) (clock s) in
  (exists s1 s2,
      PlainController.createUser req_body s
      = (Sent (mkResponse 201 (user_json u)), s1)
      /\ PlainController.getUserById (id u) s1
         = (Sent (mkResponse 200 (user_json u)), s2))
  /\ (exists s1 s2,
        Controller.createUser req_body s
        = (Sent (mkResponse 201
                   (JObject [("success"%string, JBool true);
                             ("data"%string, user_json u);
                             ("message"%string,
                              JString "User created successfully")])), s1)
        /\ Controller.getUserById (id u) s1
           = (Sent (mkResponse 200
                      (JObject [("success"%string, JBool true);
                                ("data"%string, user_json u);
                                ("message"%string,
                                 JString "User retrieved successfully")])),
              s2)).
Proof.
  intros H T U. cbn zeta. pose proof (truthy_all _ T) as K.
  destruct (created_user_found (requested req_body) s H U)
    as [s1 [s2 [C G]]].
  split; exists s1, s2; split.
  - unfold PlainController.createUser, asyncHandler. cbn zeta. rewrite K.
    unfold try_catch, bind, db.createUser. fold (requested req_body).
    now rewrite C.
  - unfold PlainController.getUserById, asyncHandler, try_catch, bind,
      db.getUserById. now rewrite G.
  - unfold Controller.createUser, asyncHandler. cbn zeta. rewrite K.
    unfold try_catch, bind, db.createUser. fold (requested req_body).
    now rewrite C.
  - unfold Controller.getUserById, asyncHandler, try_catch, bind,
      db.getUserById. now rewrite G.
Qed.

Lemma post_then_get_witness :
  exists s1 s2,
    PlainController.createUser
      (mkPartial (Supplied "alice") (Supplied "a@x.com") (Supplied "h1"))
      (fresh_store [])
    = (Sent (mkResponse 201
               (user_json (mkUser 1 "alice" "a@x.com" "h1" clock0))), s1)
    /\ PlainController.getUserById 1 s1
       = (Sent (mkResponse 200
                  (user_json (mkUser 1 "alice" "a@x.com" "h1" clock0))), s2).
Proof.
  refine (proj1 (post_then_get
                   (mkPartial (Supplied "alice") (Supplied "a@x.com")
                      (Supplied "h1"))
                   (fresh_store []) (conj eq_refl eq_refl) eq_refl _)).
  intros r [].
Defined.

(** ** The two controllers *)

(** On every store and for every request, the two controllers send the
    same status and leave the same store behind for [createUser] and for
    [getUserById]; they differ for [deleteUserById] exactly when
    [deleteUser] throws, where the one of part_000 answers 404 or 500 and
    the one of userController.ts hands the error to [next]. *)
Theorem controllers_compared (s : Store) :
  (forall req_body,
      reply_status (fst (Controller.createUser req_body s))
      = reply_status (fst (PlainController.createUser req_body s))
      /\ snd (Controller.createUser req_body s)
         = snd (PlainController.createUser req_body s))
  /\ (forall userId,
        reply_status (fst (Controller.getUserById userId s))
        = reply_status (fst (PlainController.getUserById userId s))
        /\ snd (Controller.getUserById userId s)
           = snd (PlainController.getUserById userId s))
  /\ (forall userId,
        snd (Controller.deleteUserById userId s)
        = snd (PlainController.deleteUserById userId s)
        /\ match fst (deleteUser userId s) with
           | Returned _ =>
               reply_status (fst (Controller.deleteUserById userId s))
               = Some 200
               /\ reply_status
                    (fst (PlainController.deleteUserById userId s))
                  = Some 200
           | Thrown e =>
               fst (Controller.deleteUserById userId s) = Next e
               /\ exists code,
                    reply_status
                      (fst (PlainController.deleteUserById userId s))
                    = Some code
                    /\ (code = 404 \/ code = 500)
           end).
Proof.
  split; [| split].
  - intros req_body.
    unfold Controller.createUser, PlainController.createUser, asyncHandler.
    cbn zeta.
    destruct (negb (truthy (upd_username req_body))
              || negb (truthy (upd_email req_body))
              || negb (truthy (upd_password_hash req_body)));
      [now split |].
    unfold try_catch, bind, db.createUser.
    destruct (createUser _ s) as [[u | []] s1]; now split.
  - intros userId.
    unfold Controller.getUserById, PlainController.getUserById, asyncHandler,
      try_catch, bind, db.getUserById.
    destruct (getUserById userId s) as [[u | []] s1]; now split.
  - intros userId.
    unfold Controller.deleteUserById, PlainController.deleteUserById,
      asyncHandler, try_catch, bind, db.deleteUser, truthy_row.
    destruct (deleteUser userId s) as [[u | e] s1]; cbn.
    + now repeat split.
    + destruct e; cbn; (split; [reflexivity |]);
        (split; [reflexivity |]); eexists; (split; [reflexivity |]); tauto.
Qed.

(** * The exercises *)

(** ** withRetry *)

Lemma after_runs_succ {W T} (operation : W -> Exercise.Settled T * W)
    (n : nat) (x : W) :
  after_runs operation (S n) x = after_runs operation n (snd (operation x)).
Proof. unfold after_runs. apply Nat.iter_succ_r. Qed.

Lemma backoff_from (base a : Z) (n : nat) :
  map (fun k => base * 2 ^ (a + Z.of_nat k)) (List.seq 0 (S n))
  = base * 2 ^ a
    :: map (fun k => base * 2 ^ (a + 1 + Z.of_nat k)) (List.seq 0 n).
Proof.
  cbn [List.seq map]. rewrite Z.add_0_r. f_equal.
  rewrite <- seq_shift, map_map. apply map_ext. intros k. do 2 f_equal. lia.
Qed.

Lemma retry_loop_all_fail {W T} (operation : W -> Exercise.Settled T * W)
    (options : Exercise.RetryOptions) :
  (forall y, exists e, fst (operation y) = Exercise.Rejected e) ->
  forall fuel a x aw st,
    fuel = S (Z.to_nat (Exercise.maxRetries options - a)) ->
    Exercise.retry_loop fuel (Exercise.lift operation) options a
      (Exercise.mkWorld x aw st)
    = Some (Exercise.Rejected (Exercise.PlainError Exercise.unavailable),
            Exercise.mkWorld (after_runs operation fuel x) aw
              (st ++ map (fun k => Exercise.baseDelayMs options
                                   * 2 ^ (a + Z.of_nat k))
                     (List.seq 0 fuel))).
Proof.
  intros F fuel. induction fuel as [| fuel IH]; intros a x aw st E;
    [discriminate |].
  cbn [Exercise.retry_loop]. unfold Exercise.lift at 1.
  cbn [Exercise.state Exercise.awaited Exercise.started].
  destruct (F x) as [e Fx]. destruct (operation x) as [r x1] eqn:Op.
  cbn [fst] in Fx. subst r. unfold Exercise.start_delay.
  cbn [Exercise.state Exercise.awaited Exercise.started].
  rewrite after_runs_succ, Op. cbn [snd]. rewrite backoff_from.
  replace (a + 1 - 1) with a by lia.
  destruct (Z.leb_spec (a + 1) (Exercise.maxRetries options)) as [L | L].
  - rewrite (IH (a + 1) x1 aw _) by lia. rewrite <- app_assoc. reflexivity.
  - assert (fuel = O) by lia. subst fuel. cbn. reflexivity.
Qed.

(** When every run of the operation is rejected, with whatever errors,
    [withRetry] ends (the loop is bounded), having run the operation once
    and once more for each retry allowed (once when [maxRetries] is zero
    or negative), and is rejected with a new error [Service temporarily
    unavailable]: the error of the last run is not what it throws.  After
    each failed run it has started a timer of [baseDelayMs] times two to
    the number of failures before, and awaited none of them. *)
Theorem withRetry_gives_up {W T}
    (operation : W -> Exercise.Settled T * W)
    (options : Exercise.RetryOptions) (w : Exercise.World W) :
  (forall y, exists e, fst (operation y) = Exercise.Rejected e) ->
  Exercise.withRetry (Exercise.lift operation) options w
  = Some (Exercise.Rejected (Exercise.PlainError Exercise.unavailable),
          Exercise.mkWorld
            (after_runs operation (Exercise.rounds options)
               (Exercise.state w))
            (Exercise.awaited w)
            (Exercise.started w
             ++ backoff options (Exercise.rounds options))).
Proof.
  intros F. destruct w as [x aw st]. unfold Exercise.withRetry.
  rewrite (retry_loop_all_fail operation options F _ 0 x aw st).
  - reflexivity.
  - unfold Exercise.rounds. f_equal. f_equal. lia.
Qed.

Lemma withRetry_gives_up_witness :
  Exercise.withRetry (Exercise.lift always_down) (Exercise.mkOptions 2 10)
    (Exercise.mkWorld O [] [])
  = Some (Exercise.Rejected (Exercise.PlainError Exercise.unavailable),
          Exercise.mkWorld 3%nat [] [10; 20; 40]).
Proof.
  refine (withRetry_gives_up always_down (Exercise.mkOptions 2 10)
            (Exercise.mkWorld O [] []) _).
  intros y. eexists. reflexivity.
Defined.

Lemma retry_loop_succeeds {W T} (operation : W -> Exercise.Settled T * W)
    (options : Exercise.RetryOptions) (v : T) :
  forall k fuel a x aw st,
    (k < fuel)%nat ->
    (k = O \/ a + Z.of_nat k <= Exercise.maxRetries options) ->
    (forall j, (j < k)%nat ->
               exists e, fst (operation (after_runs operation j x))
                         = Exercise.Rejected e) ->
    fst (operation (after_runs operation k x)) = Exercise.Fulfilled v ->
    Exercise.retry_loop fuel (Exercise.lift operation) options a
      (Exercise.mkWorld x aw st)
    = Some (Exercise.Fulfilled v,
            Exercise.mkWorld (after_runs operation (S k) x) aw
              (st ++ map (fun j => Exercise.baseDelayMs options
                                   * 2 ^ (a + Z.of_nat j))
                     (List.seq 0 k))).
Proof.
  induction k as [| k IH]; intros fuel a x aw st Hf Hm Hfail Hok;
    (destruct fuel as [| fuel]; [lia |]);
    cbn [Exercise.retry_loop]; unfold Exercise.lift at 1;
    cbn [Exercise.state Exercise.awaited Exercise.started].
  - change (after_runs operation 0 x) with x in Hok.
    change (after_runs operation 1 x) with (snd (operation x)).
    destruct (operation x) as [r x1]. cbn [fst] in Hok. subst r.
    cbn [snd List.seq map]. now rewrite app_nil_r.
  - destruct (Hfail O ltac:(lia)) as [e Fx].
    change (after_runs operation 0 x) with x in Fx.
    rewrite after_runs_succ.
    destruct (operation x) as [r x1] eqn:Op. cbn [fst] in Fx. subst r.
    cbn [snd]. unfold Exercise.start_delay.
    cbn [Exercise.state Exercise.awaited Exercise.started].
    replace (a + 1 - 1) with a by lia.
    rewrite (proj2 (Z.leb_le (a + 1) (Exercise.maxRetries options)))
      by (destruct Hm; lia).
    rewrite (IH fuel (a + 1) x1 aw _).
    + rewrite backoff_from, <- app_assoc. reflexivity.
    + lia.
    + right. destruct Hm; lia.
    + intros j Hj. destruct (Hfail (S j) ltac:(lia)) as [e' E'].
      exists e'. now rewrite after_runs_succ, Op in E'.
    + now rewrite after_runs_succ, Op in Hok.
Qed.

(** When the first [k] runs of the operation are rejected and the next one
    is fulfilled, [k] being at most the number of retries allowed,
    [withRetry] is fulfilled with the value of that run and the operation
    is not run again.  Whatever the errors of the failed runs were, each
    was retried (not only a NetworkError); the timers started after them
    are [baseDelayMs], twice that, four times that and so on, and none was
    awaited. *)
Theorem withRetry_first_success {W T}
    (operation : W -> Exercise.Settled T * W)
    (options : Exercise.RetryOptions) (w : Exercise.World W)
    (k : nat) (v : T) :
  (k <= Z.to_nat (Exercise.maxRetries options))%nat ->
  (forall j, (j < k)%nat ->
             exists e,
               fst (operation (after_runs operation j (Exercise.state w)))
               = Exercise.Rejected e) ->
  fst (operation (after_runs operation k (Exercise.state w)))
  = Exercise.Fulfilled v ->
  Exercise.withRetry (Exercise.lift operation) options w
  = Some (Exercise.Fulfilled v,
          Exercise.mkWorld
            (after_runs operation (S k) (Exercise.state w))
            (Exercise.awaited w)
            (Exercise.started w ++ backoff options k)).
Proof.
  intros Hk Hfail Hok. destruct w as [x aw st].
  cbn [Exercise.state Exercise.awaited Exercise.started] in *.
  unfold Exercise.withRetry, Exercise.rounds, backoff.
  rewrite (retry_loop_succeeds operation options v k _ 0 x aw st).
  - reflexivity.
  - lia.
  - destruct k; [now left | right; lia].
  - exact Hfail.
  - exact Hok.
Qed.

Lemma withRetry_first_success_witness :
  Exercise.withRetry (Exercise.lift third_time_lucky)
    (Exercise.mkOptions 5 10) (Exercise.mkWorld O [] [])
  = Some (Exercise.Fulfilled "Success!"%string,
          Exercise.mkWorld 3%nat [] [10; 20]).
Proof.
  refine (withRetry_first_success third_time_lucky (Exercise.mkOptions 5 10)
            (Exercise.mkWorld O [] []) 2 "Success!"%string _ _ _).
  - vm_compute. lia.
  - intros [| [| j]] Hj; [eexists; reflexivity .. | lia].
  - reflexivity.
Defined.

(** ** createPipeline *)

Lemma repeated_run {W A} (g : A -> Exercise.Task W A) (n : nat)
    (m : Exercise.Task W A) (w : Exercise.World W) :
  repeated g n m w
  = match m w with
    | (Exercise.Fulfilled a, w1) => repeated g n (Exercise.resolve a) w1
    | (Exercise.Rejected e, w1) => (Exercise.Rejected e, w1)
    end.
Proof.
  revert w. induction n as [| n IH]; intros w.
  - unfold repeated. cbn. unfold Exercise.resolve.
    now destruct (m w) as [[a | e] w1].
  - change (repeated g (S n) m w)
      with (Exercise.andThen (repeated g n m) g w).
    unfold Exercise.andThen at 1. rewrite IH.
    destruct (m w) as [[a | e] w1]; [| reflexivity].
    change (repeated g (S n) (Exercise.resolve a) w1)
      with (Exercise.andThen (repeated g n (Exercise.resolve a)) g w1).
    reflexivity.
Qed.

Lemma repeated_succ_r {W A} (g : A -> Exercise.Task W A) (n : nat)
    (m : Exercise.Task W A) :
  repeated g (S n) m = repeated g n (Exercise.andThen m g).
Proof. unfold repeated. apply Nat.iter_succ_r. Qed.

Lemma pipeline_loop_second {W A} (f g : A -> Exercise.Task W A)
    (rest : list (A -> Exercise.Task W A)) (n : nat) (a : A)
    (w : Exercise.World W) :
  Exercise.pipeline_loop n (f :: g :: rest) a w
  = repeated g n (Exercise.resolve a) w.
Proof.
  revert a w. induction n as [| n IH]; intros a w; [reflexivity |].
  cbn [Exercise.pipeline_loop nth_error]. rewrite repeated_succ_r.
  rewrite (repeated_run g n (Exercise.andThen (Exercise.resolve a) g) w).
  unfold Exercise.andThen, Exercise.resolve.
  destruct (g a w) as [[b | e] w1]; [| reflexivity].
  rewrite IH. reflexivity.
Qed.

(** The function [createPipeline] returns runs the first operation on the
    input and then the second operation once for each further operation
    given, each time on the result before: the third and the later
    operations are never called.  So the result does not depend on what
    they are; with one operation it is that operation, and with none the
    call of [operations[0]] is a TypeError. *)
Theorem createPipeline_repeats_second {W A}
    (f g : A -> Exercise.Task W A) (rest : list (A -> Exercise.Task W A))
    (input : A) (w : Exercise.World W) :
  Exercise.createPipeline (f :: g :: rest) input w
  = repeated g (S (List.length rest)) (f input) w
  /\ (forall others,
        List.length others = List.length rest ->
        Exercise.createPipeline (f :: g :: others) input w
        = Exercise.createPipeline (f :: g :: rest) input w)
  /\ Exercise.createPipeline [f] input w = f input w
  /\ Exercise.createPipeline (@nil (A -> Exercise.Task W A)) input w
     = (Exercise.Rejected Exercise.TypeError, w).
Proof.
  assert (K : forall others,
             Exercise.createPipeline (f :: g :: others) input w
             = repeated g (S (List.length others)) (f input) w).
  { intros others. unfold Exercise.createPipeline. cbn [nth_error List.length].
    replace (S (S (List.length others)) - 1)%nat
      with (S (List.length others)) by lia.
    rewrite repeated_run. unfold Exercise.andThen.
    destruct (f input w) as [[a | e] w1]; [| reflexivity].
    apply pipeline_loop_second. }
  split; [apply K |]. split; [| split].
  - intros others E. now rewrite !K, E.
  - unfold Exercise.createPipeline, Exercise.andThen. cbn.
    now destruct (f input w) as [[a | e] w1].
  - reflexivity.
Qed.

(** Three stages on numbers: add one, double, negate.  The pipeline
    doubles twice and never negates. *)
Example createPipeline_three_stages :
  fst (Exercise.createPipeline
         [fun n => Exercise.resolve (n + 1);
          fun n => Exercise.resolve (2 * n);
          fun n => Exercise.resolve (- n)]
         5 (Exercise.mkWorld tt [] []))
  = Exercise.Fulfilled 24.
Proof. reflexivity. Qed.

(** ** fetchUsersSequentially *)

Lemma fetchUser_run {W} (i delay : Z) (w : Exercise.World W) :
  Exercise.fetchUser i delay w
  = (if i <=? 0
     then Exercise.Rejected (Exercise.NetworkError 400 "Invalid user ID")
     else Exercise.Fulfilled (Exercise.user_of i),
     Exercise.mkWorld (Exercise.state w) (Exercise.awaited w ++ [delay])
       (Exercise.started w)).
Proof.
  unfold Exercise.fetchUser, Exercise.andThen, Exercise.await_delay.
  now destruct (i <=? 0).
Qed.

Lemma fetch_each_valid {W} (ids : list Z) :
  Forall (fun i => 0 < i) ids ->
  forall (users : list Exercise.User) (w : Exercise.World W),
    Exercise.fetch_each ids users w
    = (Exercise.Fulfilled (users ++ map Exercise.user_of ids),
       Exercise.mkWorld (Exercise.state w)
         (Exercise.awaited w ++ repeat 100 (List.length ids))
         (Exercise.started w)).
Proof.
  induction 1 as [| i ids Hi _ IH]; intros users w.
  - cbn. rewrite !app_nil_r. now destruct w.
  - cbn [Exercise.fetch_each]. unfold Exercise.andThen at 1.
    rewrite fetchUser_run.
    rewrite (proj2 (Z.leb_gt i 0)) by lia. rewrite IH.
    cbn [Exercise.state Exercise.awaited Exercise.started map List.length
           repeat].
    now rewrite <- !app_assoc.
Qed.

(** [fetchUsersSequentially] is fulfilled with one user per id, in the
    order of the ids, after awaiting one delay of 100 per id, when every
    id is positive; otherwise it is rejected with the NetworkError 400
    [Invalid user ID] at the first id that is not, and the ids after that
    one are not fetched at all. *)
Theorem fetchUsersSequentially_stops_at_first_invalid {W}
    (w : Exercise.World W) :
  (forall ids,
      Forall (fun i => 0 < i) ids ->
      Exercise.fetchUsersSequentially ids w
      = (Exercise.Fulfilled (map Exercise.user_of ids),
         Exercise.mkWorld (Exercise.state w)
           (Exercise.awaited w ++ repeat 100 (List.length ids))
           (Exercise.started w)))
  /\ (forall valid invalid rest,
        Forall (fun i => 0 < i) valid -> invalid <= 0 ->
        Exercise.fetchUsersSequentially (valid ++ invalid :: rest) w
        = (Exercise.Rejected (Exercise.NetworkError 400 "Invalid user ID"),
           Exercise.mkWorld (Exercise.state w)
             (Exercise.awaited w
              ++ repeat 100 (S (List.length valid)))
             (Exercise.started w))).
Proof.
  split.
  - intros ids H. unfold Exercise.fetchUsersSequentially.
    now rewrite (fetch_each_valid ids H).
  - intros valid invalid rest H L. unfold Exercise.fetchUsersSequentially.
    generalize (@nil Exercise.User) as users. revert w.
    induction H as [| i valid Hi _ IH]; intros w users.
    + cbn [app Exercise.fetch_each]. unfold Exercise.andThen.
      rewrite fetchUser_run. rewrite (proj2 (Z.leb_le invalid 0) L).
      reflexivity.
    + cbn [app Exercise.fetch_each]. unfold Exercise.andThen at 1.
      rewrite fetchUser_run. rewrite (proj2 (Z.leb_gt i 0)) by lia.
      rewrite IH.
      cbn [Exercise.state Exercise.awaited Exercise.started List.length
             repeat].
      now rewrite <- !app_assoc.
Qed.

Lemma fetchUsersSequentially_stops_at_first_invalid_witness :
  Exercise.fetchUsersSequentially [1; 2; -1; 3] (Exercise.mkWorld tt [] [])
  = (Exercise.Rejected (Exercise.NetworkError 400 "Invalid user ID"),
     Exercise.mkWorld tt [100; 100; 100] []).
Proof.
  refine (proj2 (fetchUsersSequentially_stops_at_first_invalid
                   (Exercise.mkWorld tt [] [])) [1; 2] (-1) [3] _ _).
  - repeat constructor.
  - lia.
Defined.
